(** * EVF2: e-mail finder and verifier

    A shallow embedding of [backend/email_verifier.py] and
    [backend/email_finder.py], and the properties of the candidate generator,
    the prioritizer, the SMTP probe, the confidence fusion and the
    verification orchestrator.

    Conventions.
    - Python [float] is IEEE 754 binary64: Rocq's primitive [float], with the
      source's decimal literals read as the nearest binary64 value.
    - Python [str] is restricted to code points below 256 and represented by
      [string]; [lower] and [strip] follow Python on that range.
    - Python [int] is [Z]; [dict] objects with a fixed key set are records,
      dictionaries indexed by domain are [gmap string _].
    - The network (DNS, SMTP, HTTP), the clock and the random generator are
      oracles that may answer differently at every call: each oracle reads the
      history of the effects performed so far. *)

From Stdlib Require Import ZArith Bool List Ascii String Lia.
From Stdlib Require Import Floats.PrimFloat Floats.SpecFloat Floats.FloatOps Floats.FloatAxioms.
From Stdlib Require Import Sorting.Sorted.
From Stdlib Require Import Numbers.DecimalString Numbers.Cyclic.Int63.Uint63.
From stdpp Require Import base gmap strings list.

Set Warnings "-inexact-float".
Local Open Scope Z_scope.

(** ** Python floats *)

Module PyFloat.

(** [a if not (b < a) else b], Python's [min(a, b)]. *)
Definition min (a b : float) : float := if PrimFloat.ltb b a then b else a.

(** Python's [max(a, b)]: the first argument unless the second is larger. *)
Definition max (a b : float) : float := if PrimFloat.ltb a b then b else a.

(** [a >= b] *)
Definition geb (a b : float) : bool := PrimFloat.leb b a.

(** Nearest integer to [m * 2^e] (for [e < 0]), ties to even. *)
Definition half_even (m e : Z) : Z :=
  let d := Z.shiftl 1 (- e) in
  let q := m / d in
  let r := m mod d in
  match Z.compare (2 * r) d with
  | Lt => q
  | Gt => q + 1
  | Eq => if Z.even q then q else q + 1
  end.

(** [round(x, 2)]: CPython prints [x] correctly rounded to two decimals
    (ties of the exact binary value go to the even digit) and reads the
    decimal back as the nearest double. Non-finite values and integral
    values are returned unchanged. *)
Definition round2 (x : float) : float :=
  match Prim2SF x with
  | S754_finite s m e =>
      if 0 <=? e then x
      else
        let n := half_even (Z.pos m * 100) e in
        match n with
        | Z.pos p =>
            SF2Prim (SFdiv prec emax (S754_finite s p 0) (S754_finite false 100 0))
        | _ => if s then (- 0)%float else 0%float
        end
  | _ => x
  end.

(** [int / int], true division of two small integers. *)
Definition div_int (a b : Z) : float :=
  (PrimFloat.of_uint63 (Uint63.of_Z a) / PrimFloat.of_uint63 (Uint63.of_Z b))%float.

End PyFloat.

(** ** Python strings (code points below 256) *)

Module PyStr.

Local Open Scope N_scope.

(** [c.lower()]: the ASCII capitals and the Latin-1 capitals U+00C0..U+00DE
    (the sign U+00D7 apart) move up by 32. *)
Definition lower_char (c : ascii) : ascii :=
  let n := N_of_ascii c in
  if ((65 <=? n) && (n <=? 90)) || ((192 <=? n) && (n <=? 222) && negb (n =? 215))
  then ascii_of_N (n + 32) else c.

(** [c.isspace()] *)
Definition is_space (c : ascii) : bool :=
  let n := N_of_ascii c in
  ((9 <=? n) && (n <=? 13)) || ((28 <=? n) && (n <=? 32)) || (n =? 133) || (n =? 160).

Fixpoint lower (s : string) : string :=
  match s with
  | EmptyString => EmptyString
  | String c s' => String (lower_char c) (lower s')
  end.

(** [s.lstrip(...)], dropping the leading characters that satisfy [p]. *)
Fixpoint lstrip_with (p : ascii -> bool) (s : string) : string :=
  match s with
  | EmptyString => EmptyString
  | String c s' => if p c then lstrip_with p s' else s
  end.

(** [s.rstrip(...)], dropping the trailing characters that satisfy [p]. *)
Fixpoint rstrip_with (p : ascii -> bool) (s : string) : string :=
  match s with
  | EmptyString => EmptyString
  | String c s' =>
      match rstrip_with p s' with
      | EmptyString => if p c then EmptyString else String c EmptyString
      | r => String c r
      end
  end.

(** [s.strip()] *)
Definition strip (s : string) : string := rstrip_with is_space (lstrip_with is_space s).

(** [s.rstrip(chars)] *)
Definition rstrip (chars : list ascii) (s : string) : string :=
  rstrip_with (fun c => bool_decide (c ∈ chars)) s.

(** [sub in s] *)
Fixpoint contains (sub s : string) : bool :=
  String.prefix sub s ||
  match s with
  | EmptyString => false
  | String _ s' => contains sub s'
  end.

(** [c in s] for a single character. *)
Fixpoint has_char (c : ascii) (s : string) : bool :=
  match s with
  | EmptyString => false
  | String a s' => Ascii.eqb a c || has_char c s'
  end.

(** [s.endswith(suffix)] *)
Fixpoint endswith (s suffix : string) : bool :=
  String.eqb s suffix ||
  match s with
  | EmptyString => false
  | String _ s' => endswith s' suffix
  end.

(** [s.startswith(p)] *)
Definition startswith (s p : string) : bool := String.prefix p s.

(** [s.split(c, 1)] when [c] occurs in [s]: the text before the first [c]
    and the text after it. *)
Fixpoint split1 (c : ascii) (s : string) : option (string * string) :=
  match s with
  | EmptyString => None
  | String a s' =>
      if Ascii.eqb a c then Some (EmptyString, s')
      else match split1 c s' with
           | Some (l, r) => Some (String a l, r)
           | None => None
           end
  end.

(** [s[:n]] for a literal [n >= 0]. *)
Fixpoint take (n : nat) (s : string) : string :=
  match n, s with
  | S n', String c s' => String c (take n' s')
  | _, _ => EmptyString
  end.

(** [s[i]] for a literal [i >= 0]; [None] is Python's [IndexError]. *)
Fixpoint index (i : nat) (s : string) : option string :=
  match s, i with
  | EmptyString, _ => None
  | String c _, O => Some (String c EmptyString)
  | String _ s', S i' => index i' s'
  end.

(** [s[-1]] *)
Fixpoint last (s : string) : option string :=
  match s with
  | EmptyString => None
  | String c EmptyString => Some (String c EmptyString)
  | String _ s' => last s'
  end.

(** [s[0] if s else ""] *)
Definition head (s : string) : string :=
  match s with
  | EmptyString => EmptyString
  | String c _ => String c EmptyString
  end.

(** [s[-1] if s else ""] *)
Definition tail (s : string) : string :=
  match last s with
  | Some c => c
  | None => EmptyString
  end.

(** [len(s)] *)
Definition len (s : string) : Z := Z.of_nat (String.length s).

(** [str(n)] for an integer. *)
Definition of_Z (n : Z) : string := NilZero.string_of_int (Z.to_int n).

(** [not s] *)
Definition is_empty (s : string) : bool :=
  match s with EmptyString => true | _ => false end.

End PyStr.

(** ** Records of the verifier *)

(** The probe outcome, [smtp_handshake]'s [result] dictionary. *)
Record smtp_result := {
  accepted : bool;
  rejected : bool;
  error : option string;
  mx_used : option string;
  skipped : bool
}.

(** [check_mx_records]'s dictionary; [mx_details] pairs priority and host. *)
Record mx_check := {
  valid : bool;
  mx_hosts : list string;
  mx_details : list (Z * string);
  mx_error : option string
}.

(** [check_deliverability]'s dictionary. *)
Record deliverability := {
  spf : bool;
  dkim : bool;
  dmarc : bool;
  spf_record : option string;
  dmarc_record : option string;
  d_skipped : bool
}.

(** [detect_catch_all]'s dictionary. *)
Record catch_all := {
  is_catchall : bool;
  test_email : option string;
  c_skipped : bool
}.

(** ** Confidence fusion: [EmailVerifier.calculate_confidence] *)

(** [sum([spf, dkim, dmarc])] *)
Definition security_count (d : deliverability) : Z :=
  Z.b2z (spf d) + Z.b2z (dkim d) + Z.b2z (dmarc d).

Definition calculate_confidence (smtp : smtp_result) (ca : catch_all) (mx : mx_check)
    (d : deliverability) (confidence_mode : string) : float :=
  let confidence := 0.0%float in
  (* [None] stands for the early [return 0.0]. *)
  let after_probe :=
    if accepted smtp then Some (confidence + 0.60)%float
    else if rejected smtp then None
    else Some confidence in
  match after_probe with
  | None => 0.0%float
  | Some confidence =>
    let confidence := if valid mx then (confidence + 0.10)%float else confidence in
    let confidence := if negb (is_catchall ca) then (confidence + 0.15)%float else confidence in
    let confidence :=
      (confidence + PyFloat.div_int (security_count d) 3 * 0.15)%float in
    let confidence :=
      if String.eqb confidence_mode "aggressive" then
        let domain_secure := spf d || dmarc d in
        let confidence :=
          if negb (accepted smtp) && valid mx && domain_secure
          then PyFloat.max confidence 0.65 else confidence in
        let confidence :=
          if skipped smtp && valid mx
          then PyFloat.max confidence 0.60 else confidence in
        if negb (is_catchall ca) && valid mx
        then PyFloat.min (confidence + 0.1) 0.95 else confidence
      else confidence in
    PyFloat.round2 confidence
  end.

(** [verify_email]'s [details] dictionary: a key is present once its stage
    has run. The internet check holds either its payload or [{"error": ...}]. *)
Record details := {
  mx_check_of : option mx_check;
  smtp_check : option smtp_result;
  deliverability_of : option deliverability;
  catch_all_of : option catch_all;
  internet_check : option (string + string)
}.

(** [verify_email]'s result dictionary. *)
Record verification := {
  email : string;
  status : string;
  confidence : float;
  reason : string;
  evidence : details
}.

Definition no_details : details :=
  {| mx_check_of := None; smtp_check := None; deliverability_of := None;
     catch_all_of := None; internet_check := None |}.

(** One entry of [DOMAIN_CONFIDENCE_OVERRIDES]: [min_confidence] when it is a
    number, [force_status] when it is a string. *)
Record override := {
  min_confidence : option float;
  force_status : option string
}.

(** The table as the module defines it: empty. *)
Definition DOMAIN_CONFIDENCE_OVERRIDES : gmap string override := ∅.

(** ** The outside world *)

(** Exceptions of the SMTP client, with [str(e)]. *)
Inductive exn_kind :=
| SMTPServerDisconnected
| socket_timeout
| socket_gaierror
| OtherException.

Record exn := { kind : exn_kind; message : string }.

(** Failures of [resolver.resolve]. *)
Inductive dns_error :=
| NXDOMAIN
| NoAnswer
| DnsFailure (msg : string).

Inductive smtp_cmd :=
| Create                      (* smtplib.SMTP(timeout=...) *)
| Connect                     (* server.connect(host, 25) *)
| Ehlo
| Helo
| Mail (sender : string)
| Rcpt (recipient : string)
| Quit.

(** What a call of the SMTP client gives: a reply code with the text Python
    prints for its message, or an exception. *)
Inductive smtp_reply :=
| Reply (code : Z) (text : string)
| Raise (e : exn).

Inductive cache_name := MxCache | DeliverabilityCache.

(** Every effect the verifier performs, in the order performed. *)
Inductive event :=
| EClock
| ECacheGet (c : cache_name) (key : string)
| ECachePop (c : cache_name) (key : string)
| ECacheSet (c : cache_name) (key : string)
| EDnsA (name : string)
| EDnsMX (name : string)
| EDnsTXT (name : string)
| ESmtp (host : string) (cmd : smtp_cmd)
| ERandom
| EInternet (address : string).

(** The environment of one [EmailVerifier]: its configuration (read from the
    process environment by [__init__]) and the oracles. *)
Record Env := {
  sender_domain : string;
  enable_internet_checks : bool;
  hibp_enabled : bool;
  clock : list event -> float;
  resolve_a : list event -> string -> dns_error + unit;
  resolve_mx : list event -> string -> dns_error + list (Z * string);
  resolve_txt : list event -> string -> dns_error + list string;
  smtp : list event -> string -> smtp_cmd -> smtp_reply;
  random_local : list event -> string;
  internet_presence : list event -> string -> bool -> exn + string
}.

Record cache_entry (V : Type) := { value : V; expires_at : float }.
Arguments value {V} _.
Arguments expires_at {V} _.

(** The mutable state of an [EmailVerifier] and the history of its effects. *)
Record state := {
  mx_cache : gmap string (cache_entry mx_check);
  deliverability_cache : gmap string (cache_entry deliverability);
  history : list event
}.

(** State passing. *)
Definition M (A : Type) : Type := state -> A * state.

Definition ret {A} (a : A) : M A := fun s => (a, s).
Definition bind {A B} (m : M A) (k : A -> M B) : M B :=
  fun s => let '(a, s') := m s in k a s'.

Notation "'let*' x := m 'in' k" := (bind m (fun x => k))
  (at level 10, x pattern, m at level 100, k at level 200).

(** Perform the effect [e]; the answer is what the oracle says after the
    history so far. *)
Definition perform {A} (e : event) (answer : list event -> A) : M A :=
  fun s => (answer (history s),
            {| mx_cache := mx_cache s; deliverability_cache := deliverability_cache s;
               history := history s ++ [e] |}).

Definition cache_ttl : float := 3600%float.

Section Verifier.

Variable env : Env.

(** *** The lookup cache: [_get_cached] and [_set_cache] *)

Definition set_mx_cache (c : gmap string (cache_entry mx_check)) : M unit :=
  fun s => (tt, {| mx_cache := c; deliverability_cache := deliverability_cache s;
                   history := history s |}).

Definition set_deliverability_cache (c : gmap string (cache_entry deliverability)) : M unit :=
  fun s => (tt, {| mx_cache := mx_cache s; deliverability_cache := c;
                   history := history s |}).

Definition time_time : M float := perform EClock (clock env).

Definition _get_cached {V} (name : cache_name)
    (read : state -> gmap string (cache_entry V))
    (write : gmap string (cache_entry V) -> M unit) (key : string) : M (option V) :=
  let* _ := perform (ECacheGet name key) (fun _ => tt) in
  fun s =>
    match read s !! key with
    | None => ret None s
    | Some entry =>
        (let* now := time_time in
         if PrimFloat.ltb now (expires_at entry) then ret (Some (value entry))
         else
           let* _ := perform (ECachePop name key) (fun _ => tt) in
           let* _ := write (delete key (read s)) in
           ret None) s
    end.

Definition _set_cache {V} (name : cache_name)
    (read : state -> gmap string (cache_entry V))
    (write : gmap string (cache_entry V) -> M unit) (key : string) (v : V) : M unit :=
  let* now := time_time in
  let* _ := perform (ECacheSet name key) (fun _ => tt) in
  fun s => write (<[key := {| value := v; expires_at := (now + cache_ttl)%float |}]> (read s)) s.

(** *** [check_mx_records] *)

(** [str(mx.exchange).rstrip('.')] *)
Definition exchange_host (exchange : string) : string := PyStr.rstrip ["."%char] exchange.

(** [mx_hosts.sort(key=lambda x: x["priority"])]: stable, ascending. *)
Fixpoint insert_by_priority (x : Z * string) (l : list (Z * string)) : list (Z * string) :=
  match l with
  | [] => [x]
  | y :: l' => if fst x <? fst y then x :: l else y :: insert_by_priority x l'
  end.

Definition sort_by_priority (l : list (Z * string)) : list (Z * string) :=
  fold_left (fun acc x => insert_by_priority x acc) l [].

Definition check_mx_records (domain : string) : M mx_check :=
  (* the A lookup is tried first and its failure ignored *)
  let* _ := perform (EDnsA domain) (fun h => resolve_a env h domain) in
  let* answer := perform (EDnsMX domain) (fun h => resolve_mx env h domain) in
  match answer with
  | inr mx_records =>
      let hosts := sort_by_priority (map (fun mx => (fst mx, exchange_host (snd mx))) mx_records) in
      ret {| valid := true; mx_hosts := map snd hosts; mx_details := hosts; mx_error := None |}
  | inl NXDOMAIN =>
      ret {| valid := false; mx_hosts := []; mx_details := [];
             mx_error := Some "Domain does not exist" |}
  | inl NoAnswer =>
      let* a := perform (EDnsA domain) (fun h => resolve_a env h domain) in
      match a with
      | inr _ =>
          ret {| valid := true; mx_hosts := [domain]; mx_details := [(0, domain)];
                 mx_error := None |}
      | inl _ =>
          ret {| valid := false; mx_hosts := []; mx_details := [];
                 mx_error := Some "No MX records found" |}
      end
  | inl (DnsFailure msg) =>
      ret {| valid := false; mx_hosts := []; mx_details := [];
             mx_error := Some ("DNS lookup failed: " +:+ msg) |}
  end.

(** *** [smtp_handshake] *)

Definition smtp_blocked_domains : list string :=
  ["outlook.com"; "hotmail.com"; "live.com"; "msn.com";
   "gmail.com"; "googlemail.com"; "yahoo.com"; "yahoo.co.uk";
   "aol.com"; "icloud.com"; "me.com"; "mac.com";
   "microsoft.com"; "office365.com"].

Definition transactional_patterns : list string :=
  ["inbound-smtp"; "amazonaws.com"; "sendgrid.net"; "mailgun.org";
   "mailgun.com"; "sparkpostmail.com"; "postmarkapp.com"; "mandrillapp.com"].

(** The dictionary [result] starts from. *)
Definition fresh_result : smtp_result :=
  {| accepted := false; rejected := false; error := None; mx_used := None;
     skipped := false |}.

Definition set_error (msg : string) (r : smtp_result) : smtp_result :=
  {| accepted := accepted r; rejected := rejected r; error := Some msg;
     mx_used := mx_used r; skipped := skipped r |}.

Definition set_mx_used (host : string) (r : smtp_result) : smtp_result :=
  {| accepted := accepted r; rejected := rejected r; error := error r;
     mx_used := Some host; skipped := skipped r |}.

Definition set_accepted (r : smtp_result) : smtp_result :=
  {| accepted := true; rejected := rejected r; error := error r;
     mx_used := mx_used r; skipped := skipped r |}.

Definition set_rejected (r : smtp_result) : smtp_result :=
  {| accepted := accepted r; rejected := true; error := error r;
     mx_used := mx_used r; skipped := skipped r |}.

Definition set_skipped (r : smtp_result) : smtp_result :=
  {| accepted := accepted r; rejected := rejected r; error := error r;
     mx_used := mx_used r; skipped := true |}.

(** How one pass of the host loop ends: [return result] or [continue]. *)
Inductive outcome :=
| Return (r : smtp_result)
| Continue (r : smtp_result).

(** The reading of the reply to RCPT TO, the [if]/[elif] chain. *)
Definition interpret (code : Z) (text : string) (mx_host : string)
    (result : smtp_result) : outcome :=
  if bool_decide (code ∈ [250; 251]) then
    Return (set_mx_used mx_host (set_accepted result))
  else if bool_decide (code ∈ [550; 553]) then
    Return (set_mx_used mx_host (set_error "Mailbox does not exist" (set_rejected result)))
  else if bool_decide (code ∈ [450; 451]) then
    Continue (set_mx_used mx_host (set_error "Temporarily unavailable (greylisted)" result))
  else if code =? 421 then
    Continue (set_error "Service unavailable" result)
  else if (500 <=? code) && (code <? 600) then
    Return (set_mx_used mx_host
              (set_error ("Permanent SMTP error: " +:+ PyStr.of_Z code) (set_rejected result)))
  else
    Continue (set_error ("Unexpected response: " +:+ PyStr.of_Z code +:+ " " +:+ text) result).

(** A computation that may raise. *)
Definition X (A : Type) : Type := M (exn + A).

Definition xret {A} (a : A) : X A := ret (inr a).
Definition xbind {A B} (m : X A) (k : A -> X B) : X B :=
  let* r := m in
  match r with
  | inl e => ret (inl e)
  | inr a => k a
  end.

Notation "'try*' x := m 'in' k" := (xbind m (fun x => k))
  (at level 10, x pattern, m at level 100, k at level 200).

(** One call of the SMTP client on the session with [host]. *)
Definition call (host : string) (cmd : smtp_cmd) : X (Z * string) :=
  let* r := perform (ESmtp host cmd) (fun h => smtp env h host cmd) in
  match r with
  | Reply code text => ret (inr (code, text))
  | Raise e => ret (inl e)
  end.

(** The body of the inner [try]. *)
Definition session (email mx_host : string) (result : smtp_result) : X outcome :=
  try* _ := call mx_host Connect in
  try* (code, _) := call mx_host Ehlo in
  try* _ := (if negb (code =? 250) then call mx_host Helo else xret (code, "")) in
  let test_sender := "verify@" +:+ sender_domain env in
  try* (code, _) := call mx_host (Mail test_sender) in
  if negb (bool_decide (code ∈ [250; 251])) then
    try* _ := call mx_host Quit in
    xret (Continue result)
  else
    try* (code, text) := call mx_host (Rcpt email) in
    try* _ := call mx_host Quit in
    xret (interpret code text mx_host result).

(** The handlers of the inner [try]; each one continues with the next host. *)
Definition inner_except (e : exn) (result : smtp_result) : smtp_result :=
  match kind e with
  | SMTPServerDisconnected => result
  | socket_timeout => set_error "Connection timeout" result
  | _ => set_error ("SMTP error: " +:+ message e) result
  end.

(** The handlers of the outer [try]. *)
Definition outer_except (e : exn) (result : smtp_result) : smtp_result :=
  match kind e with
  | socket_gaierror => result
  | socket_timeout => result
  | _ => set_error ("Connection error: " +:+ message e) result
  end.

(** One pass of [for mx_host in mx_hosts[:2]]. *)
Definition try_host (email mx_host : string) (result : smtp_result) : M outcome :=
  let* server := call mx_host Create in
  match server with
  | inl e => ret (Continue (outer_except e result))
  | inr _ =>
      let* r := session email mx_host result in
      match r with
      | inl e => ret (Continue (inner_except e result))
      | inr o => ret o
      end
  end.

(** The code after the loop: all hosts failed. *)
Definition exhausted (result : smtp_result) : smtp_result :=
  match error result with
  | None | Some EmptyString => set_error "Could not connect to any MX server" result
  | Some _ => result
  end.

Fixpoint host_loop (email : string) (hosts : list string) (result : smtp_result)
    : M smtp_result :=
  match hosts with
  | [] => ret (exhausted result)
  | mx_host :: rest =>
      let* o := try_host email mx_host result in
      match o with
      | Return r => ret r
      | Continue r => host_loop email rest r
      end
  end.

Definition is_blocked (domain_lower : string) : bool :=
  existsb (fun blocked => PyStr.contains blocked domain_lower
                          || PyStr.endswith domain_lower ("." +:+ blocked))
          smtp_blocked_domains.

Definition is_transactional (mx_hosts : list string) : bool :=
  existsb (fun mx_host =>
             existsb (fun pattern => PyStr.contains pattern (PyStr.lower mx_host))
                     transactional_patterns)
          (take 2 mx_hosts).

Definition smtp_handshake (email domain : string) (mx_hosts : list string) : M smtp_result :=
  let result := fresh_result in
  let domain_lower := PyStr.lower domain in
  if is_blocked domain_lower then
    ret (set_error "SMTP check skipped (domain typically blocks verification)"
           (set_skipped result))
  else if is_transactional mx_hosts then
    ret (set_error
           "SMTP check skipped (transactional email service - does not support mailbox verification)"
           (set_skipped result))
  else host_loop email (take 2 mx_hosts) result.

(** *** [check_deliverability] *)

(** The loop over the TXT records: the last record with the prefix wins. *)
Definition scan_txt (prefix : string) (records : list string) : bool * option string :=
  fold_left (fun acc txt => if PyStr.startswith txt prefix then (true, Some txt) else acc)
            records (false, None).

Definition lookup_txt (prefix name : string) : M (bool * option string) :=
  let* answer := perform (EDnsTXT name) (fun h => resolve_txt env h name) in
  match answer with
  | inr records => ret (scan_txt prefix records)
  | inl _ => ret (false, None)
  end.

Definition common_selectors : list string :=
  ["default"; "google"; "selector1"; "selector2"; "k1"; "mail"].

(** The DKIM loop: the first selector that resolves ends it. *)
Fixpoint find_dkim (selectors : list string) (domain : string) : M bool :=
  match selectors with
  | [] => ret false
  | selector :: rest =>
      let dkim_domain := selector +:+ "._domainkey." +:+ domain in
      let* answer := perform (EDnsTXT dkim_domain) (fun h => resolve_txt env h dkim_domain) in
      match answer with
      | inr _ => ret true
      | inl _ => find_dkim rest domain
      end
  end.

Definition check_deliverability (domain : string) : M deliverability :=
  let* (spf, spf_record) := lookup_txt "v=spf1" domain in
  let* (dmarc, dmarc_record) := lookup_txt "v=DMARC1" ("_dmarc." +:+ domain) in
  let* dkim := find_dkim common_selectors domain in
  ret {| spf := spf; dkim := dkim; dmarc := dmarc; spf_record := spf_record;
         dmarc_record := dmarc_record; d_skipped := false |}.

(** *** [detect_catch_all] *)

Definition detect_catch_all (domain : string) (mx_hosts : list string) : M catch_all :=
  let* random_string := perform ERandom (random_local env) in
  let test_email := random_string +:+ "@" +:+ domain in
  let* smtp_result := smtp_handshake test_email domain mx_hosts in
  ret {| is_catchall := accepted smtp_result; test_email := Some test_email;
         c_skipped := false |}.

(** *** [verify_email] *)

(** [(confidence_mode or "balanced").lower()] *)
Definition normalize_mode (confidence_mode : string) : string :=
  PyStr.lower (if PyStr.is_empty confidence_mode then "balanced" else confidence_mode).

Definition with_skipped_false (d : deliverability) : deliverability :=
  {| spf := spf d; dkim := dkim d; dmarc := dmarc d; spf_record := spf_record d;
     dmarc_record := dmarc_record d; d_skipped := false |}.

Definition with_c_skipped_false (c : catch_all) : catch_all :=
  {| is_catchall := is_catchall c; test_email := test_email c; c_skipped := false |}.

(** [smtp_result.get('error', 'Unknown error')] inside an f-string. *)
Definition error_text (smtp : smtp_result) : string :=
  match error smtp with
  | Some e => e
  | None => "None"
  end.

(** "Determine status": status, reason and confidence of the result. *)
Definition determine_status (smtp : smtp_result) (ca : catch_all) (mx : mx_check)
    (d : deliverability) (confidence : float) : string * string * float :=
  if skipped smtp then
    if valid mx && (spf d || dmarc d) then
      ("likely_valid",
       "Domain exists with valid MX and security records (SMTP check blocked by provider)",
       PyFloat.min 0.75 (confidence + 0.15))
    else
      ("unknown", "Could not complete full verification (SMTP blocked)", confidence)
  else if accepted smtp then
    if is_catchall ca then
      ("catch-all", "Email accepted but domain uses catch-all", confidence)
    else
      ("valid", "Email verified and deliverable", confidence)
  else if rejected smtp then
    ("invalid", "Mailbox rejected: " +:+ error_text smtp, confidence)
  else
    if valid mx && (spf d || dmarc d) then
      ("likely_valid",
       "Domain valid with security records (SMTP timeout - may be blocked)",
       PyFloat.min 0.70 (confidence + 0.10))
    else
      ("unknown", "Could not verify mailbox (server unavailable or timeout)", confidence).

(** The per-domain overrides, applied last. *)
Definition apply_override (o : option override) (r : string * string * float)
    : string * string * float :=
  match o with
  | None => r
  | Some o =>
      let '(status, reason, confidence) := r in
      let confidence :=
        match min_confidence o with
        | Some min_conf => PyFloat.max confidence min_conf
        | None => confidence
        end in
      let status :=
        match force_status o with
        | Some forced => forced
        | None => status
        end in
      (status, reason, confidence)
  end.

Definition cached_mx_check (domain : string) : M mx_check :=
  let* hit := _get_cached MxCache mx_cache set_mx_cache domain in
  match hit with
  | Some mx => ret mx
  | None =>
      let* mx := check_mx_records domain in
      let* _ := _set_cache MxCache mx_cache set_mx_cache domain mx in
      ret mx
  end.

Definition cached_deliverability (domain : string) : M deliverability :=
  let* hit :=
    _get_cached DeliverabilityCache deliverability_cache set_deliverability_cache domain in
  match hit with
  | Some d => ret d
  | None =>
      let* d := check_deliverability domain in
      let* _ :=
        _set_cache DeliverabilityCache deliverability_cache set_deliverability_cache domain d in
      ret d
  end.

Definition run_internet_check (email : string) (internet_checks : bool)
    : M (option (string + string)) :=
  if internet_checks || enable_internet_checks env then
    let* r := perform (EInternet email)
                      (fun h => internet_presence env h email (hibp_enabled env)) in
    match r with
    | inr payload => ret (Some (inl payload))
    | inl e => ret (Some (inr (message e)))
    end
  else ret None.

Definition unpack_error : exn :=
  {| kind := OtherException;
     message := "not enough values to unpack (expected 2, got 1)" |}.

Definition verify_email_with (overrides : gmap string override)
    (email : string) (fast_mode : bool) (confidence_mode : string)
    (internet_checks : bool) : X verification :=
  if PyStr.is_empty email || negb (PyStr.has_char "@" email) then
    xret {| email := email; status := "invalid"; confidence := 0.0;
            reason := "Invalid email format"; evidence := no_details |}
  else
    match PyStr.split1 "@" (PyStr.lower email) with
    | None => ret (inl unpack_error)
    | Some (local_part, domain) =>
        let confidence_mode := normalize_mode confidence_mode in
        (* Step 1: DNS/MX check (cached) *)
        let* mx := cached_mx_check domain in
        if negb (valid mx) then
          xret {| email := email; status := "invalid"; confidence := 0.0;
                  reason := "Domain has no valid MX records";
                  evidence := {| mx_check_of := Some mx; smtp_check := None;
                                 deliverability_of := None; catch_all_of := None;
                                 internet_check := None |} |}
        else
          (* Step 2: SMTP handshake *)
          let* smtp_result := smtp_handshake email domain (mx_hosts mx) in
          (* Step 3: deliverability (cached) *)
          let* d := cached_deliverability domain in
          let d := with_skipped_false d in
          (* Step 4: catch-all detection *)
          let* ca :=
            (if fast_mode then
               ret {| is_catchall := false; test_email := None; c_skipped := true |}
             else
               let* ca := detect_catch_all domain (mx_hosts mx) in
               ret (with_c_skipped_false ca)) in
          (* Step 5: internet presence *)
          let* ic := run_internet_check email internet_checks in
          let confidence := calculate_confidence smtp_result ca mx d confidence_mode in
          let '(status, reason, confidence) :=
            apply_override (overrides !! domain)
              (determine_status smtp_result ca mx d confidence) in
          xret {| email := email; status := status; confidence := confidence;
                  reason := reason;
                  evidence := {| mx_check_of := Some mx; smtp_check := Some smtp_result;
                                 deliverability_of := Some d; catch_all_of := Some ca;
                                 internet_check := ic |} |}
    end.

Definition verify_email := verify_email_with DOMAIN_CONFIDENCE_OVERRIDES.

End Verifier.

(** ** The candidate generator: [EmailFinder.generate_patterns] *)

(** [template.format] on the token dictionary gives a string, raises [KeyError] (which the
    generator swallows) or raises something else (which it does not). *)
Inductive format_result :=
| Formatted (s : string)
| KeyError
| FormatRaise (e : exn).

Module Template.

(** Templates made of plain text, doubled braces and fields [{name}] whose
    name is an identifier are expanded here; for any other template
    [parse] answers [None]. *)
Inductive segment :=
| Lit (c : ascii)
| Field (name : string).

Definition is_digit (c : ascii) : bool :=
  let n := N_of_ascii c in ((48 <=? n) && (n <=? 57))%N.

Definition is_ident_char (c : ascii) : bool :=
  let n := N_of_ascii c in
  (((65 <=? n) && (n <=? 90)) || ((97 <=? n) && (n <=? 122)) || (n =? 95))%N || is_digit c.

Definition is_identifier (name : string) : bool :=
  match name with
  | EmptyString => false
  | String c _ => negb (is_digit c)
  end.

Definition cons_segment (x : segment) (r : option (list segment)) : option (list segment) :=
  match r with
  | Some l => Some (x :: l)
  | None => None
  end.

(** [field] is the name read so far when the scan is inside braces. *)
Fixpoint parse (s : string) (field : option string) : option (list segment) :=
  match s, field with
  | EmptyString, None => Some []
  | EmptyString, Some _ => None
  | String c s', None =>
      if Ascii.eqb c "{" then
        match s' with
        | String "{" s'' => cons_segment (Lit "{") (parse s'' None)
        | _ => parse s' (Some EmptyString)
        end
      else if Ascii.eqb c "}" then
        match s' with
        | String "}" s'' => cons_segment (Lit "}") (parse s'' None)
        | _ => None
        end
      else cons_segment (Lit c) (parse s' None)
  | String c s', Some name =>
      if Ascii.eqb c "}" then
        if is_identifier name then cons_segment (Field name) (parse s' None) else None
      else if is_ident_char c then parse s' (Some (name +:+ String c EmptyString))
      else None
  end.

Fixpoint render (segments : list segment) (tokens : gmap string string) : format_result :=
  match segments with
  | [] => Formatted EmptyString
  | Lit c :: rest =>
      match render rest tokens with
      | Formatted r => Formatted (String c r)
      | other => other
      end
  | Field name :: rest =>
      match tokens !! name with
      | None => KeyError
      | Some v =>
          match render rest tokens with
          | Formatted r => Formatted (v +:+ r)
          | other => other
          end
      end
  end.

End Template.

Definition DEFAULT_PATTERN_TEMPLATES : list string :=
  ["{first}.{last}"; "{first}_{last}"; "{first}-{last}"; "{first}{last}";
   "{first}{l}"; "{f}{last}"; "{f}.{last}"; "{first}.{l}";
   "{last}.{first}"; "{last}_{first}"; "{last}{first}"; "{f}{l}{last}";
   "{first}{last}{f}"; "{first}{last}{l}"; "{last}{first}{l}";
   "{f}{last}{digits2}"; "{first}{last}{digits2}"; "{f}{l}{digits2}"].

Definition NUMERIC_SUFFIXES : list string := ["1"; "12"; "99"; "01"; "001"; "123"].
Definition SEPARATORS : list string := [""; "."; "_"; "-"].

Section Generator.

(** Python's [str.format] on the templates [Template.parse] leaves aside. *)
Variable format_ext : string -> gmap string string -> format_result.

Definition format (template : string) (tokens : gmap string string) : format_result :=
  match Template.parse template None with
  | Some segments => Template.render segments tokens
  | None => format_ext template tokens
  end.

(** The list [patterns] and the set [seen] the closure [add] updates. *)
Definition acc : Type := list string * gset string.

Definition add (domain_lower pattern : string) (st : acc) : acc :=
  let '(patterns, seen) := st in
  if PyStr.is_empty pattern then st
  else
    let email :=
      if PyStr.has_char "@" pattern then pattern else pattern +:+ "@" +:+ domain_lower in
    if bool_decide (email ∈ seen) then st
    else (patterns ++ [email], {[email]} ∪ seen).

Definition add_all (domain_lower : string) (ps : list string) (st : acc) : acc :=
  fold_left (fun st p => add domain_lower p st) ps st.

(** [for template in ...: try: add(expansion) except KeyError: continue];
    with [strip_first], the loop over the custom templates, which trims each
    template and skips the empty ones. *)
Fixpoint add_templates (strip_first : bool) (domain_lower : string)
    (tokens : gmap string string) (templates : list string) (st : acc) : exn + acc :=
  match templates with
  | [] => inr st
  | template :: rest =>
      let template := if strip_first then PyStr.strip template else template in
      if strip_first && PyStr.is_empty template then
        add_templates strip_first domain_lower tokens rest st
      else
        match format template tokens with
        | Formatted p => add_templates strip_first domain_lower tokens rest (add domain_lower p st)
        | KeyError => add_templates strip_first domain_lower tokens rest st
        | FormatRaise e => inl e
        end
  end.

Definition make_tokens (first last domain_lower : string) : gmap string string :=
  list_to_map
    [("first", first); ("last", last);
     ("f", PyStr.head first); ("l", PyStr.head last);
     ("fi", PyStr.take 2 first); ("li", PyStr.take 2 last);
     ("first3", PyStr.take 3 first); ("last3", PyStr.take 3 last);
     ("domain", domain_lower); ("digits2", "12")].

(** [first[1]], read only when [len(first) > 1]. *)
Definition second (s : string) : string :=
  match PyStr.index 1 s with
  | Some c => c
  | None => EmptyString
  end.

Definition base_tokens (first last : string) : list string :=
  [first +:+ "." +:+ last; first +:+ last; first +:+ "_" +:+ last;
   first +:+ "-" +:+ last; first +:+ PyStr.take 1 last; PyStr.take 1 first +:+ last;
   last +:+ first; last +:+ "." +:+ first].

Definition suffix_sweep (first last : string) : list string :=
  flat_map (fun token => map (fun suffix => token +:+ suffix) NUMERIC_SUFFIXES)
           (base_tokens first last).

Definition separator_sweep (first last f l : string) : list string :=
  flat_map (fun sep =>
              [first +:+ sep +:+ last;
               PyStr.take 1 first +:+ sep +:+ last;
               first +:+ sep +:+ PyStr.take 1 last;
               first +:+ sep +:+ last +:+ f;
               first +:+ sep +:+ last +:+ l])
           SEPARATORS.

Definition extras (first last f l : string) : list string :=
  [last +:+ first +:+ "1"; last +:+ first +:+ "123"; f +:+ last +:+ l;
   f +:+ last +:+ PyStr.tail first; first +:+ l +:+ PyStr.tail last; f +:+ last +:+ "1"].

Definition long_name_extras (first last f : string) : list string :=
  [f +:+ second first +:+ last; first +:+ PyStr.take 2 last; PyStr.take 2 first +:+ last].

Definition generate_patterns (first_name last_name domain : string)
    (custom_patterns : option (list string)) (include_defaults : bool)
    : exn + list string :=
  let first := PyStr.strip (PyStr.lower first_name) in
  let last := PyStr.strip (PyStr.lower last_name) in
  let domain_lower := PyStr.rstrip ["@"%char] (PyStr.strip (PyStr.lower domain)) in
  if PyStr.is_empty first || PyStr.is_empty last || PyStr.is_empty domain_lower then inr []
  else
    let st : acc := ([], ∅) in
    let tokens := make_tokens first last domain_lower in
    let f := PyStr.head first in
    let l := PyStr.head last in
    match (if include_defaults
           then add_templates false domain_lower tokens DEFAULT_PATTERN_TEMPLATES st
           else inr st) with
    | inl e => inl e
    | inr st =>
        let st := add_all domain_lower (suffix_sweep first last) st in
        let st := add_all domain_lower (separator_sweep first last f l) st in
        let st := add_all domain_lower (extras first last f l) st in
        let st :=
          if (1 <? PyStr.len first) && (1 <? PyStr.len last)
          then add_all domain_lower (long_name_extras first last f) st else st in
        match custom_patterns with
        | None | Some [] => inr (fst st)
        | Some templates =>
            match add_templates true domain_lower tokens templates st with
            | inl e => inl e
            | inr st => inr (fst st)
            end
        end
    end.

End Generator.

(** ** The best-match selector: [EmailFinder.find_best_emails] *)

(** One entry of [results]. *)
Record found := {
  found_email : string;
  found_status : string;
  found_confidence : float;
  found_reason : string
}.

(** [l[:n]] for an integer [n] of either sign. *)
Definition slice_to {A} (n : Z) (l : list A) : list A :=
  if 0 <=? n then take (Z.to_nat n) l
  else take (length l - Z.to_nat (- n)) l.

Definition index_error : exn :=
  {| kind := OtherException; message := "string index out of range" |}.

(** The five priority shapes, built from the names and the domain as given
    (lower-cased only); [first_name[0]] raises on an empty first name. *)
Definition priority_patterns (first_name last_name domain : string) : exn + list string :=
  let first := PyStr.lower first_name in
  let last := PyStr.lower last_name in
  let dom := PyStr.lower domain in
  match PyStr.index 0 first_name with
  | None => inl index_error
  | Some initial =>
      let initial := PyStr.lower initial in
      inr [first +:+ "." +:+ last +:+ "@" +:+ dom;
           first +:+ last +:+ "@" +:+ dom;
           first +:+ "@" +:+ dom;
           initial +:+ "." +:+ last +:+ "@" +:+ dom;
           initial +:+ last +:+ "@" +:+ dom]
  end.

(** The first loop of the ordering: the priority shapes that are candidates,
    each once. *)
Fixpoint promote (priority patterns : list string) (st : list string * gset string)
    : list string * gset string :=
  match priority with
  | [] => st
  | p :: rest =>
      let '(ordered, seen) := st in
      if bool_decide (p ∈ patterns) && negb (bool_decide (p ∈ seen))
      then promote rest patterns (ordered ++ [p], {[p]} ∪ seen)
      else promote rest patterns st
  end.

(** Both loops: [ordered_patterns]. *)
Definition prioritize (priority patterns : list string) : list string :=
  let '(ordered, seen) := promote priority patterns ([], ∅) in
  ordered ++ filter (fun p => p ∉ seen) patterns.

(** [max(1, min(max_patterns, len(ordered_patterns)))] *)
Definition clamp_patterns (max_patterns : Z) (ordered : list string) : Z :=
  Z.max 1 (Z.min max_patterns (Z.of_nat (length ordered))).

Definition collectible (status : string) : bool :=
  bool_decide (status ∈ ["valid"; "catch-all"; "likely_valid"]).

(** [results.sort(key=lambda x: x["confidence"], reverse=True)]: stable,
    descending. *)
Fixpoint insert_by_confidence (x : found) (l : list found) : list found :=
  match l with
  | [] => [x]
  | y :: l' =>
      if PrimFloat.ltb (found_confidence y) (found_confidence x) then x :: l
      else y :: insert_by_confidence x l'
  end.

Definition sort_by_confidence (l : list found) : list found :=
  fold_left (fun acc x => insert_by_confidence x acc) l [].

Section Selector.

Variable format_ext : string -> gmap string string -> format_result.

(** The verifier the finder owns: its state and its [verify_email]. *)
Variable W : Type.
Variable verify : string -> bool -> string -> bool -> W -> (exn + verification) * W.

Variables (max_results : Z) (fast_mode : bool) (confidence_mode : string)
          (internet_checks : bool).

(** The break test, made right after a result is collected. *)
Definition stop_early (v : verification) (results : list found) : bool :=
  PyFloat.geb (confidence v) 0.8 && (max_results <=? Z.of_nat (length results)).

Definition collect (email : string) (v : verification) (results : list found) : list found :=
  results ++ [{| found_email := email; found_status := status v;
                 found_confidence := confidence v; found_reason := reason v |}].

(** [for i, email in enumerate(patterns_to_check)]: the candidates verified,
    in order, the results collected and the verifier's final state. *)
Fixpoint probe (candidates : list string) (results : list found) (w : W)
    : list string * list found * W :=
  match candidates with
  | [] => ([], results, w)
  | email :: rest =>
      let '(r, w') := verify email fast_mode confidence_mode internet_checks w in
      match r with
      | inl _ =>
          let '(probed, results', w'') := probe rest results w' in
          (email :: probed, results', w'')
      | inr v =>
          if collectible (status v) then
            let results := collect email v results in
            if stop_early v results then ([email], results, w')
            else
              let '(probed, results', w'') := probe rest results w' in
              (email :: probed, results', w'')
          else
            let '(probed, results', w'') := probe rest results w' in
            (email :: probed, results', w'')
      end
  end.

(** [find_best_emails], with the list of the candidates it verified. *)
Definition find_best_emails_trace (first_name last_name domain : string)
    (max_patterns : Z) (custom_patterns : option (list string)) (include_defaults : bool)
    (w : W) : (exn + list string * list found) * W :=
  match generate_patterns format_ext first_name last_name domain
          custom_patterns include_defaults with
  | inl e => (inl e, w)
  | inr [] => (inr ([], []), w)
  | inr patterns =>
      match priority_patterns first_name last_name domain with
      | inl e => (inl e, w)
      | inr priority =>
          let ordered_patterns := prioritize priority patterns in
          let max_patterns := clamp_patterns max_patterns ordered_patterns in
          let patterns_to_check := slice_to max_patterns ordered_patterns in
          let '(probed, results, w') := probe patterns_to_check [] w in
          let results := sort_by_confidence results in
          (inr (probed, slice_to max_results results), w')
      end
  end.

Definition find_best_emails (first_name last_name domain : string)
    (max_patterns : Z) (custom_patterns : option (list string)) (include_defaults : bool)
    (w : W) : (exn + list found) * W :=
  match find_best_emails_trace first_name last_name domain max_patterns
          custom_patterns include_defaults w with
  | (inl e, w') => (inl e, w')
  | (inr (_, results), w') => (inr results, w')
  end.

End Selector.

(** The finder with the verifier of this repository. *)
Definition EmailFinder_find_best_emails (format_ext : string -> gmap string string -> format_result)
    (env : Env) (max_results : Z) (fast_mode : bool) (confidence_mode : string)
    (internet_checks : bool) :=
  find_best_emails format_ext state (verify_email env)
    max_results fast_mode confidence_mode internet_checks.


(** ** [EmailFinder.find_best_email] and the [/api/find] endpoint *)

Section SingleBest.

Variable format_ext : string -> gmap string string -> format_result.
Variable W : Type.
Variable verify : string -> bool -> string -> bool -> W -> (exn + verification) * W.

(** [find_best_email]: [find_best_emails] with [max_results=1] and the default
    [max_patterns] of 8; [results[0] if results else None]. *)
Definition find_best_email (first_name last_name domain : string)
    (custom_patterns : option (list string)) (include_defaults : bool)
    (fast_mode : bool) (confidence_mode : string) (internet_checks : bool)
    (w : W) : (exn + option found) * W :=
  match find_best_emails format_ext W verify 1 fast_mode confidence_mode internet_checks
          first_name last_name domain 8 custom_patterns include_defaults w with
  | (inl e, w') => (inl e, w')
  | (inr results, w') => (inr (head results), w')
  end.

End SingleBest.

Module Api.

(** The request model of [/api/find]. *)
Record EmailFindRequest := {
  first_name : string;
  last_name : string;
  domain : string;
  max_results : option Z;
  max_patterns : option Z;
  custom_patterns : option (list string);
  include_default_patterns : bool;
  fast_mode : bool;
  confidence_mode : option string;
  internet_checks : option bool
}.

(** The response model of [/api/find]. *)
Record EmailFindResponse := {
  email : option string;
  status : string;
  confidence : float;
  reason : option string
}.

(** [x or default] for an optional integer: [None] and 0 give the default. *)
Definition int_or (x : option Z) (default : Z) : Z :=
  match x with
  | None | Some 0 => default
  | Some n => n
  end.

(** The limits [find_email] passes on: [max_results] within 1..20 and
    [max_patterns] between [max_results] and 60. *)
Definition limits (request : EmailFindRequest) : Z * Z :=
  let max_results := int_or (max_results request) 2 in
  let max_patterns := int_or (max_patterns request) (max_results * 4) in
  let max_results := Z.max 1 (Z.min max_results 20) in
  let max_patterns := Z.max max_results (Z.min max_patterns 60) in
  (max_results, max_patterns).

(** [(request.confidence_mode or "balanced").lower()] *)
Definition mode_of (request : EmailFindRequest) : string :=
  PyStr.lower match confidence_mode request with
              | None | Some EmptyString => "balanced"
              | Some m => m
              end.

(** [bool(request.internet_checks)] *)
Definition internet_checks_of (request : EmailFindRequest) : bool :=
  match internet_checks request with
  | Some b => b
  | None => false
  end.

Definition not_found : EmailFindResponse :=
  {| email := None; status := "not_found"; confidence := 0.0;
     reason := Some "No valid email patterns found" |}.

(** [EmailFindResponse( **r )] for an entry of the finder's results. *)
Definition response_of (r : found) : EmailFindResponse :=
  {| email := Some (found_email r); status := found_status r;
     confidence := found_confidence r; reason := Some (found_reason r) |}.

Section Endpoint.

Variable format_ext : string -> gmap string string -> format_result.
Variable W : Type.
Variable verify : string -> bool -> string -> bool -> W -> (exn + verification) * W.

(** [find_email], with the candidates the finder verified; an exception
    becomes an HTTP 500 whose detail is [str(e)]. *)
Definition find_email_trace (request : EmailFindRequest) (w : W)
    : (string + list string * list EmailFindResponse) * W :=
  let '(max_results, max_patterns) := limits request in
  match find_best_emails_trace format_ext W verify max_results (fast_mode request)
          (mode_of request) (internet_checks_of request)
          (first_name request) (last_name request) (domain request) max_patterns
          (custom_patterns request) (include_default_patterns request) w with
  | (inl e, w') => (inl (message e), w')
  | (inr (probed, []), w') => (inr (probed, [not_found]), w')
  | (inr (probed, results), w') => (inr (probed, map response_of results), w')
  end.

Definition find_email (request : EmailFindRequest) (w : W)
    : (string + list EmailFindResponse) * W :=
  match find_email_trace request w with
  | (inl detail, w') => (inl detail, w')
  | (inr (_, response), w') => (inr response, w')
  end.

End Endpoint.

End Api.

(** ** Auxiliary definitions for the statements *)

(** Records built from their flags alone. *)
Definition smtp_flags (a r s : bool) : smtp_result :=
  {| accepted := a; rejected := r; error := None; mx_used := None; skipped := s |}.
Definition mx_flag (v : bool) : mx_check :=
  {| valid := v; mx_hosts := []; mx_details := []; mx_error := None |}.
Definition deliverability_flags (a b c : bool) : deliverability :=
  {| spf := a; dkim := b; dmarc := c; spf_record := None; dmarc_record := None;
     d_skipped := false |}.
Definition catch_all_flag (b : bool) : catch_all :=
  {| is_catchall := b; test_email := None; c_skipped := false |}.

(** [calculate_confidence] reads nine booleans. *)
Definition confidence_of_flags (a r s c v : bool) (x y z : bool) (aggressive : bool) : float :=
  calculate_confidence (smtp_flags a r s) (catch_all_flag c) (mx_flag v)
    (deliverability_flags x y z) (if aggressive then "aggressive" else "balanced").

Definition forall_bool (f : bool -> bool) : bool := f true && f false.

(** Every signal of the first record is a signal of the second. *)
Definition signals_included (x1 y1 z1 x2 y2 z2 : bool) : bool :=
  implb x1 x2 && implb y1 y2 && implb z1 z2.

Definition count_flags (x y z : bool) : Z := Z.b2z x + Z.b2z y + Z.b2z z.

(** The three monotonicity tables, over all flags. *)
Definition monotone_table
    (related : bool -> bool -> bool -> bool -> bool -> bool -> bool -> bool) : bool :=
  forall_bool (fun a => forall_bool (fun r => forall_bool (fun s =>
  forall_bool (fun c => forall_bool (fun v => forall_bool (fun g =>
  forall_bool (fun x1 => forall_bool (fun y1 => forall_bool (fun z1 =>
  forall_bool (fun x2 => forall_bool (fun y2 => forall_bool (fun z2 =>
    implb (related g x1 y1 z1 x2 y2 z2)
          (PrimFloat.leb (confidence_of_flags a r s c v x1 y1 z1 g)
                         (confidence_of_flags a r s c v x2 y2 z2 g)))))))))))))).

(** *** Shapes of a probe outcome *)

(** Neither accepted, nor rejected, nor skipped. *)
Definition inconclusive (r : smtp_result) : Prop :=
  accepted r = false /\ rejected r = false /\ skipped r = false.

(** Accepted or rejected, one of the two, by a host. *)
Definition decided (r : smtp_result) : Prop :=
  skipped r = false /\
  (accepted r = true /\ rejected r = false \/ accepted r = false /\ rejected r = true).

(** A pass of the host loop returns a decided result or continues with an
    inconclusive one. *)
Definition outcome_ok (o : outcome) : Prop :=
  match o with
  | Return r => decided r
  | Continue r => inconclusive r
  end.

(** The [error] field holds a non-empty text. *)
Definition has_reason (r : smtp_result) : Prop :=
  exists e, error r = Some e /\ e <> EmptyString.

(** Skipped by one of the two policy checks, before any network call. *)
Definition policy_skipped (r : smtp_result) : Prop :=
  skipped r = true /\ accepted r = false /\ rejected r = false /\ has_reason r.

(** What a run of [verify_email] that passes the MX stage is made of. *)
Inductive pipeline (env : Env) (overrides : gmap string override) (email : string)
    (confidence_mode : string) (v : verification) : Prop :=
| Pipeline (domain : string) (mx : mx_check) (smtp_result : smtp_result)
    (d : deliverability) (ca : catch_all) :
    valid mx = true ->
    (exists l, PyStr.split1 "@" (PyStr.lower email) = Some (l, domain)) ->
    (exists s1 s2, smtp_handshake env email domain (mx_hosts mx) s1 = (smtp_result, s2)) ->
    mx_check_of (evidence v) = Some mx ->
    smtp_check (evidence v) = Some smtp_result ->
    deliverability_of (evidence v) = Some d ->
    catch_all_of (evidence v) = Some ca ->
    (status v, reason v, confidence v) =
      apply_override (overrides !! domain)
        (determine_status smtp_result ca mx d
           (calculate_confidence smtp_result ca mx d (normalize_mode confidence_mode))) ->
    pipeline env overrides email confidence_mode v.

(** The events a computation adds are all SMTP commands to hosts of [hosts]. *)
Definition smtp_events_on (hosts : list string) (before after : list event) : Prop :=
  exists evs, after = before ++ evs /\
    Forall (fun ev => exists host cmd, ev = ESmtp host cmd /\ host ∈ hosts) evs.

(** *** Sample environments

    A domain with two MX hosts, given out of priority order; every SMTP
    command is answered 250, the recipient command with [rcpt_code] and QUIT
    with [quit]; with [with_spf] the domain publishes an SPF record. *)
Definition scripted_env (rcpt_code : Z) (quit : smtp_reply) (with_spf : bool) : Env :=
  {| sender_domain := "verifier.example";
     enable_internet_checks := false;
     hibp_enabled := false;
     clock := fun _ => 0%float;
     resolve_a := fun _ _ => inr tt;
     resolve_mx := fun _ _ => inr [(20, "mx2.example.org."); (10, "mx1.example.org.")];
     resolve_txt := fun _ name =>
       if with_spf && negb (PyStr.has_char "_" name) then inr ["v=spf1 -all"] else inl NoAnswer;
     smtp := fun _ host cmd =>
       match cmd with
       | Rcpt _ => Reply rcpt_code "b'reply'"
       | Quit => quit
       | _ => Reply 250 "b'ok'"
       end;
     random_local := fun _ => "k3x9q0zt7m2w5b8";
     internet_presence := fun _ _ _ => inr "{}" |}.

(** A verifier that has done nothing yet. *)
Definition idle : state :=
  {| mx_cache := ∅; deliverability_cache := ∅; history := [] |}.

(** QUIT answered, and QUIT on a connection the server has dropped. *)
Definition bye : smtp_reply := Reply 221 "b'bye'".

Definition dropped : smtp_reply :=
  Raise {| kind := SMTPServerDisconnected; message := "Connection unexpectedly closed" |}.

(** *** The reply codes

    The reading of a reply code, in the words of the specification. *)
Inductive reply_class :=
| Accepted
| MailboxMissing
| Greylisted
| ServiceUnavailable
| PermanentFailure
| Unexpected.

Definition classify_code (code : Z) : reply_class :=
  if (code =? 250) || (code =? 251) then Accepted
  else if (code =? 550) || (code =? 553) then MailboxMissing
  else if (code =? 450) || (code =? 451) then Greylisted
  else if code =? 421 then ServiceUnavailable
  else if (500 <=? code) && (code <? 600) then PermanentFailure
  else Unexpected.

(** *** The finder *)

(** The first loop of the ordering in the words of the specification: every
    element once, at the place of its first occurrence. *)
Fixpoint first_occurrences (l : list string) : list string :=
  match l with
  | [] => []
  | x :: l' => x :: filter (fun y => y ≠ x) (first_occurrences l')
  end.

(** The stop rule in the words of the specification: enough results, and the
    most recent one is a high-confidence one. *)
Definition stop_rule (max_results : Z) (results : list found) : bool :=
  (max_results <=? Z.of_nat (length results)) &&
  match last results with
  | Some r => PyFloat.geb (found_confidence r) 0.8
  | None => false
  end.

Section Exhaustive.

Variable W : Type.
Variable verify : string -> bool -> string -> bool -> W -> (exn + verification) * W.
Variables (fast_mode : bool) (confidence_mode : string) (internet_checks : bool).

(** The loop without its [break]: what probing every candidate collects. *)
Fixpoint probe_all (candidates : list string) (results : list found) (w : W)
    : list found * W :=
  match candidates with
  | [] => (results, w)
  | email :: rest =>
      let '(r, w') := verify email fast_mode confidence_mode internet_checks w in
      match r with
      | inl _ => probe_all rest results w'
      | inr v =>
          if collectible (status v) then probe_all rest (collect email v results) w'
          else probe_all rest results w'
      end
  end.

End Exhaustive.

(** A stand-in for Python's formatter on the templates outside the fragment:
    it refuses them all. *)
Definition refuse_template (template : string) (tokens : gmap string string) : format_result :=
  FormatRaise {| kind := OtherException; message := "unsupported format string" |}.

(** [seen] is the set of the elements of [patterns], which has no duplicates. *)
Definition acc_ok (st : acc) : Prop :=
  NoDup (fst st) /\ forall x, x ∈ snd st <-> x ∈ fst st.

(** A template of the fragment whose fields are among [names] and whose text
    has no '@'. *)
Definition segment_safe (names : list string) (s : Template.segment) : bool :=
  match s with
  | Template.Lit c => negb (Ascii.eqb c "@")
  | Template.Field name => bool_decide (name ∈ names)
  end.

Definition template_safe (names : list string) (template : string) : bool :=
  match Template.parse template None with
  | Some segments => forallb (segment_safe names) segments
  | None => false
  end.

(** The tokens the built-in templates use. *)
Definition name_tokens : list string := ["first"; "last"; "f"; "l"; "digits2"].

(** The address [add] makes of a pattern. *)
Definition address (domain_lower pattern : string) : string :=
  if PyStr.has_char "@" pattern then pattern else pattern +:+ "@" +:+ domain_lower.

(** The state of the generator: no duplicates, [seen] in step with
    [patterns], and every address so far satisfies [P]. *)
Definition generated (P : string -> Prop) (st : acc) : Prop :=
  acc_ok st /\ Forall P (fst st).


(** *** Definitions for the further properties *)

(** A domain that does not exist: the MX lookup answers NXDOMAIN. *)
Definition no_mail_env : Env :=
  {| sender_domain := "verifier.example";
     enable_internet_checks := false;
     hibp_enabled := false;
     clock := fun _ => 0%float;
     resolve_a := fun _ _ => inl NXDOMAIN;
     resolve_mx := fun _ _ => inl NXDOMAIN;
     resolve_txt := fun _ _ => inl NXDOMAIN;
     smtp := fun _ _ _ => Reply 250 "b'ok'";
     random_local := fun _ => "k3x9q0zt7m2w5b8";
     internet_presence := fun _ _ _ => inr "{}" |}.

(** A request to [/api/find] with the defaults of the model. *)
Definition sample_request : Api.EmailFindRequest :=
  {| Api.first_name := "Bob"; Api.last_name := "Ross"; Api.domain := "example.org";
     Api.max_results := None; Api.max_patterns := None; Api.custom_patterns := None;
     Api.include_default_patterns := true; Api.fast_mode := true;
     Api.confidence_mode := Some "balanced"; Api.internet_checks := Some false |}.

(** The footprint of a computation: it leaves both caches as they were and
    adds at most [n] events to the history, all of them satisfying [P]. *)
Definition effects (P : event -> Prop) (n : nat) (s s' : state) : Prop :=
  mx_cache s' = mx_cache s /\
  deliverability_cache s' = deliverability_cache s /\
  exists evs, history s' = history s ++ evs /\ Forall P evs /\ (length evs <= n)%nat.

(** The state after the events [evs], caches untouched. *)
Definition after (s : state) (evs : list event) : state :=
  {| mx_cache := mx_cache s; deliverability_cache := deliverability_cache s;
     history := history s ++ evs |}.

Definition is_mx_lookup (domain : string) (ev : event) : Prop :=
  ev = EDnsA domain \/ ev = EDnsMX domain.

Definition is_smtp_on (hosts : list string) (ev : event) : Prop :=
  exists host cmd, ev = ESmtp host cmd /\ host ∈ hosts.

Definition by_priority (a b : Z * string) : Prop := fst a <= fst b.

(** Stability: records of one priority keep their order. *)
Definition of_priority (p : Z) (l : list (Z * string)) : list (Z * string) :=
  filter (fun x => fst x = p) l.

Definition result_of (o : outcome) : smtp_result :=
  match o with Return r | Continue r => r end.

Definition dkim_name (selector domain : string) : string :=
  selector +:+ "._domainkey." +:+ domain.

Definition dkim_lookup (domain selector : string) : event := EDnsTXT (dkim_name selector domain).

(** What one TXT lookup for [prefix] under [name] reports. *)
Definition txt_report (env : Env) (prefix name : string) (h : list event)
    (flag : bool) (record : option string) : Prop :=
  (flag = true <-> is_Some record) /\
  (flag = true <->
     exists records txt, resolve_txt env h name = inr records /\ txt ∈ records /\
                         PyStr.startswith txt prefix = true) /\
  (forall txt, record = Some txt -> PyStr.startswith txt prefix = true).

Definition is_catch_all_event (hosts : list string) (ev : event) : Prop :=
  ev = ERandom \/ is_smtp_on hosts ev.

Definition confidence_table (check : float -> bool) : bool :=
  forall_bool (fun a => forall_bool (fun r => forall_bool (fun s =>
  forall_bool (fun c => forall_bool (fun v => forall_bool (fun x =>
  forall_bool (fun y => forall_bool (fun z => forall_bool (fun g =>
    check (confidence_of_flags a r s c v x y z g)))))))))).

(** The score is one of the hundredths 0.00, 0.01, ..., 1.00. *)
Definition hundredths : list float :=
  map (fun n => PyFloat.div_int (Z.of_nat n) 100) (seq 0 101).

Definition is_hundredth (c : float) : bool :=
  existsb (fun q => PrimFloat.eqb c q) hundredths.

(** The catch-all stage of [verify_email]. *)
Definition catch_all_stage (env : Env) (fast_mode : bool) (domain : string)
    (hosts : list string) : M catch_all :=
  if fast_mode then ret {| is_catchall := false; test_email := None; c_skipped := true |}
  else
    let* ca := detect_catch_all env domain hosts in
    ret (with_c_skipped_false ca).

(** The runs of [verify_email]: stopped at the format check, stopped at the
    MX check, or through all five stages. *)
Inductive verify_run (env : Env) (email : string) (fast_mode : bool) (confidence_mode : string)
    (internet_checks : bool) (s : state) : verification -> state -> Prop :=
| Malformed :
    PyStr.is_empty email || negb (PyStr.has_char "@" email) = true ->
    verify_run env email fast_mode confidence_mode internet_checks s
      {| email := email; status := "invalid"; confidence := 0.0;
         reason := "Invalid email format"; evidence := no_details |} s
| NoMx local_part domain mx s1 :
    PyStr.split1 "@" (PyStr.lower email) = Some (local_part, domain) ->
    cached_mx_check env domain s = (mx, s1) ->
    valid mx = false ->
    verify_run env email fast_mode confidence_mode internet_checks s
      {| email := email; status := "invalid"; confidence := 0.0;
         reason := "Domain has no valid MX records";
         evidence := {| mx_check_of := Some mx; smtp_check := None;
                        deliverability_of := None; catch_all_of := None;
                        internet_check := None |} |} s1
| Full local_part domain mx s1 smtp_result s2 d s3 ca s4 ic s5 status reason confidence :
    PyStr.split1 "@" (PyStr.lower email) = Some (local_part, domain) ->
    cached_mx_check env domain s = (mx, s1) ->
    valid mx = true ->
    smtp_handshake env email domain (mx_hosts mx) s1 = (smtp_result, s2) ->
    cached_deliverability env domain s2 = (d, s3) ->
    catch_all_stage env fast_mode domain (mx_hosts mx) s3 = (ca, s4) ->
    run_internet_check env email internet_checks s4 = (ic, s5) ->
    determine_status smtp_result ca mx (with_skipped_false d)
      (calculate_confidence smtp_result ca mx (with_skipped_false d)
         (normalize_mode confidence_mode)) = (status, reason, confidence) ->
    verify_run env email fast_mode confidence_mode internet_checks s
      {| email := email; status := status; confidence := confidence; reason := reason;
         evidence := {| mx_check_of := Some mx; smtp_check := Some smtp_result;
                        deliverability_of := Some (with_skipped_false d);
                        catch_all_of := Some ca; internet_check := ic |} |} s5.

(** Status and confidence of the verdict, from the flags alone (MX valid). *)
Definition verdict_of_flags (a r s c x y z g : bool) : string * float :=
  let '(status, _, confidence) :=
    determine_status (smtp_flags a r s) (catch_all_flag c) (mx_flag true)
      (deliverability_flags x y z) (confidence_of_flags a r s c true x y z g) in
  (status, confidence).

(** At most one of accepted, rejected and skipped. *)
Definition one_outcome (a r s : bool) : bool :=
  negb (a && r) && negb (a && s) && negb (r && s).

Definition verdict_table
    (check : bool -> bool -> bool -> bool -> bool -> bool -> string -> float -> bool) : bool :=
  forall_bool (fun a => forall_bool (fun r => forall_bool (fun s =>
  forall_bool (fun c => forall_bool (fun x => forall_bool (fun y =>
  forall_bool (fun z => forall_bool (fun g =>
    implb (one_outcome a r s)
          (check a r c x z g (fst (verdict_of_flags a r s c x y z g))
                             (snd (verdict_of_flags a r s c x y z g))))))))))).

Definition statuses : list string :=
  ["invalid"; "unknown"; "likely_valid"; "catch-all"; "valid"].

Definition status_is (status name : string) : bool := String.eqb status name.

Definition verdict_check (a r c x z g : bool) (status : string) (confidence : float) : bool :=
  bool_decide (status ∈ statuses) &&
  PrimFloat.leb 0 confidence && PrimFloat.leb confidence 1 &&
  Bool.eqb (status_is status "invalid") (PrimFloat.eqb confidence 0) &&
  implb (status_is status "invalid") (r && negb a) &&
  implb (status_is status "valid") (a && negb c && PrimFloat.leb 0.85 confidence) &&
  implb (status_is status "catch-all") (a && c && PrimFloat.leb 0.7 confidence) &&
  implb (status_is status "likely_valid")
        (negb a && negb r && (x || z) && PrimFloat.leb confidence 0.75) &&
  implb (status_is status "unknown") (negb a && negb r && negb (x || z)).

(** The events a computation adds to the history all satisfy [P]. *)
Definition emits (P : event -> Prop) (s s' : state) : Prop :=
  exists evs, history s' = history s ++ evs /\ Forall P evs.

(** The events of a run of [verify_email] on an address of [domain] whose MX
    check named [hosts] as the first two hosts. *)
Definition verify_event (env : Env) (address domain : string) (hosts : list string)
    (fast_mode internet_checks : bool) (ev : event) : Prop :=
  match ev with
  | EClock => True
  | ECacheGet _ key | ECachePop _ key | ECacheSet _ key => key = domain
  | EDnsA name | EDnsMX name => name = domain
  | EDnsTXT name => PyStr.endswith name domain = true
  | ESmtp host _ => host ∈ hosts
  | ERandom => fast_mode = false
  | EInternet a => a = address /\ internet_checks || enable_internet_checks env = true
  end.

Definition is_dns (ev : event) : Prop :=
  match ev with
  | EDnsA _ | EDnsMX _ | EDnsTXT _ => True
  | _ => False
  end.

(** The caches agree outside [key]. *)
Definition same_elsewhere (key : string) (s s' : state) : Prop :=
  forall k, k <> key ->
    mx_cache s' !! k = mx_cache s !! k /\
    deliverability_cache s' !! k = deliverability_cache s !! k.

Definition mx_stage_event (domain : string) (ev : event) : Prop :=
  ev = EClock \/ (exists kind, ev = kind MxCache domain /\
                    kind ∈ [ECacheGet; ECachePop; ECacheSet]) \/ is_mx_lookup domain ev.

Definition deliverability_stage_event (domain : string) (ev : event) : Prop :=
  ev = EClock \/ (exists kind, ev = kind DeliverabilityCache domain /\
                    kind ∈ [ECacheGet; ECachePop; ECacheSet]) \/
  exists name, ev = EDnsTXT name /\ PyStr.endswith name domain = true.

Definition is_txt_lookup_of (domain : string) (ev : event) : Prop :=
  exists name, ev = EDnsTXT name /\ PyStr.endswith name domain = true.

(** The state of the generator before the custom templates. *)
Definition built_in (format_ext : string -> gmap string string -> format_result)
    (first last domain_lower : string) (include_defaults : bool) : exn + acc :=
  let st : acc := ([], ∅) in
  let tokens := make_tokens first last domain_lower in
  let f := PyStr.head first in
  let l := PyStr.head last in
  match (if include_defaults
         then add_templates format_ext false domain_lower tokens DEFAULT_PATTERN_TEMPLATES st
         else inr st) with
  | inl e => inl e
  | inr st =>
      let st := add_all domain_lower (suffix_sweep first last) st in
      let st := add_all domain_lower (separator_sweep first last f l) st in
      let st := add_all domain_lower (extras first last f l) st in
      inr (if (1 <? PyStr.len first) && (1 <? PyStr.len last)
           then add_all domain_lower (long_name_extras first last f) st else st)
  end.

(** No result is followed by a more confident one. *)
Definition not_below (a b : found) : Prop :=
  PrimFloat.ltb (found_confidence a) (found_confidence b) = false.

(** The custom templates the embedding expands itself: text, doubled braces
    and fields [{name}]. *)
Definition in_fragment (custom : option (list string)) : Prop :=
  forall ts t, custom = Some ts -> t ∈ ts ->
    is_Some (Template.parse (PyStr.strip t) None).

(** * Properties *)

(** ** Confidence fusion *)

Lemma forall_bool_spec (f : bool -> bool) : forall_bool f = true -> forall b, f b = true.
Proof.
  unfold forall_bool. intros H b. apply andb_prop in H. destruct H, b; assumption.
Qed.

Lemma calculate_confidence_flags smtp ca mx d mode :
  calculate_confidence smtp ca mx d mode =
  confidence_of_flags (accepted smtp) (rejected smtp) (skipped smtp) (is_catchall ca)
    (valid mx) (spf d) (dkim d) (dmarc d) (String.eqb mode "aggressive").
Proof.
  unfold confidence_of_flags, calculate_confidence.
  destruct smtp, ca, mx, d; cbn [accepted rejected skipped is_catchall valid spf dkim dmarc
    smtp_flags catch_all_flag mx_flag deliverability_flags security_count].
  destruct (String.eqb mode "aggressive"); reflexivity.
Qed.

Lemma security_count_flags d : security_count d = count_flags (spf d) (dkim d) (dmarc d).
Proof. reflexivity. Qed.

Ltac pick_flag T b :=
  let T' := fresh "T" in
  pose proof (forall_bool_spec _ T b) as T'; cbv beta in T'; clear T; rename T' into T.

Lemma monotone_table_spec related :
  monotone_table related = true ->
  forall smtp ca mx mode d1 d2,
    related (String.eqb mode "aggressive") (spf d1) (dkim d1) (dmarc d1)
            (spf d2) (dkim d2) (dmarc d2) = true ->
    PrimFloat.leb (calculate_confidence smtp ca mx d1 mode)
                  (calculate_confidence smtp ca mx d2 mode) = true.
Proof.
  intros T smtp ca mx mode d1 d2 R.
  rewrite !calculate_confidence_flags.
  unfold monotone_table in T.
  pick_flag T (accepted smtp). pick_flag T (rejected smtp). pick_flag T (skipped smtp).
  pick_flag T (is_catchall ca). pick_flag T (valid mx).
  pick_flag T (String.eqb mode "aggressive").
  pick_flag T (spf d1). pick_flag T (dkim d1). pick_flag T (dmarc d1).
  pick_flag T (spf d2). pick_flag T (dkim d2). pick_flag T (dmarc d2).
  rewrite R in T. exact T.
Qed.

Lemma table_included :
  monotone_table (fun _ x1 y1 z1 x2 y2 z2 => signals_included x1 y1 z1 x2 y2 z2) = true.
Proof. vm_compute. reflexivity. Qed.

Lemma table_more_signals :
  monotone_table (fun _ x1 y1 z1 x2 y2 z2 => count_flags x1 y1 z1 <? count_flags x2 y2 z2) = true.
Proof. vm_compute. reflexivity. Qed.

Lemma table_balanced :
  monotone_table (fun g x1 y1 z1 x2 y2 z2 =>
                    negb g && (count_flags x1 y1 z1 <=? count_flags x2 y2 z2)) = true.
Proof. vm_compute. reflexivity. Qed.

(** C7 (as stated, refuted): in aggressive mode, with an inconclusive probe
    on a domain with valid MX, a record with SPF alone and a record with DKIM
    alone have the same number of signals, yet the first scores 0.75 and the
    second 0.40: the confidence is not a non-decreasing function of the number
    of signals. *)
Lemma confidence_not_monotone_in_count :
  security_count (deliverability_flags true false false)
    <= security_count (deliverability_flags false true false) /\
  calculate_confidence (smtp_flags false false false) (catch_all_flag false) (mx_flag true)
    (deliverability_flags true false false) "aggressive" = 0.75%float /\
  calculate_confidence (smtp_flags false false false) (catch_all_flag false) (mx_flag true)
    (deliverability_flags false true false) "aggressive" = 0.4%float /\
  PrimFloat.leb
    (calculate_confidence (smtp_flags false false false) (catch_all_flag false) (mx_flag true)
       (deliverability_flags true false false) "aggressive")
    (calculate_confidence (smtp_flags false false false) (catch_all_flag false) (mx_flag true)
       (deliverability_flags false true false) "aggressive") = false.
Proof. repeat split; vm_compute; congruence. Qed.

(** C7 (amended): with the probe outcome, the catch-all result, the MX check
    and the mode fixed, the confidence does not decrease when signals are
    added to a record, nor when the number of signals strictly grows, nor, in
    a mode other than aggressive, when the number of signals does not
    decrease. *)
Theorem confidence_monotone_in_signals smtp ca mx mode d1 d2 :
  ((spf d1 = true -> spf d2 = true) /\ (dkim d1 = true -> dkim d2 = true) /\
   (dmarc d1 = true -> dmarc d2 = true))
  \/ security_count d1 < security_count d2
  \/ (mode <> "aggressive"%string /\ security_count d1 <= security_count d2) ->
  PrimFloat.leb (calculate_confidence smtp ca mx d1 mode)
                (calculate_confidence smtp ca mx d2 mode) = true.
Proof.
  intros [(Hx & Hy & Hz) | [Hlt | [Hmode Hle]]].
  - apply (monotone_table_spec _ table_included).
    unfold signals_included.
    destruct (spf d1), (spf d2), (dkim d1), (dkim d2), (dmarc d1), (dmarc d2);
      try reflexivity; exfalso;
      (discriminate (Hx eq_refl) || discriminate (Hy eq_refl) || discriminate (Hz eq_refl)).
  - apply (monotone_table_spec _ table_more_signals).
    rewrite <- !security_count_flags. apply Z.ltb_lt. exact Hlt.
  - apply (monotone_table_spec _ table_balanced).
    rewrite <- !security_count_flags.
    apply andb_true_intro. split.
    + apply negb_true_iff. apply String.eqb_neq. exact Hmode.
    + apply Z.leb_le. exact Hle.
Qed.

Lemma confidence_monotone_in_signals_witness :
  PrimFloat.leb
    (calculate_confidence (smtp_flags false false true) (catch_all_flag false) (mx_flag true)
       (deliverability_flags false true false) "aggressive")
    (calculate_confidence (smtp_flags false false true) (catch_all_flag false) (mx_flag true)
       (deliverability_flags true true false) "aggressive") = true.
Proof.
  apply confidence_monotone_in_signals.
  right. left. vm_compute. reflexivity.
Defined.

(** C10: in aggressive mode, for an accepted probe on a domain with valid MX
    that is not catch-all, the score is the base sum plus 0.1, capped at 0.95
    (and rounded); with the three signals present it is 0.95, below the 1.0 of
    balanced mode on the same inputs. *)
Theorem aggressive_accepted_is_capped smtp ca mx d :
  accepted smtp = true -> valid mx = true -> is_catchall ca = false ->
  calculate_confidence smtp ca mx d "aggressive" =
    PyFloat.round2
      (PyFloat.min
         (0.0 + 0.60 + 0.10 + 0.15 + PyFloat.div_int (security_count d) 3 * 0.15 + 0.1) 0.95)
  /\ (spf d = true -> dkim d = true -> dmarc d = true ->
      calculate_confidence smtp ca mx d "aggressive" = 0.95%float /\
      calculate_confidence smtp ca mx d "balanced" = 1.0%float /\
      PrimFloat.ltb (calculate_confidence smtp ca mx d "aggressive")
                    (calculate_confidence smtp ca mx d "balanced") = true).
Proof.
  intros Ha Hv Hc. rewrite !calculate_confidence_flags, security_count_flags, Ha, Hv, Hc.
  split.
  - destruct (rejected smtp), (skipped smtp), (spf d), (dkim d), (dmarc d);
      vm_compute; reflexivity.
  - intros -> -> ->.
    destruct (rejected smtp), (skipped smtp); vm_compute; repeat split; reflexivity.
Qed.

Lemma aggressive_accepted_is_capped_witness :
  calculate_confidence (smtp_flags true false false) (catch_all_flag false) (mx_flag true)
    (deliverability_flags true true true) "aggressive" = 0.95%float /\
  calculate_confidence (smtp_flags true false false) (catch_all_flag false) (mx_flag true)
    (deliverability_flags true true true) "balanced" = 1.0%float.
Proof.
  destruct (aggressive_accepted_is_capped (smtp_flags true false false) (catch_all_flag false)
              (mx_flag true) (deliverability_flags true true true)
              eq_refl eq_refl eq_refl) as [_ H].
  destruct (H eq_refl eq_refl eq_refl) as (H1 & H2 & _).
  split; assumption.
Defined.

Lemma rejected_confidence_zero smtp ca mx d mode :
  rejected smtp = true -> accepted smtp = false ->
  calculate_confidence smtp ca mx d mode = 0.0%float.
Proof.
  intros Hr Ha. unfold calculate_confidence. rewrite Ha, Hr. reflexivity.
Qed.

(** ** The SMTP probe and the orchestrator *)

Lemma interpret_ok code text host result :
  inconclusive result -> outcome_ok (interpret code text host result).
Proof.
  intros (Ha & Hr & Hs). unfold interpret.
  repeat case_bool_decide; [| | | destruct (code =? 421); [| destruct ((500 <=? code) && (code <? 600))]];
    simpl; unfold decided, inconclusive; simpl; rewrite ?Ha, ?Hr, ?Hs; auto.
Qed.

Lemma session_cases env email host result s r s' :
  session env email host result s = (r, s') ->
  match r with
  | inl _ => True
  | inr o => o = Continue result \/ exists code text, o = interpret code text host result
  end.
Proof.
  unfold session, xbind, call, bind, perform, ret, xret. 
  repeat match goal with
         | |- context [smtp env ?h ?a ?c] => destruct (smtp env h a c) eqn:?; simpl
         | |- context [if ?b then _ else _] => destruct b eqn:?; simpl
         end;
  intros [= <- <-]; eauto.
Qed.

Lemma inner_except_ok e result : inconclusive result -> inconclusive (inner_except e result).
Proof. unfold inner_except, inconclusive. destruct (kind e); simpl; auto. Qed.

Lemma outer_except_ok e result : inconclusive result -> inconclusive (outer_except e result).
Proof. unfold outer_except, inconclusive. destruct (kind e); simpl; auto. Qed.

Lemma try_host_ok env email host result s o s' :
  inconclusive result ->
  try_host env email host result s = (o, s') -> outcome_ok o.
Proof.
  intros Hinc. unfold try_host, bind.
  destruct (call env host Create s) as [[e|c] s1].
  - unfold ret. intros [= <- <-]. simpl. apply outer_except_ok, Hinc.
  - destruct (session env email host result s1) as [[e|o'] s2] eqn:Hs.
    + unfold ret. intros [= <- <-]. simpl. apply inner_except_ok, Hinc.
    + unfold ret. intros [= <- <-].
      apply session_cases in Hs. destruct Hs as [-> | (code & text & ->)].
      * exact Hinc.
      * apply interpret_ok, Hinc.
Qed.

Lemma exhausted_reason result : has_reason (exhausted result).
Proof.
  unfold exhausted, has_reason.
  destruct (error result) as [[|c e]|] eqn:E; simpl; eauto.
Qed.

Lemma exhausted_flags result :
  accepted (exhausted result) = accepted result /\
  rejected (exhausted result) = rejected result /\
  skipped (exhausted result) = skipped result.
Proof. unfold exhausted. destruct (error result) as [[|]|]; simpl; auto. Qed.

Lemma host_loop_ok env email hosts : forall result s r s',
  inconclusive result ->
  host_loop env email hosts result s = (r, s') ->
  decided r \/ (inconclusive r /\ has_reason r).
Proof.
  induction hosts as [|h hosts IH]; intros result s r s' Hinc; simpl.
  - unfold ret. intros [= <- <-]. right. split.
    + destruct (exhausted_flags result) as (Ea & Er & Es). unfold inconclusive.
      rewrite Ea, Er, Es. exact Hinc.
    + apply exhausted_reason.
  - unfold bind. destruct (try_host env email h result s) as [o s1] eqn:Ht.
    apply try_host_ok in Ht; [|exact Hinc].
    destruct o as [r1|r1]; simpl in Ht.
    + unfold ret. intros [= <- <-]. left. exact Ht.
    + intros Hl. eapply IH; eauto.
Qed.

Lemma smtp_handshake_outcome env email domain hosts s r s' :
  smtp_handshake env email domain hosts s = (r, s') ->
  policy_skipped r \/ decided r \/ (inconclusive r /\ has_reason r).
Proof.
  unfold smtp_handshake.
  destruct (is_blocked _).
  { unfold ret. intros [= <- <-]. left. repeat split; simpl; eauto.
    eexists. split; [reflexivity | discriminate]. }
  destruct (is_transactional _).
  { unfold ret. intros [= <- <-]. left. repeat split; simpl; eauto.
    eexists. split; [reflexivity | discriminate]. }
  intros H. right. eapply host_loop_ok; eauto. repeat split.
Qed.

Lemma lower_char_at c : Ascii.eqb (PyStr.lower_char c) "@" = Ascii.eqb c "@".
Proof. destruct c as [[] [] [] [] [] [] [] []]; vm_compute; reflexivity. Qed.

Lemma has_char_lower s : PyStr.has_char "@" (PyStr.lower s) = PyStr.has_char "@" s.
Proof. induction s as [|c s IH]; simpl; [reflexivity|]. rewrite lower_char_at, IH. reflexivity. Qed.

Lemma split1_has_char c s :
  PyStr.has_char c s = true -> exists l r, PyStr.split1 c s = Some (l, r).
Proof.
  induction s as [|a s IH]; simpl; [discriminate|].
  destruct (Ascii.eqb a c); simpl; eauto.
  intros H. destruct (IH H) as (l & r & ->). eauto.
Qed.

Lemma verify_email_with_inv env overrides email fast_mode mode ic s r s' :
  verify_email_with env overrides email fast_mode mode ic s = (r, s') ->
  exists v, r = inr v /\
    ((smtp_check (evidence v) = None /\ status v = "invalid"%string /\
      confidence v = 0.0%float)
     \/ pipeline env overrides email mode v).
Proof.
  unfold verify_email_with.
  destruct (PyStr.is_empty email || negb (PyStr.has_char "@" email)) eqn:Hfmt.
  { unfold xret, ret. intros [= <- <-]. eexists. split; [reflexivity|]. left. simpl. auto. }
  apply orb_false_elim in Hfmt. destruct Hfmt as [_ Hat].
  apply negb_false_iff in Hat. rewrite <- has_char_lower in Hat.
  destruct (split1_has_char _ _ Hat) as (l & domain & Hsplit). rewrite Hsplit.
  unfold bind at 1.
  destruct (cached_mx_check env domain s) as [mx s1].
  destruct (valid mx) eqn:Hvalid; simpl.
  2:{ unfold xret, ret. intros [= <- <-]. eexists. split; [reflexivity|]. left. simpl. auto. }
  unfold bind at 1.
  destruct (smtp_handshake env email domain (mx_hosts mx) s1) as [smtp_r s2] eqn:Hprobe.
  unfold bind at 1.
  destruct (cached_deliverability env domain s2) as [d s3].
  unfold bind at 1.
  match goal with |- context [(if fast_mode then ?a else ?b) s3] =>
    destruct ((if fast_mode then a else b) s3) as [ca s4] end.
  unfold bind at 1.
  destruct (run_internet_check env email ic s4) as [ic' s5].
  destruct (apply_override _ _) as [[st rs] cf] eqn:Hverdict.
  unfold xret, ret. intros [= <- <-]. eexists. split; [reflexivity|]. right.
  econstructor; simpl; eauto.
Qed.

Lemma verify_email_inv env email fast_mode mode ic s v s' r :
  verify_email env email fast_mode mode ic s = (inr v, s') ->
  smtp_check (evidence v) = Some r ->
  exists mx d ca,
    valid mx = true /\
    (policy_skipped r \/ decided r \/ (inconclusive r /\ has_reason r)) /\
    mx_check_of (evidence v) = Some mx /\
    deliverability_of (evidence v) = Some d /\
    catch_all_of (evidence v) = Some ca /\
    (status v, reason v, confidence v) =
      determine_status r ca mx d (calculate_confidence r ca mx d (normalize_mode mode)).
Proof.
  intros Hrun Hr. apply verify_email_with_inv in Hrun.
  destruct Hrun as (v' & [= <-] & [(Hnone & _) | Hp]); [congruence|].
  destruct Hp as [domain mx smtp_r d ca Hvalid _ (s1 & s2 & Hprobe) Hmx Hsmtp Hd Hca Hverdict].
  assert (smtp_r = r) as -> by congruence.
  exists mx, d, ca. repeat split; auto.
  eapply smtp_handshake_outcome; eauto.
Qed.

Ltac tail_eq H :=
  let E := fresh "E" in
  apply app_inj_tail in H; destruct H as [H E]; try discriminate E.

Ltac same_call :=
  match goal with
  | H : smtp ?e ?h ?a ?c = _, H' : smtp ?e ?h ?a ?c = _ |- _ =>
      rewrite H in H';
      first [discriminate H' | injection H' as <- <- | injection H' as <- | clear H']
  end.

Lemma try_host_reads_rcpt env email host result s o s1 h code text :
  try_host env email host result s = (o, s1) ->
  history s1 = h ++ [ESmtp host (Rcpt email); ESmtp host Quit] ->
  smtp env h host (Rcpt email) = Reply code text ->
  match smtp env (h ++ [ESmtp host (Rcpt email)]) host Quit with
  | Reply _ _ => o = interpret code text host result
  | Raise e => o = Continue (inner_except e result)
  end.
Proof.
  intros Hrun Hh Hrcpt. revert Hrun.
  unfold try_host, session, xbind, call, bind, perform, ret, xret.
  repeat match goal with
         | |- context [smtp env ?h ?a ?c] => destruct (smtp env h a c) eqn:?; simpl
         | |- context [if ?b then _ else _] => destruct b eqn:?; simpl
         end;
  intros [= <- <-]; simpl in Hh;
  change (h ++ [ESmtp host (Rcpt email); ESmtp host Quit])
    with (h ++ [ESmtp host (Rcpt email)] ++ [ESmtp host Quit]) in Hh;
  rewrite app_assoc in Hh; tail_eq Hh; tail_eq Hh; subst h;
  repeat same_call; reflexivity.
Qed.

Lemma smtp_events_on_refl hosts h : smtp_events_on hosts h h.
Proof. exists []. split; [symmetry; apply app_nil_r | constructor]. Qed.

Lemma smtp_events_on_trans hosts h1 h2 h3 :
  smtp_events_on hosts h1 h2 -> smtp_events_on hosts h2 h3 -> smtp_events_on hosts h1 h3.
Proof.
  intros (e1 & -> & F1) (e2 & -> & F2). exists (e1 ++ e2). split.
  - symmetry. apply app_assoc.
  - apply Forall_app. split; assumption.
Qed.

Lemma smtp_events_on_mono hosts hosts' h1 h2 :
  (forall x, x ∈ hosts -> x ∈ hosts') ->
  smtp_events_on hosts h1 h2 -> smtp_events_on hosts' h1 h2.
Proof.
  intros Hsub (evs & -> & F). exists evs. split; [reflexivity|].
  eapply Forall_impl; [exact F|]. intros ev (host & cmd & -> & Hin). eauto.
Qed.

Lemma try_host_events env email host result s o s1 :
  try_host env email host result s = (o, s1) ->
  smtp_events_on [host] (history s) (history s1).
Proof.
  unfold try_host, session, xbind, call, bind, perform, ret, xret.
  repeat match goal with
         | |- context [smtp env ?h ?a ?c] => destruct (smtp env h a c) eqn:?; simpl
         | |- context [if ?b then _ else _] => destruct b eqn:?; simpl
         end;
  intros [= <- <-]; simpl; rewrite <- ?app_assoc; simpl;
  (eexists; split; [reflexivity|]);
  repeat constructor; eexists _, _; (split; [reflexivity | apply list_elem_of_here]).
Qed.

Lemma host_loop_events env email hosts : forall result s r s1,
  host_loop env email hosts result s = (r, s1) ->
  smtp_events_on hosts (history s) (history s1).
Proof.
  induction hosts as [|h hosts IH]; intros result s r s1; simpl.
  - unfold ret. intros [= <- <-]. apply smtp_events_on_refl.
  - unfold bind. destruct (try_host env email h result s) as [o s'] eqn:Ht.
    apply try_host_events in Ht.
    assert (smtp_events_on (h :: hosts) (history s) (history s')) as Hfirst.
    { eapply smtp_events_on_mono; [|exact Ht]. intros x Hx.
      apply list_elem_of_singleton in Hx. subst. apply list_elem_of_here. }
    destruct o as [r'|r'].
    + unfold ret. intros [= <- <-]. exact Hfirst.
    + intros Hl. apply IH in Hl.
      eapply smtp_events_on_trans; [exact Hfirst|].
      eapply smtp_events_on_mono; [|exact Hl]. intros x Hx. apply list_elem_of_further, Hx.
Qed.

Lemma smtp_handshake_events env email domain mx_hosts s r s1 :
  smtp_handshake env email domain mx_hosts s = (r, s1) ->
  smtp_events_on (take 2 mx_hosts) (history s) (history s1).
Proof.
  unfold smtp_handshake.
  destruct (is_blocked _); [unfold ret; intros [= <- <-]; apply smtp_events_on_refl|].
  destruct (is_transactional _); [unfold ret; intros [= <- <-]; apply smtp_events_on_refl|].
  apply host_loop_events.
Qed.

Lemma interpret_classified code text host result :
  match classify_code code with
  | Accepted =>
      exists r, interpret code text host result = Return r /\ accepted r = true
  | MailboxMissing =>
      exists r, interpret code text host result = Return r /\ rejected r = true /\
                error r = Some "Mailbox does not exist"%string
  | Greylisted =>
      exists r, interpret code text host result = Continue r /\
                error r = Some "Temporarily unavailable (greylisted)"%string /\
                accepted r = accepted result /\ rejected r = rejected result
  | ServiceUnavailable =>
      exists r, interpret code text host result = Continue r /\
                error r = Some "Service unavailable"%string /\
                accepted r = accepted result /\ rejected r = rejected result
  | PermanentFailure =>
      exists r, interpret code text host result = Return r /\ rejected r = true
  | Unexpected =>
      exists r, interpret code text host result = Continue r /\
                error r = Some ("Unexpected response: " +:+ PyStr.of_Z code +:+ " " +:+ text) /\
                accepted r = accepted result /\ rejected r = rejected result
  end.
Proof.
  unfold classify_code, interpret.
  assert (forall a b, bool_decide (code ∈ [a; b]) = (code =? a) || (code =? b)) as Hmem.
  { intros a b. destruct (Z.eqb_spec code a) as [->|Ha]; simpl.
    - apply bool_decide_eq_true. apply list_elem_of_here.
    - destruct (Z.eqb_spec code b) as [->|Hb].
      + apply bool_decide_eq_true. apply list_elem_of_further, list_elem_of_here.
      + apply bool_decide_eq_false. intros Hin.
        apply elem_of_cons in Hin as [?|Hin]; [contradiction|].
        apply list_elem_of_singleton in Hin. contradiction. }
  rewrite !Hmem.
  destruct ((code =? 250) || (code =? 251)); [eexists; simpl; eauto|].
  destruct ((code =? 550) || (code =? 553)); [eexists; simpl; eauto|].
  destruct ((code =? 450) || (code =? 451)); [eexists; simpl; eauto|].
  destruct (code =? 421); [eexists; simpl; eauto|].
  destruct ((500 <=? code) && (code <? 600)); eexists; simpl; eauto.
Qed.

(** C9: for an address that is empty or has no '@', [verify_email] returns
    status "invalid", confidence 0.0 and empty details; it does not raise, and
    it leaves the verifier as it was: the caches are untouched and the history
    gains no event, so no DNS, SMTP or cache operation took place. *)
Theorem malformed_address_is_invalid env email fast_mode confidence_mode internet_checks s :
  email = EmptyString \/ PyStr.has_char "@" email = false ->
  verify_email env email fast_mode confidence_mode internet_checks s =
    (inr {| email := email; status := "invalid"; confidence := 0.0;
            reason := "Invalid email format"; evidence := no_details |}, s).
Proof.
  intros H. unfold verify_email, verify_email_with.
  assert (PyStr.is_empty email || negb (PyStr.has_char "@" email) = true) as ->.
  { destruct H as [-> | ->]; [reflexivity | apply orb_true_r]. }
  reflexivity.
Qed.

Lemma malformed_address_is_invalid_witness :
  verify_email (scripted_env 250 bye true) "bob.example.org" true "balanced" true idle =
    (inr {| email := "bob.example.org"; status := "invalid"; confidence := 0.0;
            reason := "Invalid email format"; evidence := no_details |}, idle).
Proof.
  apply malformed_address_is_invalid. right. reflexivity.
Defined.

(** C1: a rejected probe (not accepted) scores 0.0 whatever the catch-all
    result, the MX check, the deliverability record and the mode are, the
    aggressive floors included; and a run of [verify_email] whose probe was
    rejected ends with status "invalid" and confidence 0.0. *)
Theorem rejected_probe_is_invalid :
  (forall smtp ca mx d mode,
      rejected smtp = true -> accepted smtp = false ->
      calculate_confidence smtp ca mx d mode = 0.0%float) /\
  (forall smtp ca mx d c,
      rejected smtp = true -> accepted smtp = false -> skipped smtp = false ->
      fst (fst (determine_status smtp ca mx d c)) = "invalid"%string) /\
  (forall env email fast_mode mode ic s v s' r,
      verify_email env email fast_mode mode ic s = (inr v, s') ->
      smtp_check (evidence v) = Some r ->
      rejected r = true ->
      accepted r = false /\ status v = "invalid"%string /\ confidence v = 0.0%float).
Proof.
  split; [exact rejected_confidence_zero|]. split.
  { intros smtp ca mx d c Hr Ha Hs. unfold determine_status. rewrite Hs, Ha, Hr. reflexivity. }
  intros env email fast_mode mode ic s v s' r Hrun Hr Hrej.
  destruct (verify_email_inv _ _ _ _ _ _ _ _ _ Hrun Hr)
    as (mx & d & ca & Hvalid & Hout & _ & _ & _ & Hverdict).
  assert (accepted r = false /\ skipped r = false) as [Ha Hs].
  { destruct Hout as [(Hs & _ & Hr' & _) | [(Hs & [[_ Hr'] | [Ha _]]) | ((_ & Hr' & _) & _)]];
      try congruence. auto. }
  split; [exact Ha|].
  unfold determine_status in Hverdict. rewrite Hs, Ha, Hrej in Hverdict.
  rewrite (rejected_confidence_zero _ _ _ _ _ Hrej Ha) in Hverdict.
  injection Hverdict as -> _ ->. auto.
Qed.

Lemma rejected_probe_is_invalid_witness :
  calculate_confidence (smtp_flags false true false) (catch_all_flag false) (mx_flag true)
    (deliverability_flags true true true) "aggressive" = 0.0%float /\
  fst (fst (determine_status (smtp_flags false true false) (catch_all_flag false)
              (mx_flag true) (deliverability_flags true true true) 0.0)) = "invalid"%string /\
  (exists v s',
      verify_email (scripted_env 550 bye true) "bob@example.org" true "aggressive" false idle
        = (inr v, s') /\
      status v = "invalid"%string /\ confidence v = 0.0%float).
Proof.
  split; [|split].
  - apply (proj1 rejected_probe_is_invalid); reflexivity.
  - apply (proj1 (proj2 rejected_probe_is_invalid)); reflexivity.
  - eexists _, _. split; [vm_compute; reflexivity|].
    eapply (proj2 (proj2 rejected_probe_is_invalid) (scripted_env 550 bye true)
              "bob@example.org" true "aggressive" false idle).
    + vm_compute. reflexivity.
    + reflexivity.
    + reflexivity.
Defined.

(** C8: when the probe of a run of [verify_email] was skipped, the MX check
    is valid and SPF or DMARC is present, the status is "likely_valid" and the
    confidence is [min(0.75, c + 0.15)] for the fused confidence [c]; when
    neither SPF nor DMARC is present the status is "unknown". *)
Theorem skipped_probe_status env email fast_mode mode ic s v s' r mx d ca :
  verify_email env email fast_mode mode ic s = (inr v, s') ->
  smtp_check (evidence v) = Some r ->
  mx_check_of (evidence v) = Some mx ->
  deliverability_of (evidence v) = Some d ->
  catch_all_of (evidence v) = Some ca ->
  skipped r = true ->
  (valid mx = true -> spf d || dmarc d = true ->
   status v = "likely_valid"%string /\
   confidence v =
     PyFloat.min 0.75 (calculate_confidence r ca mx d (normalize_mode mode) + 0.15)) /\
  (spf d = false -> dmarc d = false -> status v = "unknown"%string).
Proof.
  intros Hrun Hr Hmx Hd Hca Hs.
  destruct (verify_email_inv _ _ _ _ _ _ _ _ _ Hrun Hr)
    as (mx' & d' & ca' & Hvalid & _ & Hmx' & Hd' & Hca' & Hverdict).
  assert (mx' = mx) as -> by congruence.
  assert (d' = d) as -> by congruence.
  assert (ca' = ca) as -> by congruence.
  unfold determine_status in Hverdict. rewrite Hs, Hvalid in Hverdict. simpl in Hverdict.
  split.
  - intros _ Hsec. rewrite Hsec in Hverdict. injection Hverdict as -> _ ->. auto.
  - intros Hspf Hdmarc. rewrite Hspf, Hdmarc in Hverdict. simpl in Hverdict.
    injection Hverdict as -> _ _. reflexivity.
Qed.

Lemma skipped_probe_status_witness :
  exists v s',
    verify_email (scripted_env 250 bye true) "bob@gmail.com" true "balanced" false idle
      = (inr v, s') /\
    status v = "likely_valid"%string /\
    confidence v = PyFloat.min 0.75 (0.3 + 0.15).
Proof.
  eexists _, _. split; [vm_compute; reflexivity|].
  edestruct (skipped_probe_status (scripted_env 250 bye true) "bob@gmail.com" true "balanced"
               false idle) as [H _];
    [vm_compute; reflexivity | reflexivity | reflexivity | reflexivity | reflexivity
    | reflexivity | ].
  exact (H eq_refl eq_refl).
Defined.



(** ** The prioritizer and the best-match selector *)

Lemma elem_of_first_occurrences l x : x ∈ first_occurrences l <-> x ∈ l.
Proof.
  induction l as [|y l IH]; simpl; [reflexivity|].
  rewrite !elem_of_cons, list_elem_of_filter, IH.
  destruct (decide (x = y)); intuition.
Qed.

Lemma NoDup_first_occurrences l : NoDup (first_occurrences l).
Proof.
  induction l as [|y l IH]; simpl; [constructor|].
  constructor.
  - rewrite list_elem_of_filter. intros [H _]. apply H. reflexivity.
  - apply NoDup_filter, IH.
Qed.

Lemma filter_agree (P Q : string -> Prop) `{!forall x, Decision (P x)} `{!forall x, Decision (Q x)}
    (l : list string) :
  (forall x, x ∈ l -> (P x <-> Q x)) -> filter P l = filter Q l.
Proof.
  induction l as [|y l IH]; intros Hagree; [reflexivity|].
  rewrite !filter_cons.
  assert (P y <-> Q y) as Hy by (apply Hagree, list_elem_of_here).
  rewrite IH by (intros x Hx; apply Hagree, list_elem_of_further, Hx).
  destruct (decide (P y)), (decide (Q y)); tauto || reflexivity.
Qed.

Lemma promote_spec patterns priority : forall ordered seen,
  (forall x, x ∈ seen <-> x ∈ ordered) ->
  exists seen',
    promote priority patterns (ordered, seen) =
      (ordered ++ filter (fun p => p ∉ ordered)
                    (first_occurrences (filter (fun p => p ∈ patterns) priority)), seen') /\
    (forall x, x ∈ seen' <-> x ∈ ordered \/ (x ∈ priority /\ x ∈ patterns)).
Proof.
  induction priority as [|p rest IH]; intros ordered seen Hseen; simpl.
  - exists seen. rewrite app_nil_r. split; [reflexivity|].
    intros x. rewrite Hseen, elem_of_nil. tauto.
  - rewrite filter_cons.
    destruct (decide (p ∈ patterns)) as [Hin|Hout].
    + rewrite (bool_decide_eq_true_2 _ Hin). simpl.
      destruct (decide (p ∈ seen)) as [Hs|Hs].
      * rewrite (bool_decide_eq_true_2 _ Hs). simpl.
        destruct (IH ordered seen Hseen) as (seen' & -> & Hseen').
        exists seen'. split.
        -- f_equal. f_equal. rewrite filter_cons.
           destruct (decide (p ∉ ordered)) as [Hno|_].
           { exfalso. apply Hno, Hseen, Hs. }
           rewrite list_filter_filter. apply filter_agree.
           intros x _. cbv beta. split; [|tauto]. intros Hx. split; [exact Hx|].
           intros ->. apply Hx, Hseen, Hs.
        -- intros x. rewrite Hseen', elem_of_cons. split; [tauto|].
           intros [? | [[-> | ?] ?]]; auto. left. apply Hseen, Hs.
      * rewrite (bool_decide_eq_false_2 _ Hs). simpl.
        destruct (IH (ordered ++ [p]) ({[p]} ∪ seen)) as (seen' & -> & Hseen').
        { intros x. rewrite elem_of_union, elem_of_singleton, elem_of_app,
            list_elem_of_singleton, Hseen. tauto. }
        exists seen'. split.
        -- f_equal. rewrite <- app_assoc. f_equal. simpl. rewrite filter_cons.
           destruct (decide (p ∉ ordered)) as [_|Hno].
           2:{ exfalso. apply Hno. intros Ho. apply Hs, Hseen, Ho. }
           f_equal. rewrite list_filter_filter. apply filter_agree.
           intros x _. cbv beta. rewrite elem_of_app, list_elem_of_singleton. tauto.
        -- intros x. rewrite Hseen', elem_of_app, list_elem_of_singleton, elem_of_cons.
           split; [|tauto]. intros [[? | ->] | [? ?]]; auto.
    + rewrite (bool_decide_eq_false_2 _ Hout). simpl.
      destruct (IH ordered seen Hseen) as (seen' & -> & Hseen').
      exists seen'. split; [reflexivity|].
      intros x. rewrite Hseen', elem_of_cons. split; [tauto|].
      intros [? | [[-> | ?] ?]]; auto. contradiction.
Qed.

Lemma prioritize_eq priority patterns :
  prioritize priority patterns =
    first_occurrences (filter (fun p => p ∈ patterns) priority)
    ++ filter (fun p => p ∉ priority) patterns.
Proof.
  unfold prioritize.
  destruct (promote_spec patterns priority [] ∅) as (seen' & -> & Hseen').
  { intros x. rewrite elem_of_empty, elem_of_nil. reflexivity. }
  simpl. f_equal.
  - induction (first_occurrences _) as [|y l IH]; [reflexivity|].
    rewrite filter_cons_True by apply not_elem_of_nil. f_equal. exact IH.
  - apply filter_agree. intros x Hx. cbv beta. rewrite Hseen', elem_of_nil. tauto.
Qed.

Lemma prioritize_perm priority patterns :
  NoDup patterns -> prioritize priority patterns ≡ₚ patterns.
Proof.
  intros Hnd. rewrite prioritize_eq.
  etransitivity; [|apply (filter_app_complement (fun p => p ∈ priority) patterns)].
  apply Permutation_app; [|reflexivity].
  apply NoDup_Permutation.
  - apply NoDup_first_occurrences.
  - apply NoDup_filter, Hnd.
  - intros x. rewrite elem_of_first_occurrences, !list_elem_of_filter. tauto.
Qed.

Lemma prioritize_nil priority : prioritize priority [] = [].
Proof.
  rewrite prioritize_eq. rewrite filter_nil, app_nil_r.
  induction priority as [|p l IH]; [reflexivity|].
  rewrite filter_cons_False by apply not_elem_of_nil. exact IH.
Qed.

Lemma slice_to_prefix {A} n (l : list A) : slice_to n l `prefix_of` l.
Proof.
  unfold slice_to. destruct (0 <=? n); eexists; symmetry; apply take_drop.
Qed.

Lemma clamp_patterns_bounds max_patterns ordered :
  ordered <> [] ->
  1 <= clamp_patterns max_patterns ordered <= Z.of_nat (length ordered) /\
  slice_to (clamp_patterns max_patterns ordered) ordered
    = take (Z.to_nat (clamp_patterns max_patterns ordered)) ordered /\
  Z.of_nat (length (slice_to (clamp_patterns max_patterns ordered) ordered))
    = clamp_patterns max_patterns ordered.
Proof.
  intros Hne. unfold clamp_patterns, slice_to.
  assert (0 < length ordered)%nat by (destruct ordered; [contradiction | simpl; lia]).
  destruct (Z.leb_spec 0 (Z.max 1 (Z.min max_patterns (Z.of_nat (length ordered))))); [|lia].
  repeat split; try lia.
  rewrite length_take. lia.
Qed.

Section SelectorFacts.

Variable W : Type.
Variable verify : string -> bool -> string -> bool -> W -> (exn + verification) * W.
Variables (max_results : Z) (fast_mode : bool) (confidence_mode : string)
          (internet_checks : bool).

Local Abbreviation run := (probe W verify max_results fast_mode confidence_mode internet_checks).
Local Abbreviation run_all := (probe_all W verify fast_mode confidence_mode internet_checks).

Lemma stop_rule_collect email v results :
  stop_rule max_results (collect email v results)
  = stop_early max_results v (collect email v results).
Proof.
  unfold stop_rule, stop_early, collect. rewrite last_snoc. simpl. apply andb_comm.
Qed.

Lemma probe_spec candidates : forall results w probed results' w',
  stop_rule max_results results = false ->
  run candidates results w = (probed, results', w') ->
  (exists rest, candidates = probed ++ rest /\
                (rest <> [] -> stop_rule max_results results' = true)) /\
  run_all probed results w = (results', w') /\
  (forall k, (k < length probed)%nat ->
             stop_rule max_results (fst (run_all (take k candidates) results w)) = false).
Proof.
  induction candidates as [|e cs IH]; intros results w probed results' w' Hstop; simpl.
  - intros [= <- <- <-]. split; [exists []; split; [reflexivity | congruence]|].
    split; [reflexivity|]. simpl. intros k Hk. lia.
  - destruct (verify e fast_mode confidence_mode internet_checks w) as [r w1] eqn:Hv.
    assert (forall results1 : list found,
      stop_rule max_results results1 = false ->
      (forall l, run_all (e :: l) results w = run_all l results1 w1) ->
      (let '(probed, results', w'') := run cs results1 w1 in
       (e :: probed, results', w'')) = (probed, results', w') ->
      (exists rest, e :: cs = probed ++ rest /\
                    (rest <> [] -> stop_rule max_results results' = true)) /\
      run_all probed results w = (results', w') /\
      (forall k, (k < length probed)%nat ->
         stop_rule max_results (fst (run_all (take k (e :: cs)) results w)) = false))
      as Hgo.
    { intros results1 Hstop1 Hall.
      destruct (run cs results1 w1) as [[p r'] w''] eqn:Hp.
      intros [= <- <- <-].
      destruct (IH _ _ _ _ _ Hstop1 Hp) as ((rest & -> & Hrest) & Hpa & Hk).
      split; [exists rest; split; [reflexivity | exact Hrest]|].
      split; [rewrite Hall; exact Hpa|].
      intros [|k] Hlt; [exact Hstop|].
      change (take (S k) (e :: p ++ rest)) with (e :: take k (p ++ rest)).
      rewrite Hall. apply Hk. simpl in Hlt. lia. }
    destruct r as [err|v].
    + apply Hgo; [exact Hstop|]. intros l. simpl. rewrite Hv. reflexivity.
    + destruct (collectible (status v)) eqn:Hc.
      * destruct (stop_early max_results v (collect e v results)) eqn:Hse.
        -- intros [= <- <- <-]. rewrite <- stop_rule_collect in Hse.
           split; [exists cs; split; [reflexivity | intros _; exact Hse]|].
           split; [simpl; rewrite Hv, Hc; reflexivity|].
           intros k Hk. simpl in Hk. assert (k = 0%nat) as -> by lia. exact Hstop.
        -- apply Hgo.
           ++ rewrite stop_rule_collect. exact Hse.
           ++ intros l. simpl. rewrite Hv, Hc. reflexivity.
      * apply Hgo; [exact Hstop|]. intros l. simpl. rewrite Hv, Hc. reflexivity.
Qed.

End SelectorFacts.

Lemma stop_rule_nil max_results : stop_rule max_results [] = false.
Proof. unfold stop_rule. simpl. apply andb_false_r. Qed.

(** C3: [find_best_emails] stops probing exactly when the number of
    collected results has reached [max_results] and the most recently collected
    result has confidence at least 0.8: the candidates verified are a prefix of
    the list, the rule is false after every shorter prefix, and it is true
    whenever a candidate is left unverified. With [max_results = 1], a first
    candidate with a collectible status and confidence 0.9 is the only one
    verified and its result is the one returned. *)
Theorem early_stop_rule :
  (forall W verify max_results fast_mode mode ic candidates w probed results w',
      probe W verify max_results fast_mode mode ic candidates [] w = (probed, results, w') ->
      exists rest,
        candidates = probed ++ rest /\
        probe_all W verify fast_mode mode ic probed [] w = (results, w') /\
        (forall k, (k < length probed)%nat ->
           stop_rule max_results
             (fst (probe_all W verify fast_mode mode ic (take k candidates) [] w)) = false) /\
        (rest <> [] -> stop_rule max_results results = true)) /\
  (forall format_ext W verify fast_mode mode ic first_name last_name domain max_patterns
          custom_patterns include_defaults w patterns priority e rest v w1,
      generate_patterns format_ext first_name last_name domain custom_patterns
        include_defaults = inr patterns ->
      priority_patterns first_name last_name domain = inr priority ->
      slice_to (clamp_patterns max_patterns (prioritize priority patterns))
        (prioritize priority patterns) = e :: rest ->
      verify e fast_mode mode ic w = (inr v, w1) ->
      collectible (status v) = true ->
      confidence v = 0.9%float ->
      find_best_emails_trace format_ext W verify 1 fast_mode mode ic
        first_name last_name domain max_patterns custom_patterns include_defaults w
      = (inr ([e], [{| found_email := e; found_status := status v;
                       found_confidence := confidence v; found_reason := reason v |}]), w1)).
Proof.
  split.
  - intros W verify max_results fast_mode mode ic candidates w probed results w' Hrun.
    destruct (probe_spec W verify max_results fast_mode mode ic candidates
                [] w probed results w') as ((rest & Hc & Hrest) & Hall & Hk).
    + apply stop_rule_nil.
    + exact Hrun.
    + exists rest. auto.
  - intros format_ext W verify fast_mode mode ic first_name last_name domain max_patterns
      custom_patterns include_defaults w patterns priority e rest v w1
      Hgen Hprio Hslice Hv Hc Hconf.
    unfold find_best_emails_trace. rewrite Hgen.
    destruct patterns as [|p ps].
    { rewrite prioritize_nil in Hslice. unfold slice_to in Hslice.
      destruct (0 <=? _); rewrite take_nil in Hslice; discriminate. }
    assert (stop_early 1 v (collect e v []) = true) as Hstop.
    { unfold stop_early. rewrite Hconf. reflexivity. }
    rewrite Hprio, Hslice. simpl. rewrite Hv, Hc, Hstop. reflexivity.
Qed.


Lemma early_stop_rule_witness :
  (exists v w1,
      verify_email (scripted_env 250 bye true) "bob.ross@example.org" true "balanced" false idle
        = (inr v, w1) /\
      find_best_emails_trace refuse_template state (verify_email (scripted_env 250 bye true))
        1 true "balanced" false "Bob" "Ross" "example.org" 8 None true idle
      = (inr (["bob.ross@example.org"%string],
              [{| found_email := "bob.ross@example.org"; found_status := status v;
                  found_confidence := confidence v; found_reason := reason v |}]), w1)) /\
  (exists rest,
      ["bob.ross@example.org"; "bobross@example.org"]%string
        = ["bob.ross@example.org"%string] ++ rest /\
      (rest <> [] ->
       stop_rule 1
         (fst (probe_all state (verify_email (scripted_env 250 bye true)) true "balanced" false
                 ["bob.ross@example.org"%string] [] idle)) = true)).
Proof.
  split.
  - eexists _, _. split; [vm_compute; reflexivity|].
    eapply (proj2 early_stop_rule).
    + vm_compute. reflexivity.
    + vm_compute. reflexivity.
    + vm_compute. reflexivity.
    + vm_compute. reflexivity.
    + reflexivity.
    + reflexivity.
  - destruct (proj1 early_stop_rule state (verify_email (scripted_env 250 bye true))
                1 true "balanced"%string false
                ["bob.ross@example.org"; "bobross@example.org"]%string idle
                ["bob.ross@example.org"%string]
                (fst (probe_all state (verify_email (scripted_env 250 bye true)) true
                        "balanced" false ["bob.ross@example.org"%string] [] idle))
                (snd (probe_all state (verify_email (scripted_env 250 bye true)) true
                        "balanced" false ["bob.ross@example.org"%string] [] idle)))
      as (rest & Hc & _ & _ & Hstop).
    + vm_compute. reflexivity.
    + exists rest. split; assumption.
Defined.

Lemma trace_prefix format_ext W verify max_results fast_mode mode ic first_name last_name
    domain max_patterns custom_patterns include_defaults w probed results w' patterns priority :
  find_best_emails_trace format_ext W verify max_results fast_mode mode ic
    first_name last_name domain max_patterns custom_patterns include_defaults w
  = (inr (probed, results), w') ->
  generate_patterns format_ext first_name last_name domain custom_patterns include_defaults
  = inr patterns ->
  priority_patterns first_name last_name domain = inr priority ->
  probed `prefix_of`
    slice_to (clamp_patterns max_patterns (prioritize priority patterns))
      (prioritize priority patterns).
Proof.
  unfold find_best_emails_trace. intros Hrun Hgen Hprio. rewrite Hgen in Hrun.
  destruct patterns as [|p ps].
  { injection Hrun as <- _ _. apply prefix_nil. }
  rewrite Hprio in Hrun.
  destruct (probe _ _ _ _ _ _ _ _ _) as [[probed' results'] w''] eqn:Hp.
  injection Hrun as <- _ _.
  destruct (probe_spec _ _ _ _ _ _ _ _ _ _ _ _ (stop_rule_nil max_results) Hp)
    as ((rest & -> & _) & _).
  exists rest. reflexivity.
Qed.



(** ** The candidate generator *)

Lemma has_char_app c a b :
  PyStr.has_char c (a +:+ b) = PyStr.has_char c a || PyStr.has_char c b.
Proof.
  induction a as [|x a IH]; simpl; [reflexivity|]. rewrite IH. apply orb_assoc.
Qed.

Lemma has_char_take c n : forall s,
  PyStr.has_char c s = false -> PyStr.has_char c (PyStr.take n s) = false.
Proof.
  induction n as [|n IH]; intros [|x s]; simpl; try reflexivity.
  intros H. apply orb_false_elim in H as [-> H]. simpl. apply IH, H.
Qed.

Lemma has_char_head c s :
  PyStr.has_char c s = false -> PyStr.has_char c (PyStr.head s) = false.
Proof.
  destruct s as [|x s]; simpl; [reflexivity|].
  intros H. apply orb_false_elim in H as [-> _]. reflexivity.
Qed.

Lemma has_char_last c s x :
  PyStr.has_char c s = false -> PyStr.last s = Some x -> PyStr.has_char c x = false.
Proof.
  induction s as [|a s IH]; [discriminate|].
  intros H. cbn [PyStr.has_char] in H. apply orb_false_elim in H as [Ha H].
  destruct s as [|b s].
  - intros [= <-]. cbn [PyStr.has_char]. rewrite Ha. reflexivity.
  - intros Hl. apply IH; assumption.
Qed.

Lemma has_char_tail c s :
  PyStr.has_char c s = false -> PyStr.has_char c (PyStr.tail s) = false.
Proof.
  intros H. unfold PyStr.tail. destruct (PyStr.last s) eqn:E; [|reflexivity].
  eapply has_char_last; eauto.
Qed.

Lemma has_char_index c i : forall s x,
  PyStr.has_char c s = false -> PyStr.index i s = Some x -> PyStr.has_char c x = false.
Proof.
  induction i as [|i IH]; intros [|a s] x; simpl; try discriminate.
  - intros H [= <-]. apply orb_false_elim in H as [Ha _]. simpl. rewrite Ha. reflexivity.
  - intros H. apply orb_false_elim in H as [_ H]. apply IH, H.
Qed.

Lemma has_char_second c s :
  PyStr.has_char c s = false -> PyStr.has_char c (second s) = false.
Proof.
  intros H. unfold second. destruct (PyStr.index 1 s) eqn:E; [|reflexivity].
  eapply has_char_index; eauto.
Qed.

Lemma endswith_app a b : PyStr.endswith (a +:+ b) b = true.
Proof.
  induction a as [|x a IH]; simpl.
  - destruct b; simpl; [reflexivity|]. rewrite Ascii.eqb_refl, String.eqb_refl. reflexivity.
  - rewrite IH. apply orb_true_r.
Qed.

Lemma name_tokens_lookup first last dom :
  make_tokens first last dom !! "first"%string = Some first /\
  make_tokens first last dom !! "last"%string = Some last /\
  make_tokens first last dom !! "f"%string = Some (PyStr.head first) /\
  make_tokens first last dom !! "l"%string = Some (PyStr.head last) /\
  make_tokens first last dom !! "digits2"%string = Some "12"%string.
Proof. repeat split; reflexivity. Qed.

Lemma name_tokens_no_at first last dom name v :
  PyStr.has_char "@" first = false -> PyStr.has_char "@" last = false ->
  name ∈ name_tokens ->
  make_tokens first last dom !! name = Some v -> PyStr.has_char "@" v = false.
Proof.
  intros Hf Hl Hin.
  destruct (name_tokens_lookup first last dom) as (E1 & E2 & E3 & E4 & E5).
  unfold name_tokens in Hin.
  repeat (apply elem_of_cons in Hin as [-> | Hin];
          [rewrite ?E1, ?E2, ?E3, ?E4, ?E5; intros [= <-];
           auto using has_char_head |]).
  apply elem_of_nil in Hin. contradiction.
Qed.

Lemma render_no_at names tokens segments : forall p,
  forallb (segment_safe names) segments = true ->
  (forall name v, name ∈ names -> tokens !! name = Some v -> PyStr.has_char "@" v = false) ->
  Template.render segments tokens = Formatted p ->
  PyStr.has_char "@" p = false.
Proof.
  induction segments as [|seg segments IH]; intros p Hsafe Htok; simpl.
  - intros [= <-]. reflexivity.
  - simpl in Hsafe. apply andb_prop in Hsafe as [Hseg Hsafe].
    destruct seg as [c|name]; simpl in Hseg.
    + destruct (Template.render segments tokens) as [r| |] eqn:E; try discriminate.
      intros [= <-]. simpl. apply negb_true_iff in Hseg.
      rewrite Hseg. simpl. apply IH; auto.
    + apply bool_decide_eq_true in Hseg.
      destruct (tokens !! name) as [v|] eqn:Ev; [|discriminate].
      destruct (Template.render segments tokens) as [r| |] eqn:E; try discriminate.
      intros [= <-]. rewrite has_char_app, (Htok _ _ Hseg Ev). simpl. apply IH; auto.
Qed.

Lemma render_never_raises segments tokens e :
  Template.render segments tokens <> FormatRaise e.
Proof.
  induction segments as [|[c|name] segments IH]; simpl; [discriminate| |].
  - destruct (Template.render segments tokens); congruence.
  - destruct (tokens !! name); [|discriminate].
    destruct (Template.render segments tokens); congruence.
Qed.

Lemma format_safe format_ext names template tokens p :
  template_safe names template = true ->
  (forall name v, name ∈ names -> tokens !! name = Some v -> PyStr.has_char "@" v = false) ->
  format format_ext template tokens = Formatted p ->
  PyStr.has_char "@" p = false.
Proof.
  unfold template_safe, format.
  destruct (Template.parse template None) as [segments|]; [|discriminate].
  apply render_no_at.
Qed.

Lemma format_safe_never_raises format_ext names template tokens e :
  template_safe names template = true ->
  format format_ext template tokens <> FormatRaise e.
Proof.
  unfold template_safe, format.
  destruct (Template.parse template None) as [segments|]; [|discriminate].
  intros _. apply render_never_raises.
Qed.

Lemma defaults_safe :
  forallb (template_safe name_tokens) DEFAULT_PATTERN_TEMPLATES = true.
Proof. vm_compute. reflexivity. Qed.


Lemma add_unfold dom p st :
  add dom p st =
  if PyStr.is_empty p then st
  else if bool_decide (address dom p ∈ snd st) then st
       else (fst st ++ [address dom p], {[address dom p]} ∪ snd st).
Proof. destruct st as [patterns seen]. reflexivity. Qed.

Lemma add_generated P dom p st :
  generated P st ->
  (PyStr.is_empty p = false -> P (address dom p)) ->
  generated P (add dom p st) /\
  fst st `prefix_of` fst (add dom p st) /\
  (PyStr.is_empty p = false -> fst (add dom p st) <> []).
Proof.
  intros [[Hnd Hseen] HP] Hp. rewrite add_unfold.
  destruct (PyStr.is_empty p) eqn:Hempty.
  { split; [split; [split|]; assumption|]. split; [reflexivity | discriminate]. }
  case_bool_decide as Hin.
  - split; [split; [split|]; assumption|]. split; [reflexivity|].
    intros _ Hnil. apply Hseen in Hin. rewrite Hnil in Hin.
    apply elem_of_nil in Hin. exact Hin.
  - unfold generated, acc_ok. cbn [fst snd]. split; [split; [split|]|split].
    + apply NoDup_app. split; [exact Hnd|]. split; [|apply NoDup_singleton].
      intros x Hx Hx'. apply list_elem_of_singleton in Hx'. subst x.
      apply Hin, Hseen, Hx.
    + intros x.
      rewrite elem_of_union, elem_of_singleton, elem_of_app, list_elem_of_singleton, Hseen.
      tauto.
    + apply Forall_app. split; [exact HP|]. constructor; [apply Hp; reflexivity | constructor].
    + eexists. reflexivity.
    + intros _ Hnil. apply app_eq_nil in Hnil as [_ Hnil]. discriminate.
Qed.

Lemma prefix_nonempty {A} (l k : list A) : l `prefix_of` k -> l <> [] -> k <> [].
Proof. intros [r ->] Hl Hnil. apply app_eq_nil in Hnil as [Hnil _]. contradiction. Qed.

Lemma add_all_generated P dom ps : forall st,
  generated P st ->
  Forall (fun p => PyStr.is_empty p = false -> P (address dom p)) ps ->
  generated P (add_all dom ps st) /\ fst st `prefix_of` fst (add_all dom ps st).
Proof.
  unfold add_all. induction ps as [|p ps IH]; intros st Hst Hps; simpl.
  - split; [exact Hst | reflexivity].
  - apply Forall_cons in Hps as [Hp Hps].
    destruct (add_generated P dom p st Hst Hp) as (Hst' & Hpre & _).
    destruct (IH _ Hst' Hps) as [Hgen Hpre'].
    split; [exact Hgen | etransitivity; eassumption].
Qed.

Lemma add_templates_generated P format_ext strip_first dom tokens templates : forall st st',
  add_templates format_ext strip_first dom tokens templates st = inr st' ->
  generated P st ->
  (forall t p, t ∈ templates ->
     format format_ext (if strip_first then PyStr.strip t else t) tokens = Formatted p ->
     P (address dom p)) ->
  generated P st' /\ fst st `prefix_of` fst st'.
Proof.
  induction templates as [|t ts IH]; intros st st'; simpl.
  - intros [= <-] Hst _. split; [exact Hst | reflexivity].
  - intros Hrun Hst Hts.
    assert (forall t' p, t' ∈ ts ->
              format format_ext (if strip_first then PyStr.strip t' else t') tokens = Formatted p ->
              P (address dom p)) as Hts'
        by (intros t' p Hin; apply Hts, list_elem_of_further, Hin).
    destruct (strip_first && PyStr.is_empty (if strip_first then PyStr.strip t else t)).
    { eapply IH; eauto. }
    destruct (format format_ext (if strip_first then PyStr.strip t else t) tokens)
      as [p| |e] eqn:Hf; [| eapply IH; eauto | discriminate].
    destruct (add_generated P dom p st Hst) as (Hst' & Hpre & _).
    { intros _. eapply Hts; [apply list_elem_of_here | exact Hf]. }
    destruct (IH _ _ Hrun Hst' Hts') as [Hgen Hpre'].
    split; [exact Hgen | etransitivity; eassumption].
Qed.

Lemma add_templates_total format_ext (strip_first : bool) dom tokens (templates : list string) :
  forall st,
  (forall t e, t ∈ templates ->
     format format_ext (if strip_first then PyStr.strip t else t) tokens <> FormatRaise e) ->
  exists st', add_templates format_ext strip_first dom tokens templates st = inr st'.
Proof.
  induction templates as [|t ts IH]; intros st Hts; simpl; [eauto|].
  assert (forall t' e, t' ∈ ts ->
            format format_ext (if strip_first then PyStr.strip t' else t') tokens <> FormatRaise e)
    as Hts' by (intros t' e Hin; apply Hts, list_elem_of_further, Hin).
  destruct (strip_first && PyStr.is_empty (if strip_first then PyStr.strip t else t)); [auto|].
  destruct (format format_ext (if strip_first then PyStr.strip t else t) tokens)
    as [p| |e] eqn:Hf; auto.
  exfalso. eapply Hts; [apply list_elem_of_here | exact Hf].
Qed.

Lemma address_ends_with_domain dom p :
  PyStr.has_char "@" p = false -> PyStr.endswith (address dom p) ("@" +:+ dom) = true.
Proof. intros H. unfold address. rewrite H. apply endswith_app. Qed.

Lemma sweeps_no_at first last :
  PyStr.has_char "@" first = false -> PyStr.has_char "@" last = false ->
  Forall (fun p => PyStr.has_char "@" p = false)
    (suffix_sweep first last
     ++ separator_sweep first last (PyStr.head first) (PyStr.head last)
     ++ extras first last (PyStr.head first) (PyStr.head last)
     ++ long_name_extras first last (PyStr.head first)).
Proof.
  intros Hf Hl.
  pose proof (has_char_head _ _ Hf) as Hhf. pose proof (has_char_head _ _ Hl) as Hhl.
  pose proof (has_char_tail _ _ Hf) as Htf. pose proof (has_char_tail _ _ Hl) as Htl.
  pose proof (has_char_second _ _ Hf) as Hsf.
  pose proof (has_char_take _ 1 _ Hf) as H1f. pose proof (has_char_take _ 1 _ Hl) as H1l.
  pose proof (has_char_take _ 2 _ Hf) as H2f. pose proof (has_char_take _ 2 _ Hl) as H2l.
  unfold suffix_sweep, separator_sweep, extras, long_name_extras, base_tokens,
    NUMERIC_SUFFIXES, SEPARATORS.
  cbn [flat_map map app].
  repeat (apply Forall_cons; split;
          [rewrite ?has_char_app, ?Hf, ?Hl, ?Hhf, ?Hhl, ?Htf, ?Htl, ?Hsf, ?H1f, ?H1l, ?H2f, ?H2l;
           reflexivity|]).
  apply Forall_nil. exact I.
Qed.

Lemma is_empty_false s : s <> EmptyString -> PyStr.is_empty s = false.
Proof. destruct s; [contradiction | reflexivity]. Qed.

Lemma generated_nil P : generated P ([], ∅).
Proof.
  split; [split|]; simpl; [constructor | | constructor].
  intros x. rewrite elem_of_empty, elem_of_nil. reflexivity.
Qed.

Lemma suffix_sweep_head first last :
  exists rest, suffix_sweep first last = ((first +:+ "." +:+ last) +:+ "1") :: rest.
Proof. eexists. reflexivity. Qed.

Lemma is_empty_dotted first last :
  PyStr.is_empty ((first +:+ "." +:+ last) +:+ "1") = false.
Proof. destruct first; reflexivity. Qed.

Section GeneratorFacts.

Variable format_ext : string -> gmap string string -> format_result.
Variables (first_name last_name domain : string).
Variables (custom_patterns : option (list string)) (include_defaults : bool).

Let first := PyStr.strip (PyStr.lower first_name).
Let last := PyStr.strip (PyStr.lower last_name).
Let domain_lower := PyStr.rstrip ["@"%char] (PyStr.strip (PyStr.lower domain)).
Let tokens := make_tokens first last domain_lower.

Hypothesis first_given : first <> EmptyString.
Hypothesis last_given : last <> EmptyString.
Hypothesis domain_given : domain_lower <> EmptyString.

Lemma generate_patterns_generated (P : string -> Prop) l :
  generate_patterns format_ext first_name last_name domain custom_patterns include_defaults
    = inr l ->
  (forall t p, t ∈ DEFAULT_PATTERN_TEMPLATES ->
     format format_ext t tokens = Formatted p -> P (address domain_lower p)) ->
  Forall (fun p => P (address domain_lower p))
    (suffix_sweep first last
     ++ separator_sweep first last (PyStr.head first) (PyStr.head last)
     ++ extras first last (PyStr.head first) (PyStr.head last)
     ++ long_name_extras first last (PyStr.head first)) ->
  (forall ts t p, custom_patterns = Some ts -> t ∈ ts ->
     format format_ext (PyStr.strip t) tokens = Formatted p -> P (address domain_lower p)) ->
  l <> [] /\ NoDup l /\ Forall P l.
Proof.
  intros Hrun Hdef Hsw Hcus.
  unfold generate_patterns in Hrun. fold first last domain_lower tokens in Hrun.
  rewrite (is_empty_false _ first_given), (is_empty_false _ last_given),
    (is_empty_false _ domain_given) in Hrun. cbn [orb] in Hrun. cbv iota in Hrun.
  apply Forall_app in Hsw as [Hsuffix Hsw]. apply Forall_app in Hsw as [Hsep Hsw].
  apply Forall_app in Hsw as [Hextra Hlong].
  assert (forall ps, Forall (fun p => P (address domain_lower p)) ps ->
            Forall (fun p => PyStr.is_empty p = false -> P (address domain_lower p)) ps) as Hweak.
  { intros ps Hps. eapply Forall_impl; [exact Hps | auto]. }
  (* the custom templates, from any state reached before them *)
  assert (forall st4, generated P st4 -> fst st4 <> [] ->
            match custom_patterns with
            | Some ((_ :: _) as templates) =>
                match add_templates format_ext true domain_lower tokens templates st4 with
                | inl e => inl e
                | inr st => inr (fst st)
                end
            | _ => inr (fst st4)
            end = inr l ->
            l <> [] /\ NoDup l /\ Forall P l) as Hfinish.
  { intros st4 Hst4 Hne4 Hend.
    assert (exists st5, l = fst st5 /\ generated P st5 /\ fst st4 `prefix_of` fst st5)
      as (st5 & -> & [[Hnd _] HP] & Hpre5).
    { destruct custom_patterns as [[|t ts]|]; cbv beta iota in Hend.
      - injection Hend as <-. exists st4. split; [reflexivity|].
        split; [exact Hst4 | reflexivity].
      - destruct (add_templates format_ext true domain_lower tokens (t :: ts) st4)
          as [e|st5] eqn:E; cbv beta iota in Hend; [discriminate Hend|].
        injection Hend as <-. exists st5. split; [reflexivity|].
        eapply add_templates_generated; [exact E | exact Hst4 |].
        intros t' p Hin. apply (Hcus (t :: ts)); auto.
      - injection Hend as <-. exists st4. split; [reflexivity|].
        split; [exact Hst4 | reflexivity]. }
    split; [eapply prefix_nonempty; eassumption|]. split; assumption. }
  (* the built-in templates *)
  match type of Hrun with
  | match ?x with _ => _ end = _ =>
      destruct x as [e|st0] eqn:Edef; cbv beta iota in Hrun; [discriminate Hrun|]
  end.
  assert (generated P st0) as Hst0.
  { destruct include_defaults.
    - eapply add_templates_generated; [exact Edef | apply generated_nil | exact Hdef].
    - injection Edef as <-. apply generated_nil. }
  (* the suffix sweep, whose first pattern is never empty *)
  destruct (suffix_sweep_head first last) as (rest & Esw).
  assert (generated P (add_all domain_lower (suffix_sweep first last) st0) /\
          fst (add_all domain_lower (suffix_sweep first last) st0) <> []) as [Hst1 Hne1].
  { rewrite Esw in Hsuffix |- *. apply Forall_cons in Hsuffix as [Hp Hrest].
    unfold add_all. cbn [fold_left].
    destruct (add_generated P domain_lower _ st0 Hst0 (fun _ => Hp)) as (Hg & _ & Hne).
    destruct (add_all_generated P domain_lower rest _ Hg (Hweak _ Hrest)) as [Hg' Hpre].
    split; [exact Hg'|]. eapply prefix_nonempty; [exact Hpre|].
    apply Hne, is_empty_dotted. }
  set (st1 := add_all domain_lower (suffix_sweep first last) st0) in *.
  destruct (add_all_generated P domain_lower _ st1 Hst1 (Hweak _ Hsep)) as [Hst2 Hpre2].
  set (st2 := add_all domain_lower (separator_sweep _ _ _ _) st1) in *.
  destruct (add_all_generated P domain_lower _ st2 Hst2 (Hweak _ Hextra)) as [Hst3 Hpre3].
  set (st3 := add_all domain_lower (extras _ _ _ _) st2) in *.
  assert (fst st3 <> []) as Hne3.
  { eapply prefix_nonempty; [exact Hpre3|]. eapply prefix_nonempty; [exact Hpre2|].
    exact Hne1. }
  destruct ((1 <? PyStr.len first) && (1 <? PyStr.len last)).
  - destruct (add_all_generated P domain_lower _ st3 Hst3 (Hweak _ Hlong)) as [Hst4 Hpre4].
    eapply Hfinish; [exact Hst4 | | exact Hrun].
    eapply prefix_nonempty; [exact Hpre4 | exact Hne3].
  - eapply Hfinish; [exact Hst3 | exact Hne3 | exact Hrun].
Qed.

Lemma generate_patterns_total :
  (forall ts t e, custom_patterns = Some ts -> t ∈ ts ->
     format format_ext (PyStr.strip t) tokens <> FormatRaise e) ->
  exists l,
    generate_patterns format_ext first_name last_name domain custom_patterns include_defaults
      = inr l.
Proof.
  intros Hcus. unfold generate_patterns. fold first last domain_lower tokens.
  rewrite (is_empty_false _ first_given), (is_empty_false _ last_given),
    (is_empty_false _ domain_given). cbn [orb]. cbv iota.
  assert (forall t e, t ∈ DEFAULT_PATTERN_TEMPLATES -> format format_ext t tokens <> FormatRaise e)
    as Hdef.
  { intros t e Hin. apply (format_safe_never_raises _ name_tokens).
    pose proof defaults_safe as Hsafe. rewrite forallb_forall in Hsafe.
    apply Hsafe, list_elem_of_In, Hin. }
  assert (forall st4 : acc, exists l,
            match custom_patterns with
            | Some ((_ :: _) as templates) =>
                match add_templates format_ext true domain_lower tokens templates st4 with
                | inl e => inl e
                | inr st => inr (fst st)
                end
            | _ => inr (fst st4)
            end = inr l) as Hfinish.
  { intros st4. destruct custom_patterns as [[|t ts]|]; [eauto | | eauto].
    destruct (add_templates_total format_ext true domain_lower tokens (t :: ts) st4)
      as (st5 & ->); [|eauto].
    intros t' e Hin. apply (Hcus (t :: ts)); auto. }
  destruct include_defaults; [|apply Hfinish].
  match goal with
  | |- context [add_templates format_ext false domain_lower tokens
                  DEFAULT_PATTERN_TEMPLATES ?st] =>
      destruct (add_templates_total format_ext false domain_lower tokens
                  DEFAULT_PATTERN_TEMPLATES st Hdef) as (st0 & ->)
  end.
  apply Hfinish.
Qed.

End GeneratorFacts.

(** C5 (as stated, refuted): a custom template that expands to a text with
    '@' is kept as it is, and so is a pattern built from a name with '@': the
    generated list then has an address that does not end in '@' and the
    domain. *)
Lemma address_outside_domain :
  (exists l,
      generate_patterns refuse_template "a" "b" "x.com" (Some ["{first}@other.org"%string]) true
        = inr l /\
      "a@other.org"%string ∈ l /\ PyStr.endswith "a@other.org" "@x.com" = false) /\
  (exists l,
      generate_patterns refuse_template "a@b" "c" "x.com" None true = inr l /\
      "a@b.c"%string ∈ l /\ PyStr.endswith "a@b.c" "@x.com" = false).
Proof.
  split; eexists; (split; [vm_compute; reflexivity|]); (split; [|reflexivity]).
  - refine (bool_decide_unpack _ _). vm_compute. exact I.
  - apply list_elem_of_here.
Qed.

(** C5 (amended): for names and a domain that are non-empty once normalized,
    [generate_patterns] returns a list unless a custom template makes the
    formatter raise something other than [KeyError]; the list is non-empty and
    duplicate-free; and when neither name has an '@' and no custom template
    expands to a text with '@', every address ends in '@' followed by the
    normalized domain. *)
Theorem generate_patterns_sound format_ext first_name last_name domain custom_patterns
    include_defaults :
  let first := PyStr.strip (PyStr.lower first_name) in
  let last := PyStr.strip (PyStr.lower last_name) in
  let domain_lower := PyStr.rstrip ["@"%char] (PyStr.strip (PyStr.lower domain)) in
  let tokens := make_tokens first last domain_lower in
  first <> EmptyString -> last <> EmptyString -> domain_lower <> EmptyString ->
  ((forall ts t e, custom_patterns = Some ts -> t ∈ ts ->
      format format_ext (PyStr.strip t) tokens <> FormatRaise e) ->
   exists l,
     generate_patterns format_ext first_name last_name domain custom_patterns
       include_defaults = inr l) /\
  (forall l,
      generate_patterns format_ext first_name last_name domain custom_patterns
        include_defaults = inr l ->
      l <> [] /\ NoDup l /\
      (PyStr.has_char "@" first = false -> PyStr.has_char "@" last = false ->
       (forall ts t p, custom_patterns = Some ts -> t ∈ ts ->
          format format_ext (PyStr.strip t) tokens = Formatted p ->
          PyStr.has_char "@" p = false) ->
       Forall (fun a => PyStr.endswith a ("@" +:+ domain_lower) = true) l)).
Proof.
  intros first last domain_lower tokens Hf Hl Hd. split.
  - apply generate_patterns_total; assumption.
  - intros l Hrun. split; [|split].
    + eapply (generate_patterns_generated _ _ _ _ _ _ Hf Hl Hd (fun _ => True)); eauto.
      apply Forall_forall. auto.
    + eapply (generate_patterns_generated _ _ _ _ _ _ Hf Hl Hd (fun _ => True)); eauto.
      apply Forall_forall. auto.
    + intros Hfa Hla Hcus.
      eapply (generate_patterns_generated _ _ _ _ _ _ Hf Hl Hd
                (fun a => PyStr.endswith a ("@" +:+ domain_lower) = true)); eauto.
      * intros t p Hin Hfmt. apply address_ends_with_domain.
        eapply (format_safe _ name_tokens); [| |exact Hfmt].
        -- pose proof defaults_safe as Hsafe. rewrite forallb_forall in Hsafe.
           apply Hsafe, list_elem_of_In, Hin.
        -- intros name v. apply name_tokens_no_at; assumption.
      * eapply Forall_impl; [apply sweeps_no_at; assumption|].
        intros p Hp. apply address_ends_with_domain, Hp.
      * intros ts t p Hts Hin Hfmt. eapply address_ends_with_domain, Hcus; eauto.
Qed.

Lemma generate_patterns_sound_witness :
  exists l,
    generate_patterns refuse_template " John" "Doe " "Example.COM"
      (Some ["{fi}.{last3}"; "{nickname}"]%string) true = inr l /\
    l <> [] /\ NoDup l /\
    Forall (fun a => PyStr.endswith a "@example.com" = true) l.
Proof.
  pose proof (generate_patterns_sound refuse_template " John" "Doe " "Example.COM"
              (Some ["{fi}.{last3}"; "{nickname}"]%string) true) as H.
  cbv zeta in H.
  assert (PyStr.strip (PyStr.lower " John") <> EmptyString) as H1 by (vm_compute; discriminate).
  assert (PyStr.strip (PyStr.lower "Doe ") <> EmptyString) as H2 by (vm_compute; discriminate).
  assert (PyStr.rstrip ["@"%char] (PyStr.strip (PyStr.lower "Example.COM")) <> EmptyString)
    as H3 by (vm_compute; discriminate).
  specialize (H H1 H2 H3).
  destruct H as [Htotal Hsound].
  
  destruct Htotal as (l & Hrun).
  { intros ts t e Heq Hin. injection Heq as <-.
    repeat (apply elem_of_cons in Hin as [-> | Hin]; [vm_compute; discriminate|]).
    apply elem_of_nil in Hin. contradiction. }
  
  exists l. split; [exact Hrun|].
  destruct (Hsound l Hrun) as (Hne & Hnd & Hends).
  split; [exact Hne|]. split; [exact Hnd|].
  apply Hends.
  - (vm_compute; reflexivity).
  - (vm_compute; reflexivity).
  - intros ts t p Heq Hin. injection Heq as <-.
    apply elem_of_cons in Hin as [-> | Hin].
    + vm_compute. intros Hp. injection Hp as <-. reflexivity.
    + apply elem_of_cons in Hin as [-> | Hin].
      * vm_compute. intros Hp. discriminate Hp.
      * apply elem_of_nil in Hin. contradiction.
Defined.

(** C6 (the code at the failing input): for the domain "@x.com" the
    leading '@' stays, every generated address carries "@@" before "x.com",
    the first one being "john.doe@@x.com"; it is a trailing '@' that is
    stripped. *)
Theorem leading_at_is_kept format_ext :
  exists l,
    generate_patterns format_ext "John" "Doe" "@x.com" None true = inr l /\
    head l = Some "john.doe@@x.com"%string /\
    Forall (fun a => PyStr.contains "@@" a = true /\ PyStr.endswith a "@x.com" = true) l /\
    generate_patterns format_ext "John" "Doe" "x.com@" None true
      = generate_patterns format_ext "John" "Doe" "x.com" None true.
Proof.
  eexists. split; [vm_compute; reflexivity|].
  split; [reflexivity|]. split; [|vm_compute; reflexivity].
  repeat (apply List.Forall_cons; [split; vm_compute; reflexivity|]).
  apply List.Forall_nil.
Qed.

(** * Further properties *)

Lemma effects_refl P s : effects P 0 s s.
Proof.
  split; [reflexivity|]. split; [reflexivity|].
  exists []. split; [symmetry; apply app_nil_r|]. split; [constructor | reflexivity].
Qed.

Lemma effects_trans P n m s1 s2 s3 :
  effects P n s1 s2 -> effects P m s2 s3 -> effects P (n + m) s1 s3.
Proof.
  intros (Hm1 & Hd1 & e1 & Hh1 & F1 & L1) (Hm2 & Hd2 & e2 & Hh2 & F2 & L2).
  split; [congruence|]. split; [congruence|].
  exists (e1 ++ e2). split; [rewrite Hh2, Hh1; symmetry; apply app_assoc|].
  split; [apply Forall_app; split; assumption|].
  rewrite length_app. lia.
Qed.

Lemma effects_weaken (P Q : event -> Prop) n m s s' :
  (forall ev, P ev -> Q ev) -> (n <= m)%nat -> effects P n s s' -> effects Q m s s'.
Proof.
  intros HPQ Hnm (Hm & Hd & evs & Hh & F & L).
  split; [exact Hm|]. split; [exact Hd|].
  exists evs. split; [exact Hh|]. split; [|lia].
  eapply Forall_impl; [exact F | exact HPQ].
Qed.

Lemma effects_perform {A} P e (answer : list event -> A) s :
  P e -> effects P 1 s (snd (perform e answer s)).
Proof.
  intros He. split; [reflexivity|]. split; [reflexivity|].
  exists [e]. split; [reflexivity|]. split; [repeat constructor; exact He | reflexivity].
Qed.

Ltac forall_events tac :=
  repeat match goal with
         | |- Forall _ (_ :: _) => constructor; [solve [tac]|]
         | |- Forall _ [] => constructor
         end.

Ltac tidy_history :=
  cbn [history mx_cache deliverability_cache fst snd]; rewrite <- ?app_assoc; cbn [app].

(** A state reached by explicit events has the footprint of those events. *)
Lemma effects_after P s evs n :
  Forall P evs -> (length evs <= n)%nat -> effects P n s (after s evs).
Proof.
  intros F L. split; [reflexivity|]. split; [reflexivity|].
  exists evs. split; [reflexivity|]. split; assumption.
Qed.

Lemma check_mx_records_effects env domain s mx s' :
  check_mx_records env domain s = (mx, s') ->
  effects (is_mx_lookup domain) 3 s s'.
Proof.
  unfold check_mx_records, bind, perform, ret.
  destruct (resolve_mx env _ domain) as [[| |msg]|records];
    try destruct (resolve_a env _ domain);
    intros [= <- <-];
    (split; [reflexivity|]; split; [reflexivity|]);
    tidy_history; (eexists; split; [reflexivity|]);
    (split; [forall_events ltac:(unfold is_mx_lookup; auto) | simpl; lia]).
Qed.

Lemma try_host_effects env email host result s o s' :
  try_host env email host result s = (o, s') ->
  effects (is_smtp_on [host]) 7 s s'.
Proof.
  unfold try_host, session, xbind, call, bind, perform, ret, xret.
  repeat match goal with
         | |- context [smtp env ?h ?a ?c] => destruct (smtp env h a c) eqn:?; simpl
         | |- context [if ?b then _ else _] => destruct b eqn:?; simpl
         end;
  intros [= <- <-];
  (split; [reflexivity|]; split; [reflexivity|]);
  tidy_history; (eexists; split; [reflexivity|]);
  (split; [forall_events ltac:(eexists _, _; split; [reflexivity | apply list_elem_of_here])
          | simpl; lia]).
Qed.

Lemma host_loop_effects env email hosts : forall result s r s',
  host_loop env email hosts result s = (r, s') ->
  effects (is_smtp_on hosts) (7 * length hosts) s s'.
Proof.
  induction hosts as [|h hosts IH]; intros result s r s'; simpl host_loop.
  - unfold ret. intros [= <- <-]. apply effects_refl.
  - unfold bind. destruct (try_host env email h result s) as [o s1] eqn:Ht.
    apply try_host_effects in Ht.
    assert (effects (is_smtp_on (h :: hosts)) 7 s s1) as Hfirst.
    { eapply effects_weaken; [| |exact Ht]; [|lia].
      intros ev (host & cmd & -> & Hin). apply list_elem_of_singleton in Hin. subst.
      eexists _, _. split; [reflexivity | apply list_elem_of_here]. }
    destruct o as [r'|r'].
    + unfold ret. intros [= <- <-].
      eapply effects_weaken; [| |exact Hfirst]; [auto | simpl; lia].
    + intros Hl. apply IH in Hl.
      replace (7 * length (h :: hosts))%nat with (7 + 7 * length hosts)%nat by (simpl; lia).
      eapply effects_trans; [exact Hfirst|].
      eapply effects_weaken; [| |exact Hl]; [|lia].
      intros ev (host & cmd & -> & Hin). eexists _, _.
      split; [reflexivity | apply list_elem_of_further, Hin].
Qed.

Lemma smtp_handshake_effects env email domain mx_hosts s r s' :
  smtp_handshake env email domain mx_hosts s = (r, s') ->
  effects (is_smtp_on (take 2 mx_hosts)) 14 s s'.
Proof.
  unfold smtp_handshake.
  destruct (is_blocked _).
  { unfold ret. intros [= <- <-].
    apply (effects_weaken (is_smtp_on (take 2 mx_hosts)) _ 0 14); [auto | lia | apply effects_refl]. }
  destruct (is_transactional _).
  { unfold ret. intros [= <- <-].
    apply (effects_weaken (is_smtp_on (take 2 mx_hosts)) _ 0 14); [auto | lia | apply effects_refl]. }
  intros H. apply host_loop_effects in H.
  eapply effects_weaken; [| |exact H]; [auto|].
  rewrite length_take. lia.
Qed.

(** ** The lookup cache *)

Lemma get_cached_mx env key s :
  _get_cached env MxCache mx_cache set_mx_cache key s =
  match mx_cache s !! key with
  | None => (None, after s [ECacheGet MxCache key])
  | Some entry =>
      if PrimFloat.ltb (clock env (history s ++ [ECacheGet MxCache key])) (expires_at entry)
      then (Some (value entry), after s [ECacheGet MxCache key; EClock])
      else (None, {| mx_cache := delete key (mx_cache s);
                     deliverability_cache := deliverability_cache s;
                     history := history s ++ [ECacheGet MxCache key; EClock;
                                              ECachePop MxCache key] |})
  end.
Proof.
  unfold _get_cached, time_time, bind, perform, ret, set_mx_cache, after. simpl.
  destruct (mx_cache s !! key) as [entry|]; [|reflexivity].
  destruct (PrimFloat.ltb _ _); simpl; rewrite <- ?app_assoc; reflexivity.
Qed.

Lemma get_cached_deliverability env key s :
  _get_cached env DeliverabilityCache deliverability_cache set_deliverability_cache key s =
  match deliverability_cache s !! key with
  | None => (None, after s [ECacheGet DeliverabilityCache key])
  | Some entry =>
      if PrimFloat.ltb (clock env (history s ++ [ECacheGet DeliverabilityCache key]))
                       (expires_at entry)
      then (Some (value entry), after s [ECacheGet DeliverabilityCache key; EClock])
      else (None, {| mx_cache := mx_cache s;
                     deliverability_cache := delete key (deliverability_cache s);
                     history := history s ++ [ECacheGet DeliverabilityCache key; EClock;
                                              ECachePop DeliverabilityCache key] |})
  end.
Proof.
  unfold _get_cached, time_time, bind, perform, ret, set_deliverability_cache, after. simpl.
  destruct (deliverability_cache s !! key) as [entry|]; [|reflexivity].
  destruct (PrimFloat.ltb _ _); simpl; rewrite <- ?app_assoc; reflexivity.
Qed.

Lemma set_cache_mx env key v s :
  _set_cache env MxCache mx_cache set_mx_cache key v s =
  (tt, {| mx_cache := <[key := {| value := v;
                                  expires_at := (clock env (history s) + cache_ttl)%float |}]>
                        (mx_cache s);
          deliverability_cache := deliverability_cache s;
          history := history s ++ [EClock; ECacheSet MxCache key] |}).
Proof.
  unfold _set_cache, time_time, bind, perform, ret, set_mx_cache. simpl.
  rewrite <- app_assoc. reflexivity.
Qed.

Lemma set_cache_deliverability env key v s :
  _set_cache env DeliverabilityCache deliverability_cache set_deliverability_cache key v s =
  (tt, {| mx_cache := mx_cache s;
          deliverability_cache :=
            <[key := {| value := v;
                        expires_at := (clock env (history s) + cache_ttl)%float |}]>
              (deliverability_cache s);
          history := history s ++ [EClock; ECacheSet DeliverabilityCache key] |}).
Proof.
  unfold _set_cache, time_time, bind, perform, ret, set_deliverability_cache. simpl.
  rewrite <- app_assoc. reflexivity.
Qed.

(** X1: A value stored with _set_cache under a key is what _get_cached returns for
    that key, in the MX cache and in the deliverability cache, as long as the entry
    under the key is still the stored one and the clock read by the lookup is before
    the time of storing plus the TTL of 3600 seconds; the lookup then performs the
    cache read and one clock read and changes no cache. *)
Theorem cache_round_trip env key s s1 s2 :
  (forall v,
     _set_cache env MxCache mx_cache set_mx_cache key v s = (tt, s1) ->
     mx_cache s2 !! key = mx_cache s1 !! key ->
     PrimFloat.ltb (clock env (history s2 ++ [ECacheGet MxCache key]))
                   (clock env (history s) + cache_ttl) = true ->
     _get_cached env MxCache mx_cache set_mx_cache key s2 =
       (Some v, after s2 [ECacheGet MxCache key; EClock])) /\
  (forall d,
     _set_cache env DeliverabilityCache deliverability_cache set_deliverability_cache key d s
       = (tt, s1) ->
     deliverability_cache s2 !! key = deliverability_cache s1 !! key ->
     PrimFloat.ltb (clock env (history s2 ++ [ECacheGet DeliverabilityCache key]))
                   (clock env (history s) + cache_ttl) = true ->
     _get_cached env DeliverabilityCache deliverability_cache set_deliverability_cache key s2 =
       (Some d, after s2 [ECacheGet DeliverabilityCache key; EClock])).
Proof.
  split.
  - intros v Hset Hsame Hfresh. rewrite set_cache_mx in Hset. injection Hset as <-.
    rewrite get_cached_mx, Hsame. cbn [mx_cache]. rewrite lookup_insert_eq.
    cbn [expires_at value]. rewrite Hfresh. reflexivity.
  - intros v Hset Hsame Hfresh. rewrite set_cache_deliverability in Hset. injection Hset as <-.
    rewrite get_cached_deliverability, Hsame. cbn [deliverability_cache].
    rewrite lookup_insert_eq. cbn [expires_at value]. rewrite Hfresh. reflexivity.
Qed.

Lemma cache_round_trip_witness :
  _get_cached (scripted_env 250 bye true) MxCache mx_cache set_mx_cache "example.org"
    (snd (_set_cache (scripted_env 250 bye true) MxCache mx_cache set_mx_cache "example.org"
            (mx_flag true) idle))
  = (Some (mx_flag true),
     after (snd (_set_cache (scripted_env 250 bye true) MxCache mx_cache set_mx_cache
                   "example.org" (mx_flag true) idle))
           [ECacheGet MxCache "example.org"; EClock]).
Proof.
  apply (proj1 (cache_round_trip (scripted_env 250 bye true) "example.org" idle
                  (snd (_set_cache (scripted_env 250 bye true) MxCache mx_cache set_mx_cache
                          "example.org" (mx_flag true) idle))
                  (snd (_set_cache (scripted_env 250 bye true) MxCache mx_cache set_mx_cache
                          "example.org" (mx_flag true) idle)))
               (mx_flag true)).
  - vm_compute. reflexivity.
  - reflexivity.
  - vm_compute. reflexivity.
Defined.



Lemma cached_mx_check_hit env domain s entry :
  mx_cache s !! domain = Some entry ->
  PrimFloat.ltb (clock env (history s ++ [ECacheGet MxCache domain])) (expires_at entry) = true ->
  cached_mx_check env domain s = (value entry, after s [ECacheGet MxCache domain; EClock]).
Proof.
  intros Hk Hfresh. unfold cached_mx_check, bind. rewrite get_cached_mx, Hk, Hfresh.
  reflexivity.
Qed.

Lemma cached_deliverability_hit env domain s entry :
  deliverability_cache s !! domain = Some entry ->
  PrimFloat.ltb (clock env (history s ++ [ECacheGet DeliverabilityCache domain]))
                (expires_at entry) = true ->
  cached_deliverability env domain s =
    (value entry, after s [ECacheGet DeliverabilityCache domain; EClock]).
Proof.
  intros Hk Hfresh. unfold cached_deliverability, bind.
  rewrite get_cached_deliverability, Hk, Hfresh. reflexivity.
Qed.

Lemma cached_mx_check_post env domain s mx s1 :
  cached_mx_check env domain s = (mx, s1) ->
  exists entry, mx_cache s1 !! domain = Some entry /\ value entry = mx.
Proof.
  unfold cached_mx_check, bind. rewrite get_cached_mx.
  destruct (mx_cache s !! domain) as [entry|] eqn:Hk;
    [destruct (PrimFloat.ltb _ _)|].
  - unfold ret. intros [= <- <-]. cbn [after mx_cache]. eauto.
  - destruct (check_mx_records env domain _) as [mx' s'] eqn:Hmx.
    rewrite set_cache_mx. unfold ret. intros [= <- <-].
    cbn [mx_cache]. rewrite lookup_insert_eq. eauto.
  - destruct (check_mx_records env domain _) as [mx' s'] eqn:Hmx.
    rewrite set_cache_mx. unfold ret. intros [= <- <-].
    cbn [mx_cache]. rewrite lookup_insert_eq. eauto.
Qed.

(** X3: After the cached MX step of verify_email the MX cache holds the answer under
    the domain and the deliverability cache is untouched; repeating the step while
    that entry is not expired returns the same answer with a cache read and a clock
    read only, so without any DNS query. *)
Theorem cached_mx_check_repeat env domain s mx s1 :
  cached_mx_check env domain s = (mx, s1) ->
  (exists entry, mx_cache s1 !! domain = Some entry /\ value entry = mx) /\
  deliverability_cache s1 = deliverability_cache s /\
  (forall s2,
     mx_cache s2 !! domain = mx_cache s1 !! domain ->
     (forall entry, mx_cache s1 !! domain = Some entry ->
        PrimFloat.ltb (clock env (history s2 ++ [ECacheGet MxCache domain]))
                      (expires_at entry) = true) ->
     cached_mx_check env domain s2 = (mx, after s2 [ECacheGet MxCache domain; EClock])).
Proof.
  intros Hrun.
  assert ((exists entry, mx_cache s1 !! domain = Some entry /\ value entry = mx) /\
          deliverability_cache s1 = deliverability_cache s) as [Hentry Hframe].
  { revert Hrun. unfold cached_mx_check, bind. rewrite get_cached_mx.
    destruct (mx_cache s !! domain) as [entry|] eqn:Hk;
      [destruct (PrimFloat.ltb _ _)|].
    - unfold ret. intros [= <- <-]. cbn [after mx_cache deliverability_cache]. eauto.
    - destruct (check_mx_records env domain _) as [mx' s'] eqn:Hmx.
      apply check_mx_records_effects in Hmx. destruct Hmx as (_ & Hd & _).
      rewrite set_cache_mx. unfold ret. intros [= <- <-].
      cbn [mx_cache deliverability_cache] in *. rewrite lookup_insert_eq. eauto.
    - destruct (check_mx_records env domain _) as [mx' s'] eqn:Hmx.
      apply check_mx_records_effects in Hmx. destruct Hmx as (_ & Hd & _).
      rewrite set_cache_mx. unfold ret. intros [= <- <-].
      cbn [after mx_cache deliverability_cache] in *. rewrite lookup_insert_eq. eauto. }
  split; [exact Hentry|]. split; [exact Hframe|].
  intros s2 Hsame Hfresh. destruct Hentry as (entry & Hk & <-).
  unfold cached_mx_check, bind. rewrite get_cached_mx, Hsame, Hk, (Hfresh _ Hk). reflexivity.
Qed.

Lemma cached_mx_check_repeat_witness :
  cached_mx_check (scripted_env 250 bye true) "example.org"
    (snd (cached_mx_check (scripted_env 250 bye true) "example.org" idle))
  = (fst (cached_mx_check (scripted_env 250 bye true) "example.org" idle),
     after (snd (cached_mx_check (scripted_env 250 bye true) "example.org" idle))
           [ECacheGet MxCache "example.org"; EClock]).
Proof.
  destruct (cached_mx_check_repeat (scripted_env 250 bye true) "example.org" idle _ _
              (surjective_pairing _)) as (_ & _ & H).
  apply H; [reflexivity|].
  intros entry Hentry. vm_compute in Hentry. injection Hentry as <-.
  vm_compute. reflexivity.
Defined.

(** ** [check_mx_records] *)

Lemma insert_by_priority_perm x l : insert_by_priority x l ≡ₚ x :: l.
Proof.
  induction l as [|y l IH]; simpl; [reflexivity|].
  destruct (fst x <? fst y); [reflexivity|].
  rewrite IH. apply Permutation_swap.
Qed.

Lemma fold_insert_perm l : forall acc,
  fold_left (fun acc x => insert_by_priority x acc) l acc ≡ₚ acc ++ l.
Proof.
  induction l as [|x l IH]; intros acc; simpl.
  - rewrite app_nil_r. reflexivity.
  - rewrite IH, insert_by_priority_perm. apply Permutation_middle.
Qed.

Lemma sort_by_priority_perm l : sort_by_priority l ≡ₚ l.
Proof. apply (fold_insert_perm l []). Qed.

Lemma insert_by_priority_sorted x l :
  StronglySorted by_priority l -> StronglySorted by_priority (insert_by_priority x l).
Proof.
  induction 1 as [|y l Hl IH Hy]; simpl.
  - repeat constructor.
  - destruct (Z.ltb_spec (fst x) (fst y)) as [Hlt|Hge].
    + constructor; [constructor; assumption|].
      constructor; [unfold by_priority; lia|].
      eapply Forall_impl; [exact Hy|]. unfold by_priority. intros z Hz. lia.
    + constructor; [exact IH|].
      rewrite insert_by_priority_perm. constructor; [exact Hge | exact Hy].
Qed.

Lemma fold_insert_sorted l : forall acc,
  StronglySorted by_priority acc ->
  StronglySorted by_priority (fold_left (fun acc x => insert_by_priority x acc) l acc).
Proof.
  induction l as [|x l IH]; intros acc Hacc; simpl; [exact Hacc|].
  apply IH, insert_by_priority_sorted, Hacc.
Qed.

Lemma sort_by_priority_sorted l : StronglySorted by_priority (sort_by_priority l).
Proof. apply fold_insert_sorted. constructor. Qed.

Lemma filter_none {A} (P : A -> Prop) `{!forall x, Decision (P x)} (l : list A) :
  Forall (fun x => ~ P x) l -> filter P l = [].
Proof.
  induction 1 as [|x l Hx _ IH]; [reflexivity|].
  rewrite filter_cons. destruct (decide (P x)); [contradiction | exact IH].
Qed.

Lemma insert_by_priority_stable p x l :
  StronglySorted by_priority l ->
  of_priority p (insert_by_priority x l) = of_priority p l ++ of_priority p [x].
Proof.
  unfold of_priority.
  induction 1 as [|y l Hl IH Hy]; simpl; [reflexivity|].
  destruct (Z.ltb_spec (fst x) (fst y)) as [Hlt|Hge].
  - rewrite !filter_cons, filter_nil.
    destruct (decide (fst x = p)) as [Hx|Hx]; [|rewrite app_nil_r; reflexivity].
    destruct (decide (fst y = p)) as [Hyp|Hyp]; [lia|].
    assert (filter (fun z : Z * string => fst z = p) l = []) as ->; [|reflexivity].
    apply filter_none. eapply Forall_impl; [exact Hy|].
    unfold by_priority. intros z Hz. simpl. lia.
  - rewrite (filter_cons _ y (insert_by_priority x l)), (filter_cons _ y l), IH.
    destruct (decide (fst y = p)); reflexivity.
Qed.

Lemma fold_insert_stable p l : forall acc,
  StronglySorted by_priority acc ->
  of_priority p (fold_left (fun acc x => insert_by_priority x acc) l acc)
  = of_priority p acc ++ of_priority p l.
Proof.
  induction l as [|x l IH]; intros acc Hacc; simpl.
  - unfold of_priority. rewrite filter_nil, app_nil_r. reflexivity.
  - rewrite IH by (apply insert_by_priority_sorted, Hacc).
    rewrite insert_by_priority_stable by exact Hacc.
    rewrite <- app_assoc. f_equal. unfold of_priority.
    rewrite !filter_cons, filter_nil.
    destruct (decide (fst x = p)); reflexivity.
Qed.

Lemma sort_by_priority_stable p l : of_priority p (sort_by_priority l) = of_priority p l.
Proof. apply (fold_insert_stable p l []). constructor. Qed.

(** X4: check_mx_records lists the MX records in ascending priority and mx_hosts are
    the hosts of mx_details in that order; when the MX query answers, the result is
    valid, mx_details is a permutation of the answered records with the trailing dots
    of the host names stripped, and records of equal priority keep the order of the
    answer. *)
Theorem check_mx_records_sorted env domain s mx s' :
  check_mx_records env domain s = (mx, s') ->
  StronglySorted by_priority (mx_details mx) /\
  mx_hosts mx = map snd (mx_details mx) /\
  (forall records,
     resolve_mx env (history s ++ [EDnsA domain]) domain = inr records ->
     let answered := map (fun mx => (fst mx, exchange_host (snd mx))) records in
     valid mx = true /\
     mx_details mx ≡ₚ answered /\
     forall p, of_priority p (mx_details mx) = of_priority p answered).
Proof.
  unfold check_mx_records, bind, perform, ret. cbn [history].
  destruct (resolve_mx env _ domain) as [[| |msg]|records] eqn:Hmx;
    try destruct (resolve_a env _ domain);
    intros [= <- <-]; cbn [mx_details mx_hosts valid];
    (split; [| split; [reflexivity|]]);
    try (repeat constructor; fail);
    try (intros ? [=]; fail).
  - apply sort_by_priority_sorted.
  - intros ? [= <-]. split; [reflexivity|]. split.
    + apply sort_by_priority_perm.
    + intros p. apply sort_by_priority_stable.
Qed.

Lemma check_mx_records_sorted_witness :
  StronglySorted by_priority
    (mx_details (fst (check_mx_records (scripted_env 250 bye true) "example.org" idle))) /\
  mx_details (fst (check_mx_records (scripted_env 250 bye true) "example.org" idle))
    ≡ₚ [(20, "mx2.example.org"%string); (10, "mx1.example.org"%string)].
Proof.
  destruct (check_mx_records_sorted (scripted_env 250 bye true) "example.org" idle _ _
              (surjective_pairing _)) as (H1 & _ & H3).
  split; [exact H1|].
  destruct (H3 [(20, "mx2.example.org."%string); (10, "mx1.example.org."%string)] eq_refl)
    as (_ & H & _).
  exact H.
Defined.



(** ** [smtp_handshake]: the policy skips *)

Lemma prefix_app sub post : String.prefix sub (sub +:+ post) = true.
Proof. induction sub as [|c sub IH]; simpl; [destruct post; reflexivity|].
  destruct (ascii_dec c c); [exact IH | contradiction]. Qed.

Lemma prefix_split sub : forall s, String.prefix sub s = true -> exists post, s = sub +:+ post.
Proof.
  induction sub as [|c sub IH]; intros s; simpl.
  - intros _. exists s. reflexivity.
  - destruct s as [|a s]; [discriminate|]. simpl.
    destruct (ascii_dec c a) as [->|]; [|intros H; discriminate H].
    intros H. destruct (IH _ H) as (post & ->). exists post. reflexivity.
Qed.

Lemma contains_cons sub a s :
  PyStr.contains sub (String a s) = String.prefix sub (String a s) || PyStr.contains sub s.
Proof. reflexivity. Qed.

Lemma contains_iff sub s :
  PyStr.contains sub s = true <-> exists pre post, s = pre +:+ sub +:+ post.
Proof.
  split.
  - induction s as [|a s IH].
    + change (PyStr.contains sub EmptyString) with (String.prefix sub EmptyString || false).
      rewrite orb_false_r. intros H. apply prefix_split in H as (post & ->).
      exists EmptyString, post. reflexivity.
    + rewrite contains_cons. intros H. apply orb_true_iff in H as [H|H].
      * apply prefix_split in H as (post & ->). exists EmptyString, post. reflexivity.
      * destruct (IH H) as (pre & post & ->). exists (String a pre), post. reflexivity.
  - intros (pre & post & ->). induction pre as [|a pre IH].
    + change (EmptyString +:+ sub +:+ post) with (sub +:+ post).
      destruct (sub +:+ post) eqn:E.
      * change (PyStr.contains sub EmptyString) with (String.prefix sub EmptyString || false).
        rewrite <- E, prefix_app. reflexivity.
      * rewrite contains_cons, <- E, prefix_app. reflexivity.
    + change (String a pre +:+ sub +:+ post) with (String a (pre +:+ sub +:+ post)).
      rewrite contains_cons, IH. apply orb_true_r.
Qed.

Lemma string_app_assoc (a b c : string) : (a +:+ b) +:+ c = a +:+ (b +:+ c).
Proof.
  induction a as [|x a IH]; [reflexivity|].
  change (String x ((a +:+ b) +:+ c) = String x (a +:+ (b +:+ c))). f_equal. exact IH.
Qed.

Lemma string_app_nil_r (a : string) : a +:+ EmptyString = a.
Proof.
  induction a as [|x a IH]; [reflexivity|].
  change (String x (a +:+ EmptyString) = String x a). f_equal. exact IH.
Qed.

Lemma endswith_split suffix : forall s,
  PyStr.endswith s suffix = true -> exists pre, s = pre +:+ suffix.
Proof.
  induction s as [|a s IH].
  - change (PyStr.endswith EmptyString suffix) with (String.eqb EmptyString suffix || false).
    rewrite orb_false_r. intros H. apply String.eqb_eq in H as <-. exists EmptyString. reflexivity.
  - change (PyStr.endswith (String a s) suffix)
      with (String.eqb (String a s) suffix || PyStr.endswith s suffix).
    intros H. apply orb_true_iff in H as [H|H].
    + apply String.eqb_eq in H as <-. exists EmptyString. reflexivity.
    + destruct (IH H) as (pre & ->). exists (String a pre). reflexivity.
Qed.

Lemma is_blocked_iff domain_lower :
  is_blocked domain_lower = true <->
  exists blocked pre post,
    blocked ∈ smtp_blocked_domains /\ domain_lower = pre +:+ blocked +:+ post.
Proof.
  unfold is_blocked. rewrite existsb_exists. split.
  - intros (blocked & Hin & H). apply list_elem_of_In in Hin.
    apply orb_true_iff in H as [H|H].
    + apply contains_iff in H as (pre & post & ->). eauto 6.
    + apply endswith_split in H as (pre & ->).
      exists blocked, (pre +:+ "."), EmptyString. split; [exact Hin|].
      rewrite string_app_nil_r, string_app_assoc. reflexivity.
  - intros (blocked & pre & post & Hin & ->). exists blocked.
    split; [apply list_elem_of_In, Hin|].
    apply orb_true_iff. left. apply contains_iff. eauto.
Qed.

Lemma is_transactional_iff mx_hosts :
  is_transactional mx_hosts = true <->
  exists host pattern pre post,
    host ∈ take 2 mx_hosts /\ pattern ∈ transactional_patterns /\
    PyStr.lower host = pre +:+ pattern +:+ post.
Proof.
  unfold is_transactional. rewrite existsb_exists. split.
  - intros (host & Hin & H). apply list_elem_of_In in Hin.
    apply existsb_exists in H as (pattern & Hp & H). apply list_elem_of_In in Hp.
    apply contains_iff in H as (pre & post & H). eauto 8.
  - intros (host & pattern & pre & post & Hin & Hp & H). exists host.
    split; [apply list_elem_of_In, Hin|].
    apply existsb_exists. exists pattern. split; [apply list_elem_of_In, Hp|].
    apply contains_iff. eauto.
Qed.

(** X6: smtp_handshake reports skipped exactly when the lower-cased domain contains a
    blocked provider name anywhere as a substring, or the lower-cased name of one of
    the first two MX hosts contains a transactional-service pattern; a skipped probe
    has performed no effect at all, is neither accepted nor rejected and records no MX
    host. *)
Theorem policy_skip env email domain mx_hosts s r s' :
  smtp_handshake env email domain mx_hosts s = (r, s') ->
  (skipped r = true <->
     (exists blocked pre post,
        blocked ∈ smtp_blocked_domains /\ PyStr.lower domain = pre +:+ blocked +:+ post) \/
     (exists host pattern pre post,
        host ∈ take 2 mx_hosts /\ pattern ∈ transactional_patterns /\
        PyStr.lower host = pre +:+ pattern +:+ post)) /\
  (skipped r = true ->
     s' = s /\ accepted r = false /\ rejected r = false /\ mx_used r = None).
Proof.
  rewrite <- is_blocked_iff, <- is_transactional_iff.
  unfold smtp_handshake.
  destruct (is_blocked _) eqn:Hb.
  { unfold ret. intros [= <- <-]. simpl. split; [split|]; auto. }
  destruct (is_transactional _) eqn:Ht.
  { unfold ret. intros [= <- <-]. simpl. split; [split|]; auto. }
  intros Hrun. apply host_loop_ok in Hrun; [|repeat split].
  assert (skipped r = false) as Hs.
  { destruct Hrun as [(Hs & _) | ((_ & _ & Hs) & _)]; exact Hs. }
  rewrite Hs. split; [split|]; [discriminate | intros [H|H]; discriminate H | discriminate].
Qed.

Lemma policy_skip_witness :
  skipped (fst (smtp_handshake (scripted_env 250 bye true) "ann@Welcome.COM" "Welcome.COM"
                  ["mx1.example.org"] idle)) = true /\
  snd (smtp_handshake (scripted_env 250 bye true) "ann@Welcome.COM" "Welcome.COM"
         ["mx1.example.org"] idle) = idle.
Proof.
  destruct (policy_skip (scripted_env 250 bye true) "ann@Welcome.COM" "Welcome.COM"
              ["mx1.example.org"] idle _ _ (surjective_pairing _)) as [Hiff Hio].
  assert (skipped (fst (smtp_handshake (scripted_env 250 bye true) "ann@Welcome.COM"
                          "Welcome.COM" ["mx1.example.org"] idle)) = true) as Hs.
  { apply Hiff. left. exists "me.com"%string, "welco"%string, EmptyString.
    split; [|reflexivity].
    apply (bool_decide_unpack ("me.com"%string ∈ smtp_blocked_domains)). vm_compute. exact I. }
  split; [exact Hs | apply (Hio Hs)].
Defined.

(** ** [smtp_handshake]: what a decided outcome rests on *)

Lemma try_host_return env email host result s r s1 :
  try_host env email host result s = (Return r, s1) ->
  exists h code text,
    history s1 = h ++ [ESmtp host (Rcpt email); ESmtp host Quit] /\
    history s `prefix_of` h /\
    smtp env h host (Rcpt email) = Reply code text /\
    (exists c t, smtp env (h ++ [ESmtp host (Rcpt email)]) host Quit = Reply c t) /\
    interpret code text host result = Return r.
Proof.
  unfold try_host, session, xbind, call, bind, perform, ret, xret.
  repeat match goal with
         | |- context [smtp env ?h ?a ?c] => destruct (smtp env h a c) eqn:?; simpl
         | |- context [if ?b then _ else _] => destruct b eqn:?; simpl
         end;
  intros H; injection H as Ho <-; try discriminate Ho;
  cbn [history];
  (eexists _, _, _; split; [rewrite <- (app_assoc _ [_] [_]); reflexivity|];
   split; [rewrite <- !app_assoc; eexists; reflexivity|];
   split; [eassumption|]; split; [eauto | exact Ho]).
Qed.

Lemma interpret_return code text host result r :
  interpret code text host result = Return r ->
  mx_used r = Some host /\ skipped r = skipped result /\
  ((code = 250 \/ code = 251) /\ accepted r = true /\ rejected r = rejected result \/
   500 <= code < 600 /\ rejected r = true /\ accepted r = accepted result).
Proof.
  unfold interpret.
  repeat case_bool_decide;
    [| | | destruct (code =? 421); [| destruct ((500 <=? code) && (code <? 600)) eqn:E]];
    intros [= <-]; simpl; (split; [reflexivity|]); (split; [reflexivity|]).
  - left. match goal with H : code ∈ _ |- _ =>
      apply elem_of_cons in H as [->|H]; [|apply list_elem_of_singleton in H as ->] end; auto.
  - right. match goal with H : code ∈ [550; 553] |- _ =>
      apply elem_of_cons in H as [->|H]; [|apply list_elem_of_singleton in H as ->] end;
      (split; [lia | auto]).
  - right. apply andb_true_iff in E as [E1 E2]. apply Z.leb_le in E1. apply Z.ltb_lt in E2.
    split; [lia | auto].
Qed.

Lemma host_loop_decided env email hosts : forall result s r s',
  inconclusive result ->
  host_loop env email hosts result s = (r, s') ->
  accepted r = true \/ rejected r = true ->
  exists host result0 s0,
    host ∈ hosts /\ inconclusive result0 /\ history s `prefix_of` history s0 /\
    try_host env email host result0 s0 = (Return r, s').
Proof.
  induction hosts as [|h hosts IH]; intros result s r s' Hinc; simpl host_loop.
  - unfold ret. intros [= <- <-] Hd. exfalso.
    destruct (exhausted_flags result) as (Ea & Er & _). rewrite Ea, Er in Hd.
    destruct Hinc as (Ha & Hr & _). destruct Hd; congruence.
  - unfold bind. destruct (try_host env email h result s) as [o s1] eqn:Ht.
    destruct o as [r1|r1].
    + unfold ret. intros [= <- <-] _. exists h, result, s.
      split; [apply list_elem_of_here|]. split; [exact Hinc|]. split; [reflexivity | exact Ht].
    + intros Hl Hd.
      pose proof (try_host_ok _ _ _ _ _ _ _ Hinc Ht) as Hinc1. simpl in Hinc1.
      apply try_host_events in Ht as (evs & Hh & _).
      destruct (IH _ _ _ _ Hinc1 Hl Hd) as (host & result0 & s0 & Hin & Hi0 & Hpre & Hrun).
      exists host, result0, s0. split; [apply list_elem_of_further, Hin|].
      split; [exact Hi0|]. split; [|exact Hrun].
      etransitivity; [|exact Hpre]. rewrite Hh. eexists. reflexivity.
Qed.

Lemma smtp_handshake_decided env email domain mx_hosts s r s' :
  smtp_handshake env email domain mx_hosts s = (r, s') ->
  accepted r = true \/ rejected r = true ->
  exists host h code text,
    host ∈ take 2 mx_hosts /\ mx_used r = Some host /\
    history s `prefix_of` h /\
    history s' = h ++ [ESmtp host (Rcpt email); ESmtp host Quit] /\
    smtp env h host (Rcpt email) = Reply code text /\
    (exists c t, smtp env (h ++ [ESmtp host (Rcpt email)]) host Quit = Reply c t) /\
    (accepted r = true -> rejected r = false /\ (code = 250 \/ code = 251)) /\
    (rejected r = true -> accepted r = false /\ 500 <= code < 600).
Proof.
  unfold smtp_handshake.
  destruct (is_blocked _).
  { unfold ret. intros [= <- <-] [H|H]; discriminate H. }
  destruct (is_transactional _).
  { unfold ret. intros [= <- <-] [H|H]; discriminate H. }
  intros Hrun Hd.
  assert (inconclusive fresh_result) as Hfresh by (repeat split).
  destruct (host_loop_decided _ _ _ _ _ _ _ Hfresh Hrun Hd)
    as (host & result0 & s0 & Hin & (Ha0 & Hr0 & _) & Hpre & Ht).
  apply try_host_return in Ht as (h & code & text & Hh & Hpre' & Hrcpt & Hquit & Hi).
  apply interpret_return in Hi as (Hmx & _ & Hcase).
  exists host, h, code, text.
  split; [exact Hin|]. split; [exact Hmx|].
  split; [etransitivity; eassumption|]. split; [exact Hh|].
  split; [exact Hrcpt|]. split; [exact Hquit|].
  destruct Hcase as [(Hc & Ha & Hr) | (Hc & Hr & Ha)]; rewrite Ha, Hr, ?Ha0, ?Hr0.
  - split; [auto | discriminate].
  - split; [discriminate | auto].
Qed.

(** X7: An accepted or rejected outcome of smtp_handshake rests on a reply: the run
    ends with RCPT TO for the address and QUIT sent to one of the first two MX hosts,
    that host is mx_used, the QUIT completed, and the reply code to RCPT TO was 250 or
    251 when accepted and in 500..599 when rejected; accepted and rejected exclude
    each other. *)
Theorem decided_probe_sound env email domain mx_hosts s r s' :
  smtp_handshake env email domain mx_hosts s = (r, s') ->
  accepted r = true \/ rejected r = true ->
  exists host h code text,
    host ∈ take 2 mx_hosts /\ mx_used r = Some host /\
    history s `prefix_of` h /\
    history s' = h ++ [ESmtp host (Rcpt email); ESmtp host Quit] /\
    smtp env h host (Rcpt email) = Reply code text /\
    (exists c t, smtp env (h ++ [ESmtp host (Rcpt email)]) host Quit = Reply c t) /\
    (accepted r = true -> rejected r = false /\ (code = 250 \/ code = 251)) /\
    (rejected r = true -> accepted r = false /\ 500 <= code < 600).
Proof. apply smtp_handshake_decided. Qed.

Lemma decided_probe_sound_witness :
  exists host h code text,
    mx_used (fst (smtp_handshake (scripted_env 251 bye true) "bob@example.org" "example.org"
                    ["mx1.example.org"; "mx2.example.org"] idle)) = Some host /\
    smtp (scripted_env 251 bye true) h host (Rcpt "bob@example.org") = Reply code text /\
    (code = 250 \/ code = 251).
Proof.
  destruct (decided_probe_sound (scripted_env 251 bye true) "bob@example.org" "example.org"
              ["mx1.example.org"; "mx2.example.org"] idle _ _ (surjective_pairing _))
    as (host & h & code & text & _ & Hmx & _ & _ & Hrcpt & _ & Hacc & _).
  - left. vm_compute. reflexivity.
  - exists host, h, code, text. split; [exact Hmx|]. split; [exact Hrcpt|].
    apply Hacc. vm_compute. reflexivity.
Defined.

Lemma try_host_mx_used env email host result s o s1 h :
  try_host env email host result s = (o, s1) ->
  mx_used (result_of o) = Some h -> h = host \/ mx_used result = Some h.
Proof.
  unfold try_host, session, xbind, call, bind, perform, ret, xret, interpret,
    inner_except, outer_except.
  repeat match goal with
         | |- context [smtp env ?h ?a ?c] => destruct (smtp env h a c) eqn:?; simpl
         | |- context [if ?b then _ else _] => destruct b eqn:?; simpl
         | |- context [match kind ?e with _ => _ end] => destruct (kind e); simpl
         end;
  intros [= <- <-]; simpl; intros Hm; first [right; exact Hm | left; congruence].
Qed.

Lemma host_loop_mx_used env email hosts : forall result s r s' h,
  host_loop env email hosts result s = (r, s') ->
  mx_used r = Some h -> h ∈ hosts \/ mx_used result = Some h.
Proof.
  induction hosts as [|x hosts IH]; intros result s r s' h; simpl host_loop.
  - unfold ret. intros [= <- <-]. unfold exhausted.
    destruct (error result) as [[|]|]; simpl; auto.
  - unfold bind. destruct (try_host env email x result s) as [o s1] eqn:Ht.
    pose proof (try_host_mx_used _ _ _ _ _ _ _ h Ht) as Hfirst.
    destruct o as [r1|r1]; simpl in Hfirst.
    + unfold ret. intros [= <- <-] Hm. destruct (Hfirst Hm) as [->|]; [left|right; assumption].
      apply list_elem_of_here.
    + intros Hl Hm. destruct (IH _ _ _ _ _ Hl Hm) as [Hin|Hm1].
      * left. apply list_elem_of_further, Hin.
      * destruct (Hfirst Hm1) as [->|]; [left|right; assumption]. apply list_elem_of_here.
Qed.

(** X8: smtp_handshake leaves both caches untouched and performs at most 14 effects,
    all of them SMTP client calls to the first two MX hosts; mx_used, when set, is one
    of these two hosts; with an empty host list it performs no effect and neither
    accepts nor rejects. *)
Theorem smtp_handshake_budget env email domain mx_hosts s r s' :
  smtp_handshake env email domain mx_hosts s = (r, s') ->
  effects (is_smtp_on (take 2 mx_hosts)) 14 s s' /\
  (forall host, mx_used r = Some host -> host ∈ take 2 mx_hosts) /\
  (mx_hosts = [] -> s' = s /\ accepted r = false /\ rejected r = false).
Proof.
  intros Hrun. split; [eapply smtp_handshake_effects; exact Hrun|].
  revert Hrun. unfold smtp_handshake.
  destruct (is_blocked _).
  { unfold ret. intros [= <- <-]. simpl. split; [discriminate | auto]. }
  destruct (is_transactional _).
  { unfold ret. intros [= <- <-]. simpl. split; [discriminate | auto]. }
  intros Hrun. split.
  - intros host Hm. destruct (host_loop_mx_used _ _ _ _ _ _ _ _ Hrun Hm) as [H|H];
      [exact H | discriminate H].
  - intros ->. simpl in Hrun. unfold ret in Hrun. injection Hrun as <- <-. auto.
Qed.

Lemma smtp_handshake_budget_witness :
  effects (is_smtp_on ["mx1.example.org"; "mx2.example.org"]%string) 14 idle
    (snd (smtp_handshake (scripted_env 450 bye true) "bob@example.org" "example.org"
            ["mx1.example.org"; "mx2.example.org"; "mx3.example.org"] idle)).
Proof.
  destruct (smtp_handshake_budget (scripted_env 450 bye true) "bob@example.org" "example.org"
              ["mx1.example.org"; "mx2.example.org"; "mx3.example.org"] idle _ _
              (surjective_pairing _)) as (H & _).
  exact H.
Defined.

(** ** [check_deliverability] *)

Lemma scan_fold prefix records : forall acc,
  let res := fold_left (fun acc txt => if PyStr.startswith txt prefix then (true, Some txt) else acc)
                       records acc in
  (fst res = true <->
     fst acc = true \/ exists txt, txt ∈ records /\ PyStr.startswith txt prefix = true) /\
  (forall txt, snd res = Some txt ->
     snd acc = Some txt \/ (txt ∈ records /\ PyStr.startswith txt prefix = true)) /\
  ((fst acc = true <-> is_Some (snd acc)) -> (fst res = true <-> is_Some (snd res))).
Proof.
  induction records as [|x records IH]; intros acc; simpl.
  - split; [|split; auto]. split; [auto|]. intros [H|(txt & Hin & _)]; [exact H|].
    inversion Hin.
  - destruct (IH (if PyStr.startswith x prefix then (true, Some x) else acc)) as (H1 & H2 & H3).
    split; [|split].
    + rewrite H1. destruct (PyStr.startswith x prefix) eqn:E; simpl.
      * split; [|auto]. intros _. right. exists x. split; [apply list_elem_of_here | exact E].
      * split.
        -- intros [H|(txt & Hin & Ht)]; [auto|]. right. exists txt.
           split; [apply list_elem_of_further, Hin | exact Ht].
        -- intros [H|(txt & Hin & Ht)]; [auto|]. right.
           apply elem_of_cons in Hin as [->|Hin]; [congruence|]. eauto.
    + intros txt Ht. destruct (H2 _ Ht) as [Hacc|(Hin & Hp)].
      * destruct (PyStr.startswith x prefix) eqn:E; simpl in Hacc; [|auto].
        injection Hacc as <-. right. split; [apply list_elem_of_here | exact E].
      * right. split; [apply list_elem_of_further, Hin | exact Hp].
    + intros Hacc. apply H3. destruct (PyStr.startswith x prefix); simpl; [|exact Hacc].
      split; eauto.
Qed.

Lemma scan_txt_spec prefix records :
  (fst (scan_txt prefix records) = true <->
     exists txt, txt ∈ records /\ PyStr.startswith txt prefix = true) /\
  (forall txt, snd (scan_txt prefix records) = Some txt ->
     txt ∈ records /\ PyStr.startswith txt prefix = true) /\
  (fst (scan_txt prefix records) = true <-> is_Some (snd (scan_txt prefix records))).
Proof.
  destruct (scan_fold prefix records (false, None)) as (H1 & H2 & H3).
  unfold scan_txt. split; [|split].
  - rewrite H1. simpl. split; [intros [H|H]; [discriminate H | exact H] | auto].
  - intros txt Ht. destruct (H2 _ Ht) as [H|H]; [discriminate H | exact H].
  - apply H3. simpl. split; [discriminate | intros [x H]; discriminate H].
Qed.

Lemma lookup_txt_spec env prefix name s flag record s' :
  lookup_txt env prefix name s = (flag, record, s') ->
  s' = after s [EDnsTXT name] /\ txt_report env prefix name (history s) flag record.
Proof.
  unfold lookup_txt, bind, perform, ret, txt_report.
  destruct (resolve_txt env (history s) name) as [e|records] eqn:E.
  - intros [= <- <- <-]. split; [reflexivity|]. split; [|split].
    + split; [discriminate | intros [x H]; discriminate H].
    + split; [discriminate | intros (r & t & H & _); discriminate H].
    + discriminate.
  - destruct (scan_txt_spec prefix records) as (H1 & H2 & H3).
    destruct (scan_txt prefix records) as [b o]. simpl in *.
    intros [= <- <- <-]. split; [reflexivity|]. split; [exact H3|]. split.
    + rewrite H1. split.
      * intros (txt & Hin & Hp). eauto.
      * intros (r & txt & [= <-] & Hin & Hp). eauto.
    + intros txt Ht. apply (H2 _ Ht).
Qed.

Lemma find_dkim_spec env domain selectors : forall s found s',
  find_dkim env selectors domain s = (found, s') ->
  exists n,
    (n <= length selectors)%nat /\
    s' = after s (map (dkim_lookup domain) (take n selectors)) /\
    (found = false -> n = length selectors) /\
    (found = true ->
       exists tried selector records,
         take n selectors = tried ++ [selector] /\
         resolve_txt env (history s ++ map (dkim_lookup domain) tried)
                     (dkim_name selector domain) = inr records).
Proof.
  induction selectors as [|sel rest IH]; intros s found s'; simpl find_dkim.
  - unfold ret. intros [= <- <-]. exists 0%nat. split; [reflexivity|].
    split; [unfold after; simpl; rewrite app_nil_r; destruct s; reflexivity|].
    split; [reflexivity | discriminate].
  - unfold bind, perform. fold (dkim_name sel domain).
    destruct (resolve_txt env (history s) (dkim_name sel domain)) as [e|records] eqn:E.
    + intros Hrest. apply IH in Hrest as (n & Hn & -> & Hfalse & Htrue).
      exists (S n). split; [simpl; lia|].
      split; [unfold after; simpl; rewrite <- app_assoc; reflexivity|].
      split; [intros H; simpl; f_equal; apply Hfalse, H|].
      intros H. destruct (Htrue H) as (tried & selector & records & Htake & Hres).
      exists (sel :: tried), selector, records. simpl. rewrite Htake.
      split; [reflexivity|]. simpl in Hres. rewrite <- app_assoc in Hres. exact Hres.
    + unfold ret. intros [= <- <-]. exists 1%nat. split; [simpl; lia|].
      split; [unfold after; simpl; rewrite ?take_0; reflexivity|].
      split; [discriminate|]. intros _. exists [], sel, records.
      simpl. rewrite ?take_0, app_nil_r. auto.
Qed.



(** ** [detect_catch_all] *)

Lemma detect_catch_all_effects env domain mx_hosts s ca s' :
  detect_catch_all env domain mx_hosts s = (ca, s') ->
  effects (is_catch_all_event (take 2 mx_hosts)) 15 s s'.
Proof.
  unfold detect_catch_all, bind.
  match goal with
  | |- context [perform ?e ?a s] =>
      pose proof (effects_perform (is_catch_all_event (take 2 mx_hosts)) e a s
                    (or_introl eq_refl)) as Hp;
      destruct (perform e a s) as [random_string s1]
  end.
  simpl in Hp.
  destruct (smtp_handshake env _ domain mx_hosts s1) as [r s2] eqn:Hprobe.
  unfold ret. intros [= <- <-].
  apply smtp_handshake_effects in Hprobe.
  change 15%nat with (1 + 14)%nat. eapply effects_trans; [exact Hp|].
  eapply effects_weaken; [| |exact Hprobe]; [|lia].
  intros ev H. right. exact H.
Qed.

(** X10: detect_catch_all tests the address made of the random local part and the
    domain and reports it in test_email, with skipped false; it draws one random
    string and then performs at most 14 SMTP calls to the first two MX hosts, touching
    no cache; it reports a catch-all only when one of these hosts answered RCPT TO for
    the random address with 250 or 251. *)
Theorem catch_all_sound env domain mx_hosts s ca s' :
  detect_catch_all env domain mx_hosts s = (ca, s') ->
  let probe := random_local env (history s) +:+ "@" +:+ domain in
  test_email ca = Some probe /\ c_skipped ca = false /\
  effects (is_catch_all_event (take 2 mx_hosts)) 15 s s' /\
  (is_catchall ca = true ->
     exists host h code text,
       host ∈ take 2 mx_hosts /\
       (history s ++ [ERandom]) `prefix_of` h /\
       history s' = h ++ [ESmtp host (Rcpt probe); ESmtp host Quit] /\
       smtp env h host (Rcpt probe) = Reply code text /\ (code = 250 \/ code = 251)).
Proof.
  intros Hrun probe.
  split; [|split; [|split; [eapply detect_catch_all_effects; exact Hrun|]]];
    revert Hrun; unfold detect_catch_all, bind, perform;
    fold probe;
    destruct (smtp_handshake env probe domain mx_hosts _) as [r s2] eqn:Hprobe;
    unfold ret; intros [= <- <-]; try reflexivity.
  cbn [is_catchall]. intros Hacc.
  destruct (smtp_handshake_decided _ _ _ _ _ _ _ Hprobe (or_introl Hacc))
    as (host & h & code & text & Hin & _ & Hpre & Hh & Hrcpt & _ & Hcode & _).
  exists host, h, code, text. repeat split; try assumption. apply Hcode, Hacc.
Qed.

Lemma catch_all_sound_witness :
  test_email (fst (detect_catch_all (scripted_env 250 bye true) "example.org"
                     ["mx1.example.org"] idle))
  = Some "k3x9q0zt7m2w5b8@example.org"%string.
Proof.
  destruct (catch_all_sound (scripted_env 250 bye true) "example.org" ["mx1.example.org"]
              idle _ _ (surjective_pairing _)) as (H & _).
  exact H.
Defined.

(** ** [calculate_confidence]: range *)

Lemma confidence_table_spec check :
  confidence_table check = true ->
  forall smtp ca mx d mode, check (calculate_confidence smtp ca mx d mode) = true.
Proof.
  intros T smtp ca mx d mode. rewrite calculate_confidence_flags.
  unfold confidence_table in T.
  pick_flag T (accepted smtp). pick_flag T (rejected smtp). pick_flag T (skipped smtp).
  pick_flag T (is_catchall ca). pick_flag T (valid mx).
  pick_flag T (spf d). pick_flag T (dkim d). pick_flag T (dmarc d).
  pick_flag T (String.eqb mode "aggressive"). exact T.
Qed.

Lemma table_range :
  confidence_table (fun c => PrimFloat.leb 0 c && PrimFloat.leb c 1 && is_hundredth c) = true.
Proof. vm_compute. reflexivity. Qed.

(** X11: For every probe outcome, catch-all result, MX result, deliverability record
    and mode, calculate_confidence returns a score between 0 and 1 that is one of the
    hundredths 0.00, 0.01, ..., 1.00. *)
Theorem confidence_range smtp ca mx d mode :
  PrimFloat.leb 0 (calculate_confidence smtp ca mx d mode) = true /\
  PrimFloat.leb (calculate_confidence smtp ca mx d mode) 1 = true /\
  is_hundredth (calculate_confidence smtp ca mx d mode) = true.
Proof.
  pose proof (confidence_table_spec _ table_range smtp ca mx d mode) as H.
  cbv beta in H. apply andb_true_iff in H as [H H3]. apply andb_true_iff in H as [H1 H2].
  auto.
Qed.

(** ** [verify_email]: the stages of a run *)

Lemma verify_email_run env email fast_mode mode ic s r s' :
  verify_email env email fast_mode mode ic s = (r, s') ->
  exists v, r = inr v /\ verify_run env email fast_mode mode ic s v s'.
Proof.
  unfold verify_email, verify_email_with.
  destruct (PyStr.is_empty email || negb (PyStr.has_char "@" email)) eqn:Hfmt.
  { unfold xret, ret. intros [= <- <-]. eexists. split; [reflexivity|].
    apply Malformed. exact Hfmt. }
  apply orb_false_elim in Hfmt. destruct Hfmt as [_ Hat].
  apply negb_false_iff in Hat. rewrite <- has_char_lower in Hat.
  destruct (split1_has_char _ _ Hat) as (l & domain & Hsplit). rewrite Hsplit.
  unfold bind at 1.
  destruct (cached_mx_check env domain s) as [mx s1] eqn:Hmx.
  destruct (valid mx) eqn:Hvalid; simpl.
  2:{ unfold xret, ret. intros [= <- <-]. eexists. split; [reflexivity|].
      eapply NoMx; eauto. }
  unfold bind at 1.
  destruct (smtp_handshake env email domain (mx_hosts mx) s1) as [smtp_r s2] eqn:Hprobe.
  unfold bind at 1.
  destruct (cached_deliverability env domain s2) as [d s3] eqn:Hd.
  unfold bind at 1.
  fold (catch_all_stage env fast_mode domain (mx_hosts mx)).
  destruct (catch_all_stage env fast_mode domain (mx_hosts mx) s3) as [ca s4] eqn:Hca.
  unfold bind at 1.
  destruct (run_internet_check env email ic s4) as [ic' s5] eqn:Hic.
  unfold DOMAIN_CONFIDENCE_OVERRIDES. rewrite lookup_empty. cbn [apply_override].
  destruct (determine_status _ _ _ _ _) as [[st rs] cf] eqn:Hverdict.
  unfold xret, ret. intros [= <- <-]. eexists. split; [reflexivity|].
  eapply Full; eauto.
Qed.

(** ** [verify_email]: the verdict *)

Lemma verdict_flags smtp ca mx d mode status reason confidence :
  valid mx = true ->
  determine_status smtp ca mx d (calculate_confidence smtp ca mx d mode)
    = (status, reason, confidence) ->
  verdict_of_flags (accepted smtp) (rejected smtp) (skipped smtp) (is_catchall ca)
    (spf d) (dkim d) (dmarc d) (String.eqb mode "aggressive") = (status, confidence).
Proof.
  intros Hv. rewrite calculate_confidence_flags, Hv.
  unfold verdict_of_flags, determine_status. rewrite Hv.
  cbn [skipped accepted rejected smtp_flags is_catchall catch_all_flag valid mx_flag
       spf dmarc deliverability_flags].
  destruct (skipped smtp), (accepted smtp), (rejected smtp), (is_catchall ca),
    (spf d || dmarc d); cbn [andb]; intros [= <- _ <-]; reflexivity.
Qed.

Lemma outcome_one r :
  policy_skipped r \/ decided r \/ (inconclusive r /\ has_reason r) ->
  one_outcome (accepted r) (rejected r) (skipped r) = true.
Proof.
  unfold one_outcome.
  intros [(-> & -> & -> & _) | [(-> & [[-> ->] | [-> ->]]) | ((-> & -> & ->) & _)]];
    reflexivity.
Qed.

Lemma verdict_table_spec check :
  verdict_table check = true ->
  forall smtp ca mx d mode status reason confidence,
    valid mx = true ->
    policy_skipped smtp \/ decided smtp \/ (inconclusive smtp /\ has_reason smtp) ->
    determine_status smtp ca mx d (calculate_confidence smtp ca mx d mode)
      = (status, reason, confidence) ->
    check (accepted smtp) (rejected smtp) (is_catchall ca) (spf d) (dmarc d)
          (String.eqb mode "aggressive") status confidence = true.
Proof.
  intros T smtp ca mx d mode status reason confidence Hv Hout Hverdict.
  apply verdict_flags in Hverdict; [|exact Hv]. apply outcome_one in Hout.
  unfold verdict_table in T.
  pick_flag T (accepted smtp). pick_flag T (rejected smtp). pick_flag T (skipped smtp).
  pick_flag T (is_catchall ca).
  pick_flag T (spf d). pick_flag T (dkim d). pick_flag T (dmarc d).
  pick_flag T (String.eqb mode "aggressive").
  rewrite Hout, Hverdict in T. exact T.
Qed.

Lemma table_verdict : verdict_table verdict_check = true.
Proof. vm_compute. reflexivity. Qed.

Lemma catch_all_stage_fast env domain hosts s ca s' :
  catch_all_stage env true domain hosts s = (ca, s') ->
  s' = s /\ is_catchall ca = false /\ c_skipped ca = true /\ test_email ca = None.
Proof. unfold catch_all_stage, ret. intros [= <- <-]. auto. Qed.

Lemma run_verdict env email fast_mode mode ic s v s' :
  verify_run env email fast_mode mode ic s v s' ->
  (smtp_check (evidence v) = None /\ status v = "invalid"%string /\
   confidence v = 0.0%float) \/
  (exists r ca d,
     smtp_check (evidence v) = Some r /\ catch_all_of (evidence v) = Some ca /\
     deliverability_of (evidence v) = Some d /\
     (fast_mode = true -> is_catchall ca = false) /\
     verdict_check (accepted r) (rejected r) (is_catchall ca) (spf d) (dmarc d)
       (String.eqb (normalize_mode mode) "aggressive") (status v) (confidence v) = true).
Proof.
  intros [Hfmt | l domain mx s1 Hsplit Hmx Hvalid
               | l domain mx s1 r s2 d s3 ca s4 ic' s5 st rs cf
                 Hsplit Hmx Hvalid Hprobe Hd Hca Hic Hverdict];
    [left; simpl; auto | left; simpl; auto |].
  right. exists r, ca, (with_skipped_false d). simpl.
  split; [reflexivity|]. split; [reflexivity|]. split; [reflexivity|]. split.
  - intros ->. apply catch_all_stage_fast in Hca. apply Hca.
  - apply smtp_handshake_outcome in Hprobe.
    exact (verdict_table_spec _ table_verdict _ _ _ _ _ _ _ _ Hvalid Hprobe Hverdict).
Qed.

Lemma implb_status status name b :
  implb (status_is status name) b = true -> status = name -> b = true.
Proof. unfold status_is. intros H ->. rewrite String.eqb_refl in H. exact H. Qed.

Lemma verdict_check_spec a r c x z g status confidence :
  verdict_check a r c x z g status confidence = true ->
  status ∈ statuses /\
  PrimFloat.leb 0 confidence = true /\ PrimFloat.leb confidence 1 = true /\
  (status = "invalid"%string <-> PrimFloat.eqb confidence 0 = true) /\
  (status = "invalid"%string -> r = true /\ a = false) /\
  (status = "valid"%string ->
     a = true /\ c = false /\ PrimFloat.leb 0.85 confidence = true) /\
  (status = "catch-all"%string ->
     a = true /\ c = true /\ PrimFloat.leb 0.7 confidence = true) /\
  (status = "likely_valid"%string ->
     a = false /\ r = false /\ x || z = true /\ PrimFloat.leb confidence 0.75 = true) /\
  (status = "unknown"%string -> a = false /\ r = false /\ x || z = false).
Proof.
  unfold verdict_check. intros H.
  apply andb_true_iff in H as [H Hunknown]. apply andb_true_iff in H as [H Hlikely].
  apply andb_true_iff in H as [H Hcatch]. apply andb_true_iff in H as [H Hvalid].
  apply andb_true_iff in H as [H Hinvalid]. apply andb_true_iff in H as [H Hzero].
  apply andb_true_iff in H as [H Hle1]. apply andb_true_iff in H as [Hin Hle0].
  apply bool_decide_eq_true in Hin. apply Bool.eqb_prop in Hzero.
  split; [exact Hin|]. split; [exact Hle0|]. split; [exact Hle1|].
  split; [rewrite <- Hzero; unfold status_is; symmetry; apply String.eqb_eq|].
  split; [|split; [|split; [|split]]]; intros E.
  - apply (implb_status _ _ _ Hinvalid) in E. apply andb_true_iff in E as [-> E].
    apply negb_true_iff in E. auto.
  - apply (implb_status _ _ _ Hvalid) in E. apply andb_true_iff in E as [E E3].
    apply andb_true_iff in E as [-> E]. apply negb_true_iff in E. auto.
  - apply (implb_status _ _ _ Hcatch) in E. apply andb_true_iff in E as [E E3].
    apply andb_true_iff in E as [-> ->]. auto.
  - apply (implb_status _ _ _ Hlikely) in E. apply andb_true_iff in E as [E E4].
    apply andb_true_iff in E as [E E3]. apply andb_true_iff in E as [E1 E2].
    apply negb_true_iff in E1, E2. auto.
  - apply (implb_status _ _ _ Hunknown) in E. apply andb_true_iff in E as [E E3].
    apply andb_true_iff in E as [E1 E2]. apply negb_true_iff in E1, E2, E3. auto.
Qed.



(** X13: In a result of verify_email the status is invalid exactly when the confidence
    is 0; valid comes with confidence at least 0.85 and catch-all with at least 0.7,
    both only after an accepted probe, and catch-all never in fast mode; likely_valid
    comes with confidence at most 0.75; likely_valid and unknown come only with a
    probe that neither accepted nor rejected. *)
Theorem verdict_bands env address fast_mode mode ic s v s' :
  verify_email env address fast_mode mode ic s = (inr v, s') ->
  (status v = "invalid"%string <-> PrimFloat.eqb (confidence v) 0 = true) /\
  (status v = "valid"%string -> PrimFloat.leb 0.85 (confidence v) = true) /\
  (status v = "catch-all"%string ->
     fast_mode = false /\ PrimFloat.leb 0.7 (confidence v) = true) /\
  (status v = "likely_valid"%string -> PrimFloat.leb (confidence v) 0.75 = true) /\
  (status v = "valid"%string \/ status v = "catch-all"%string ->
     exists r, smtp_check (evidence v) = Some r /\ accepted r = true) /\
  (status v = "likely_valid"%string \/ status v = "unknown"%string ->
     exists r, smtp_check (evidence v) = Some r /\ accepted r = false /\ rejected r = false).
Proof.
  intros Hrun. apply verify_email_run in Hrun as (v' & [= <-] & Hrun).
  apply run_verdict in Hrun as [(_ & Hs & Hc) | (r & ca & d & Hr & _ & _ & Hfast & Hcheck)].
  - rewrite Hs, Hc. split; [split; reflexivity|].
    repeat split; try discriminate; intros [H|H]; discriminate H.
  - apply verdict_check_spec in Hcheck
      as (_ & _ & _ & Hzero & _ & Hvalid & Hcatch & Hlikely & Hunknown).
    split; [exact Hzero|]. split; [intros E; apply (Hvalid E)|].
    split; [|split; [intros E; apply (Hlikely E)|split]].
    + intros E. destruct (Hcatch E) as (_ & Hc & Hle). split; [|exact Hle].
      destruct fast_mode; [|reflexivity]. rewrite Hfast in Hc by reflexivity. discriminate Hc.
    + intros [E|E]; exists r; (split; [exact Hr|]); [apply (Hvalid E) | apply (Hcatch E)].
    + intros [E|E]; exists r; (split; [exact Hr|]);
        [destruct (Hlikely E) as (? & ? & _) | destruct (Hunknown E) as (? & ? & _)]; auto.
Qed.

Lemma verdict_bands_witness :
  exists v s',
    verify_email (scripted_env 250 bye true) "bob@example.org" true "balanced" false idle
      = (inr v, s') /\
    status v = "valid"%string /\
    PrimFloat.leb 0.85 (confidence v) = true.
Proof.
  eexists _, _. split; [vm_compute; reflexivity|]. split; [reflexivity|].
  edestruct (verdict_bands (scripted_env 250 bye true) "bob@example.org" true "balanced"
               false idle) as (_ & H & _); [vm_compute; reflexivity|].
  apply H. reflexivity.
Defined.

(** ** [verify_email]: footprint *)

Lemma emits_refl P s : emits P s s.
Proof. exists []. split; [symmetry; apply app_nil_r | constructor]. Qed.

Lemma emits_trans P s1 s2 s3 : emits P s1 s2 -> emits P s2 s3 -> emits P s1 s3.
Proof.
  intros (e1 & H1 & F1) (e2 & H2 & F2). exists (e1 ++ e2).
  split; [rewrite H2, H1; symmetry; apply app_assoc | apply Forall_app; auto].
Qed.

Lemma emits_weaken (P Q : event -> Prop) s s' :
  (forall ev, P ev -> Q ev) -> emits P s s' -> emits Q s s'.
Proof.
  intros HPQ (evs & H & F). exists evs. split; [exact H|].
  eapply Forall_impl; [exact F | exact HPQ].
Qed.

Lemma effects_emits P n s s' : effects P n s s' -> emits P s s'.
Proof. intros (_ & _ & evs & H & F & _). exists evs. auto. Qed.

Lemma effects_same_elsewhere P n key s s' : effects P n s s' -> same_elsewhere key s s'.
Proof. intros (Hm & Hd & _) k _. rewrite Hm, Hd. auto. Qed.

Lemma same_elsewhere_trans key s1 s2 s3 :
  same_elsewhere key s1 s2 -> same_elsewhere key s2 s3 -> same_elsewhere key s1 s3.
Proof.
  intros H1 H2 k Hk. destruct (H1 k Hk) as [<- <-]. apply (H2 k Hk).
Qed.

Lemma emits_after P s evs : Forall P evs -> emits P s (after s evs).
Proof. intros F. exists evs. auto. Qed.

Lemma kind_get c k : exists kind, ECacheGet c k = kind c k /\ kind ∈ [ECacheGet; ECachePop; ECacheSet].
Proof. exists ECacheGet. split; [reflexivity | apply list_elem_of_here]. Qed.

Lemma kind_pop c k : exists kind, ECachePop c k = kind c k /\ kind ∈ [ECacheGet; ECachePop; ECacheSet].
Proof. exists ECachePop. split; [reflexivity | apply list_elem_of_further, list_elem_of_here]. Qed.

Lemma kind_set c k : exists kind, ECacheSet c k = kind c k /\ kind ∈ [ECacheGet; ECachePop; ECacheSet].
Proof.
  exists ECacheSet. split; [reflexivity | do 2 apply list_elem_of_further; apply list_elem_of_here].
Qed.

Ltac stage_event :=
  first [ left; reflexivity
        | right; left; first [apply kind_get | apply kind_pop | apply kind_set]
        | right; right; unfold is_mx_lookup; auto ].

Lemma cached_mx_check_footprint env domain s mx s1 :
  cached_mx_check env domain s = (mx, s1) ->
  emits (mx_stage_event domain) s s1 /\ same_elsewhere domain s s1 /\
  deliverability_cache s1 = deliverability_cache s.
Proof.
  unfold cached_mx_check, bind. rewrite get_cached_mx.
  assert (forall t t', (forall k, k <> domain -> mx_cache t' !! k = mx_cache t !! k) ->
            deliverability_cache t' = deliverability_cache t -> same_elsewhere domain t t')
    as Hsame.
  { intros t t' Hm Hd k Hk. rewrite Hd. auto. }
  assert (forall evs, Forall (mx_stage_event domain) evs ->
            forall mx' t' t, check_mx_records env domain t = (mx', t') ->
            history t = history s ++ evs ->
            emits (mx_stage_event domain) s
              (snd (_set_cache env MxCache mx_cache set_mx_cache domain mx' t'))) as Hmiss.
  { intros evs Hevs mx' t' t Hmx Ht. apply check_mx_records_effects in Hmx.
    eapply emits_trans; [exists evs; split; [exact Ht | exact Hevs]|]. eapply emits_trans.
    - eapply emits_weaken; [|eapply effects_emits; exact Hmx].
      intros ev H. right. right. exact H.
    - rewrite set_cache_mx. cbn [snd].
      exists [EClock; ECacheSet MxCache domain]. split; [reflexivity|].
      forall_events stage_event. }
  destruct (mx_cache s !! domain) as [entry|] eqn:Hk; [destruct (PrimFloat.ltb _ _)|].
  - unfold ret. intros [= <- <-]. split; [|split; [|reflexivity]].
    + apply emits_after. forall_events stage_event.
    + intros k _. auto.
  - destruct (check_mx_records env domain _) as [mx' t'] eqn:Hmx.
    assert (Forall (mx_stage_event domain)
              [ECacheGet MxCache domain; EClock; ECachePop MxCache domain]) as Hevs
      by forall_events stage_event.
    pose proof (Hmiss _ Hevs _ _ _ Hmx eq_refl) as Hem.
    apply check_mx_records_effects in Hmx as (Hm & Hd & _).
    rewrite set_cache_mx in *. unfold ret. intros [= <- <-].
    cbn [snd mx_cache deliverability_cache] in *.
    split; [exact Hem|]. split; [|exact Hd].
    apply Hsame; [|exact Hd]. intros k Hne. cbn [mx_cache].
    rewrite lookup_insert_ne by congruence. rewrite Hm. apply lookup_delete_ne. congruence.
  - destruct (check_mx_records env domain _) as [mx' t'] eqn:Hmx.
    assert (Forall (mx_stage_event domain) [ECacheGet MxCache domain]) as Hevs
      by forall_events stage_event.
    pose proof (Hmiss _ Hevs _ _ _ Hmx eq_refl) as Hem.
    apply check_mx_records_effects in Hmx as (Hm & Hd & _).
    rewrite set_cache_mx in *. unfold ret. intros [= <- <-].
    cbn [snd mx_cache deliverability_cache after] in *.
    split; [exact Hem|]. split; [|exact Hd].
    apply Hsame; [|exact Hd]. intros k Hne. cbn [mx_cache].
    rewrite lookup_insert_ne by congruence. rewrite Hm. reflexivity.
Qed.

Lemma endswith_refl s : PyStr.endswith s s = true.
Proof. apply (endswith_app EmptyString s). Qed.

Lemma endswith_app2 a b c : PyStr.endswith (a +:+ b +:+ c) c = true.
Proof. rewrite <- string_app_assoc. apply endswith_app. Qed.

Lemma check_deliverability_footprint env domain s d s' :
  check_deliverability env domain s = (d, s') ->
  effects (is_txt_lookup_of domain) 8 s s'.
Proof.
  unfold check_deliverability, bind.
  destruct (lookup_txt env "v=spf1" domain s) as [[spf spf_record] s1] eqn:H1.
  destruct (lookup_txt env "v=DMARC1" _ s1) as [[dmarc dmarc_record] s2] eqn:H2.
  destruct (find_dkim env common_selectors domain s2) as [dkim s3] eqn:H3.
  unfold ret. intros [= <- <-].
  apply lookup_txt_spec in H1 as [-> _]. apply lookup_txt_spec in H2 as [-> _].
  apply find_dkim_spec in H3 as (n & Hn & -> & _).
  change 8%nat with (1 + (1 + 6))%nat.
  eapply effects_trans; [|eapply effects_trans]; apply effects_after.
  - forall_events ltac:(eexists; split; [reflexivity | apply endswith_refl]).
  - reflexivity.
  - forall_events ltac:(eexists; split; [reflexivity | apply endswith_app]).
  - reflexivity.
  - apply Forall_forall. intros ev Hin. apply list_elem_of_fmap in Hin as (sel & -> & _). eexists. split; [reflexivity|]. apply endswith_app2.
  - rewrite length_map, length_take. simpl in Hn. lia.
Qed.

Ltac txt_stage_event :=
  first [ left; reflexivity
        | right; left; first [apply kind_get | apply kind_pop | apply kind_set] ].

Lemma cached_deliverability_footprint env domain s d s1 :
  cached_deliverability env domain s = (d, s1) ->
  emits (deliverability_stage_event domain) s s1 /\ same_elsewhere domain s s1 /\
  mx_cache s1 = mx_cache s /\
  exists entry, deliverability_cache s1 !! domain = Some entry /\ value entry = d.
Proof.
  unfold cached_deliverability, bind. rewrite get_cached_deliverability.
  assert (forall t t',
            (forall k, k <> domain ->
               deliverability_cache t' !! k = deliverability_cache t !! k) ->
            mx_cache t' = mx_cache t -> same_elsewhere domain t t') as Hsame.
  { intros t t' Hd Hm k Hk. rewrite Hm. auto. }
  assert (forall evs, Forall (deliverability_stage_event domain) evs ->
            forall d' t' t, check_deliverability env domain t = (d', t') ->
            history t = history s ++ evs ->
            emits (deliverability_stage_event domain) s
              (snd (_set_cache env DeliverabilityCache deliverability_cache
                      set_deliverability_cache domain d' t'))) as Hmiss.
  { intros evs Hevs d' t' t Hd Ht. apply check_deliverability_footprint in Hd.
    eapply emits_trans; [exists evs; split; [exact Ht | exact Hevs]|]. eapply emits_trans.
    - eapply emits_weaken; [|eapply effects_emits; exact Hd].
      intros ev H. right. right. exact H.
    - rewrite set_cache_deliverability. cbn [snd].
      exists [EClock; ECacheSet DeliverabilityCache domain]. split; [reflexivity|].
      forall_events txt_stage_event. }
  destruct (deliverability_cache s !! domain) as [entry|] eqn:Hk;
    [destruct (PrimFloat.ltb _ _)|].
  - unfold ret. intros [= <- <-]. split; [|split; [|split; [reflexivity|]]].
    + apply emits_after. forall_events txt_stage_event.
    + intros k _. auto.
    + cbn [after deliverability_cache]. eauto.
  - destruct (check_deliverability env domain _) as [d' t'] eqn:Hd.
    assert (Forall (deliverability_stage_event domain)
              [ECacheGet DeliverabilityCache domain; EClock;
               ECachePop DeliverabilityCache domain]) as Hevs
      by forall_events txt_stage_event.
    pose proof (Hmiss _ Hevs _ _ _ Hd eq_refl) as Hem.
    apply check_deliverability_footprint in Hd as (Hm & Hdc & _).
    rewrite set_cache_deliverability in *. unfold ret. intros [= <- <-].
    cbn [snd mx_cache deliverability_cache] in *.
    split; [exact Hem|]. split; [|split; [exact Hm|]].
    + apply Hsame; [|exact Hm]. intros k Hne. cbn [deliverability_cache].
      rewrite lookup_insert_ne by congruence. rewrite Hdc. apply lookup_delete_ne. congruence.
    + rewrite lookup_insert_eq. eauto.
  - destruct (check_deliverability env domain _) as [d' t'] eqn:Hd.
    assert (Forall (deliverability_stage_event domain)
              [ECacheGet DeliverabilityCache domain]) as Hevs
      by forall_events txt_stage_event.
    pose proof (Hmiss _ Hevs _ _ _ Hd eq_refl) as Hem.
    apply check_deliverability_footprint in Hd as (Hm & Hdc & _).
    rewrite set_cache_deliverability in *. unfold ret. intros [= <- <-].
    cbn [snd mx_cache deliverability_cache after] in *.
    split; [exact Hem|]. split; [|split; [exact Hm|]].
    + apply Hsame; [|exact Hm]. intros k Hne. cbn [deliverability_cache].
      rewrite lookup_insert_ne by congruence. rewrite Hdc. reflexivity.
    + rewrite lookup_insert_eq. eauto.
Qed.

Lemma catch_all_stage_effects env fast_mode domain hosts s ca s' :
  catch_all_stage env fast_mode domain hosts s = (ca, s') ->
  effects (fun ev => fast_mode = false /\ is_catch_all_event (take 2 hosts) ev) 15 s s'.
Proof.
  unfold catch_all_stage. destruct fast_mode.
  - unfold ret. intros [= <- <-].
    eapply effects_weaken; [| |apply (effects_refl (fun _ => False))]; [contradiction | lia].
  - unfold bind. destruct (detect_catch_all env domain hosts s) as [ca' s1] eqn:H.
    unfold ret. intros [= <- <-]. apply detect_catch_all_effects in H.
    eapply effects_weaken; [| |exact H]; [auto | lia].
Qed.

Lemma run_internet_check_effects env address ic s r s' :
  run_internet_check env address ic s = (r, s') ->
  effects (fun ev => ev = EInternet address /\ ic || enable_internet_checks env = true) 1 s s' /\
  (ic || enable_internet_checks env = true <-> is_Some r).
Proof.
  unfold run_internet_check. destruct (ic || enable_internet_checks env) eqn:E.
  - unfold bind. 
    match goal with
    | |- context [perform ?e ?a s] =>
        pose proof (effects_perform (fun ev => ev = EInternet address /\ true = true) e a s
                      (conj eq_refl eq_refl)) as Hp;
        destruct (perform e a s) as [[err|payload] s1]
    end; unfold ret; intros [= <- <-]; (split; [exact Hp|]); split; eauto.
  - unfold ret. intros [= <- <-]. split.
    + eapply effects_weaken; [| |apply (effects_refl (fun _ => False))]; [contradiction | lia].
    + split; [discriminate | intros [x H]; discriminate H].
Qed.

Lemma verify_run_footprint env address fast_mode mode ic s v s' local_part domain :
  verify_run env address fast_mode mode ic s v s' ->
  PyStr.split1 "@" (PyStr.lower address) = Some (local_part, domain) ->
  let hosts := match mx_check_of (evidence v) with
               | Some mx => take 2 (mx_hosts mx)
               | None => []
               end in
  emits (verify_event env address domain hosts fast_mode ic) s s' /\
  same_elsewhere domain s s'.
Proof.
  assert (forall hosts ev, mx_stage_event domain ev ->
            verify_event env address domain hosts fast_mode ic ev) as Hmx_ev.
  { intros hosts ev [->|[(kind & -> & Hk)|[->| ->]]]; simpl; auto.
    repeat (apply elem_of_cons in Hk as [->|Hk]; [reflexivity|]). inversion Hk. }
  assert (forall hosts ev, deliverability_stage_event domain ev ->
            verify_event env address domain hosts fast_mode ic ev) as Hd_ev.
  { intros hosts ev [->|[(kind & -> & Hk)|(name & -> & Hn)]]; simpl; auto.
    repeat (apply elem_of_cons in Hk as [->|Hk]; [reflexivity|]). inversion Hk. }
  intros [Hfmt | l dom mx s1 Hsplit Hmx Hvalid
               | l dom mx s1 r s2 d s3 ca s4 ic' s5 st rs cf
                 Hsplit Hmx Hvalid Hprobe Hd Hca Hic Hverdict] Hdomain; cbn [evidence mx_check_of].
  - split; [apply emits_refl | intros k _; auto].
  - assert (dom = domain) as -> by congruence.
    apply cached_mx_check_footprint in Hmx as (Hem & Hsame & _).
    split; [|exact Hsame]. eapply emits_weaken; [apply Hmx_ev | exact Hem].
  - assert (dom = domain) as -> by congruence.
    apply cached_mx_check_footprint in Hmx as (Hem1 & Hsame1 & _).
    apply smtp_handshake_effects in Hprobe.
    apply cached_deliverability_footprint in Hd as (Hem3 & Hsame3 & _).
    apply catch_all_stage_effects in Hca.
    apply run_internet_check_effects in Hic as [Hic _].
    split.
    + eapply emits_trans; [eapply emits_weaken; [apply Hmx_ev | exact Hem1]|].
      eapply emits_trans; [eapply emits_weaken; [|eapply effects_emits; exact Hprobe]|].
      { intros ev (host & cmd & -> & Hin). exact Hin. }
      eapply emits_trans; [eapply emits_weaken; [apply Hd_ev | exact Hem3]|].
      eapply emits_trans; [eapply emits_weaken; [|eapply effects_emits; exact Hca]|].
      { intros ev (Hfast & [->|(host & cmd & -> & Hin)]); [exact Hfast | exact Hin]. }
      eapply emits_weaken; [|eapply effects_emits; exact Hic].
      intros ev (-> & Hon). split; [reflexivity | exact Hon].
    + eapply same_elsewhere_trans; [exact Hsame1|].
      eapply same_elsewhere_trans; [eapply effects_same_elsewhere; exact Hprobe|].
      eapply same_elsewhere_trans; [exact Hsame3|].
      eapply same_elsewhere_trans; eapply effects_same_elsewhere; eassumption.
Qed.

(** X14: A run of verify_email on an address of a domain performs only: clock reads,
    cache operations on that domain's key, A and MX queries for the domain, TXT
    queries for names ending in the domain, SMTP calls to the first two hosts of the
    MX result, a random draw only when fast mode is off, and the internet check of the
    address only when it is requested or enabled; the cache entries of other domains
    are left as they were. *)
Theorem verify_email_footprint env address fast_mode mode ic s v s' local_part domain :
  verify_email env address fast_mode mode ic s = (inr v, s') ->
  PyStr.split1 "@" (PyStr.lower address) = Some (local_part, domain) ->
  let hosts := match mx_check_of (evidence v) with
               | Some mx => take 2 (mx_hosts mx)
               | None => []
               end in
  emits (verify_event env address domain hosts fast_mode ic) s s' /\
  same_elsewhere domain s s'.
Proof.
  intros Hrun. apply verify_email_run in Hrun as (v' & [= <-] & Hrun).
  eapply verify_run_footprint. exact Hrun.
Qed.

Lemma verify_email_footprint_witness :
  exists v s',
    verify_email (scripted_env 250 bye true) "bob@example.org" true "balanced" false idle
      = (inr v, s') /\
    emits (verify_event (scripted_env 250 bye true) "bob@example.org" "example.org"
             ["mx1.example.org"; "mx2.example.org"]%string true false) idle s' /\
    same_elsewhere "example.org" idle s'.
Proof.
  eexists _, _. split; [vm_compute; reflexivity|].
  edestruct (verify_email_footprint (scripted_env 250 bye true) "bob@example.org" true
               "balanced" false idle) as [H1 H2];
    [vm_compute; reflexivity | vm_compute; reflexivity | split; [exact H1 | exact H2]].
Defined.

(** X15: When the MX result of a run of verify_email is not valid, the result is
    status invalid with confidence 0.0 and reason Domain has no valid MX records, its
    details hold the MX result only, the deliverability cache is untouched, and the
    run performed only clock reads, MX-cache operations and A/MX queries for the
    domain: no SMTP call, TXT query, random draw or internet check. *)
Theorem invalid_mx_stops env address fast_mode mode ic s v s' mx :
  verify_email env address fast_mode mode ic s = (inr v, s') ->
  mx_check_of (evidence v) = Some mx ->
  valid mx = false ->
  v = {| email := address; status := "invalid"; confidence := 0.0;
         reason := "Domain has no valid MX records";
         evidence := {| mx_check_of := Some mx; smtp_check := None;
                        deliverability_of := None; catch_all_of := None;
                        internet_check := None |} |} /\
  deliverability_cache s' = deliverability_cache s /\
  exists local_part domain,
    PyStr.split1 "@" (PyStr.lower address) = Some (local_part, domain) /\
    emits (mx_stage_event domain) s s'.
Proof.
  intros Hrun. apply verify_email_run in Hrun as (v' & [= <-] & Hrun).
  destruct Hrun as [Hfmt | l dom mx' s1 Hsplit Hmx Hvalid
                   | l dom mx' s1 r s2 d s3 ca s4 ic' s5 st rs cf
                     Hsplit Hmx Hvalid Hprobe Hd Hca Hic Hverdict];
    cbn [evidence mx_check_of]; intros Hsome Hinvalid; try discriminate Hsome;
    injection Hsome as ->; [|congruence].
  apply cached_mx_check_footprint in Hmx as (Hem & _ & Hframe).
  split; [reflexivity|]. split; [exact Hframe|]. eauto.
Qed.

Lemma invalid_mx_stops_witness :
  exists v s',
    verify_email no_mail_env "bob@nowhere.example" true "balanced" false idle = (inr v, s') /\
    status v = "invalid"%string /\
    deliverability_cache s' = deliverability_cache idle.
Proof.
  eexists _, _. split; [vm_compute; reflexivity|]. split; [reflexivity|].
  edestruct (invalid_mx_stops no_mail_env "bob@nowhere.example" true "balanced" false idle)
    as (_ & H & _); [vm_compute; reflexivity | reflexivity | reflexivity | exact H].
Defined.

Lemma split1_some_has_char c s l r :
  PyStr.split1 c s = Some (l, r) -> PyStr.has_char c s = true.
Proof.
  revert l r. induction s as [|a s IH]; intros l r; simpl; [discriminate|].
  destruct (Ascii.eqb a c); [reflexivity|].
  destruct (PyStr.split1 c s) as [[l' r']|]; [|discriminate].
  intros _. simpl. eapply IH. reflexivity.
Qed.

Lemma well_formed address l domain :
  PyStr.split1 "@" (PyStr.lower address) = Some (l, domain) ->
  PyStr.is_empty address || negb (PyStr.has_char "@" address) = false.
Proof.
  intros H. apply split1_some_has_char in H. rewrite has_char_lower in H. rewrite H.
  destruct address; [discriminate H | reflexivity].
Qed.

(** What a run leaves in the caches for its domain. *)
Lemma verify_run_caches env address fast_mode mode ic s v s' l domain :
  verify_run env address fast_mode mode ic s v s' ->
  PyStr.split1 "@" (PyStr.lower address) = Some (l, domain) ->
  exists mx,
    mx_check_of (evidence v) = Some mx /\
    (exists entry, mx_cache s' !! domain = Some entry /\ value entry = mx) /\
    (valid mx = false /\ deliverability_of (evidence v) = None \/
     valid mx = true /\
     exists entry, deliverability_cache s' !! domain = Some entry /\
                   deliverability_of (evidence v) = Some (with_skipped_false (value entry))).
Proof.
  intros [Hfmt | l' dom mx s1 Hsplit Hmx Hvalid
               | l' dom mx s1 r s2 d s3 ca s4 ic' s5 st rs cf
                 Hsplit Hmx Hvalid Hprobe Hd Hca Hic Hverdict] Hdomain;
    cbn [evidence mx_check_of deliverability_of].
  - rewrite (well_formed _ _ _ Hdomain) in Hfmt. discriminate Hfmt.
  - assert (dom = domain) as -> by congruence.
    exists mx. split; [reflexivity|]. split; [eapply cached_mx_check_post; exact Hmx|].
    left. auto.
  - assert (dom = domain) as -> by congruence.
    exists mx. split; [reflexivity|].
    apply cached_mx_check_post in Hmx as Hentry.
    apply smtp_handshake_effects in Hprobe as (Hm2 & Hd2 & _).
    apply cached_deliverability_footprint in Hd as (_ & _ & Hm3 & (entry & Hk & Hval)).
    apply catch_all_stage_effects in Hca as (Hm4 & Hd4 & _).
    apply run_internet_check_effects in Hic as [(Hm5 & Hd5 & _) _].
    split; [rewrite Hm5, Hm4, Hm3, Hm2; exact Hentry|].
    right. split; [exact Hvalid|]. exists entry. rewrite Hd5, Hd4, Hval. auto.
Qed.



(** ** [verify_email]: the mode *)

Lemma calculate_confidence_mode smtp ca mx d m1 m2 :
  String.eqb m1 "aggressive" = String.eqb m2 "aggressive" ->
  calculate_confidence smtp ca mx d m1 = calculate_confidence smtp ca mx d m2.
Proof. intros H. rewrite !calculate_confidence_flags, H. reflexivity. Qed.

Lemma bind_ext {A B} (m : M A) (k1 k2 : A -> M B) s :
  (forall a s', k1 a s' = k2 a s') -> bind m k1 s = bind m k2 s.
Proof. intros H. unfold bind. destruct (m s). apply H. Qed.

(** X17: verify_email depends on the confidence mode only through whether its
    normalized form (lower-cased, empty read as balanced) is aggressive: two modes
    that agree on this give the same result and the same final state, so an unknown
    mode behaves as balanced and the mode is case-insensitive. *)
Theorem mode_only_aggressive env address fast_mode m1 m2 ic s :
  (normalize_mode m1 = "aggressive"%string <-> normalize_mode m2 = "aggressive"%string) ->
  verify_email env address fast_mode m1 ic s = verify_email env address fast_mode m2 ic s.
Proof.
  intros Hmode.
  assert (String.eqb (normalize_mode m1) "aggressive"
          = String.eqb (normalize_mode m2) "aggressive") as Heq.
  { destruct (String.eqb_spec (normalize_mode m1) "aggressive") as [H1|H1],
             (String.eqb_spec (normalize_mode m2) "aggressive") as [H2|H2];
      try reflexivity; exfalso; tauto. }
  unfold verify_email, verify_email_with.
  destruct (PyStr.is_empty address || negb (PyStr.has_char "@" address)); [reflexivity|].
  destruct (PyStr.split1 "@" (PyStr.lower address)) as [[l domain]|]; [|reflexivity].
  apply bind_ext. intros mx s1. destruct (negb (valid mx)); [reflexivity|].
  apply bind_ext. intros smtp_r s2.
  apply bind_ext. intros d s3.
  apply bind_ext. intros ca s4.
  apply bind_ext. intros ic' s5.
  rewrite (calculate_confidence_mode smtp_r ca mx (with_skipped_false d) _ _ Heq).
  reflexivity.
Qed.

Lemma mode_only_aggressive_witness :
  verify_email (scripted_env 450 bye true) "bob@example.org" true "AGGRESSIVE" false idle
  = verify_email (scripted_env 450 bye true) "bob@example.org" true "aggressive" false idle.
Proof.
  apply mode_only_aggressive. split; intros _; vm_compute; reflexivity.
Defined.

(** ** [generate_patterns] *)

Lemma address_has_at dom p : PyStr.has_char "@" (address dom p) = true.
Proof.
  unfold address. destruct (PyStr.has_char "@" p) eqn:E; [exact E|].
  rewrite !has_char_app. simpl. apply orb_true_r.
Qed.

Lemma generate_patterns_blank format_ext first_name last_name domain custom include_defaults :
  PyStr.strip (PyStr.lower first_name) = EmptyString \/
  PyStr.strip (PyStr.lower last_name) = EmptyString \/
  PyStr.rstrip ["@"%char] (PyStr.strip (PyStr.lower domain)) = EmptyString ->
  generate_patterns format_ext first_name last_name domain custom include_defaults = inr [].
Proof.
  intros H. unfold generate_patterns.
  destruct H as [-> | [-> | ->]]; change (PyStr.is_empty EmptyString) with true;
    rewrite ?orb_true_r; reflexivity.
Qed.

Lemma generate_patterns_cases first_name last_name domain :
  (PyStr.strip (PyStr.lower first_name) = EmptyString \/
   PyStr.strip (PyStr.lower last_name) = EmptyString \/
   PyStr.rstrip ["@"%char] (PyStr.strip (PyStr.lower domain)) = EmptyString) \/
  (PyStr.strip (PyStr.lower first_name) <> EmptyString /\
   PyStr.strip (PyStr.lower last_name) <> EmptyString /\
   PyStr.rstrip ["@"%char] (PyStr.strip (PyStr.lower domain)) <> EmptyString).
Proof.
  destruct (PyStr.strip (PyStr.lower first_name)); [auto|].
  destruct (PyStr.strip (PyStr.lower last_name)); [auto|].
  destruct (PyStr.rstrip ["@"%char] (PyStr.strip (PyStr.lower domain))); [auto|].
  right. repeat split; discriminate.
Qed.

Lemma generate_patterns_have_at format_ext first_name last_name domain custom include_defaults l :
  generate_patterns format_ext first_name last_name domain custom include_defaults = inr l ->
  NoDup l /\ Forall (fun a => PyStr.has_char "@" a = true) l.
Proof.
  intros Hrun.
  destruct (generate_patterns_cases first_name last_name domain)
    as [Hblank | (Hf & Hl & Hd)].
  - rewrite (generate_patterns_blank _ _ _ _ _ _ Hblank) in Hrun. injection Hrun as <-.
    split; constructor.
  - eapply (generate_patterns_generated _ _ _ _ _ _ Hf Hl Hd
              (fun a => PyStr.has_char "@" a = true)); [exact Hrun | | |].
    + intros t p _ _. apply address_has_at.
    + apply Forall_forall. intros p _. apply address_has_at.
    + intros ts t p _ _ _. apply address_has_at.
Qed.

Lemma first_char_differs (a b : string) :
  String.eqb (PyStr.take 1 a) (PyStr.take 1 b) = false -> a <> b.
Proof. intros H E. rewrite E, String.eqb_refl in H. discriminate H. Qed.



Lemma add_length dom p st :
  fst st `prefix_of` fst (add dom p st) /\
  (length (fst (add dom p st)) <= length (fst st) + 1)%nat.
Proof.
  rewrite add_unfold. destruct (PyStr.is_empty p); [split; [reflexivity | lia]|].
  case_bool_decide; [split; [reflexivity | lia]|].
  cbn [fst]. split; [eexists; reflexivity | rewrite length_app; simpl; lia].
Qed.

Lemma add_all_length dom ps : forall st,
  fst st `prefix_of` fst (add_all dom ps st) /\
  (length (fst (add_all dom ps st)) <= length (fst st) + length ps)%nat.
Proof.
  unfold add_all. induction ps as [|p ps IH]; intros st; simpl.
  - split; [reflexivity | lia].
  - destruct (add_length dom p st) as [Hpre Hlen].
    destruct (IH (add dom p st)) as [Hpre' Hlen'].
    split; [etransitivity; eassumption | lia].
Qed.

Lemma add_templates_length format_ext (strip_first : bool) dom tokens
    (templates : list string) : forall st st',
  add_templates format_ext strip_first dom tokens templates st = inr st' ->
  fst st `prefix_of` fst st' /\
  (length (fst st') <= length (fst st) + length templates)%nat.
Proof.
  induction templates as [|t ts IH]; intros st st'; simpl.
  - intros [= <-]. split; [reflexivity | lia].
  - destruct (strip_first && PyStr.is_empty (if strip_first then PyStr.strip t else t)).
    { intros H. destruct (IH _ _ H). split; [assumption | lia]. }
    destruct (format format_ext (if strip_first then PyStr.strip t else t) tokens)
      as [p| |e]; [| |discriminate].
    + intros H. destruct (IH _ _ H) as [Hpre Hlen].
      destruct (add_length dom p st) as [Hpre0 Hlen0].
      split; [etransitivity; eassumption | lia].
    + intros H. destruct (IH _ _ H). split; [assumption | lia].
Qed.

Lemma generate_patterns_built_in format_ext first_name last_name domain custom include_defaults :
  let first := PyStr.strip (PyStr.lower first_name) in
  let last := PyStr.strip (PyStr.lower last_name) in
  let domain_lower := PyStr.rstrip ["@"%char] (PyStr.strip (PyStr.lower domain)) in
  first <> EmptyString -> last <> EmptyString -> domain_lower <> EmptyString ->
  generate_patterns format_ext first_name last_name domain custom include_defaults =
  match built_in format_ext first last domain_lower include_defaults with
  | inl e => inl e
  | inr st =>
      match custom with
      | None | Some [] => inr (fst st)
      | Some templates =>
          match add_templates format_ext true domain_lower
                  (make_tokens first last domain_lower) templates st with
          | inl e => inl e
          | inr st => inr (fst st)
          end
      end
  end.
Proof.
  intros first last domain_lower Hf Hl Hd. unfold generate_patterns, built_in.
  fold first last domain_lower.
  rewrite (is_empty_false _ Hf), (is_empty_false _ Hl), (is_empty_false _ Hd).
  cbn [orb]. cbv iota.
  destruct (if include_defaults then _ else _) as [e|st]; reflexivity.
Qed.

Lemma suffix_sweep_length first last : length (suffix_sweep first last) = 48%nat.
Proof. reflexivity. Qed.

Lemma separator_sweep_length first last f l :
  length (separator_sweep first last f l) = 20%nat.
Proof. reflexivity. Qed.

Lemma built_in_length format_ext first last domain_lower include_defaults st :
  built_in format_ext first last domain_lower include_defaults = inr st ->
  (length (fst st) <= (if include_defaults then 18 else 0) + 77)%nat.
Proof.
  unfold built_in. cbv zeta.
  destruct (if include_defaults then _ else _) as [e|st0] eqn:E; cbv beta iota;
    [intros H; discriminate H|].
  assert (length (fst st0) <= (if include_defaults then 18 else 0))%nat as H0.
  { destruct include_defaults.
    - apply add_templates_length in E as [_ E]. exact E.
    - injection E as <-. apply Nat.le_refl. }
  clear E. intros H.
  apply (f_equal (fun x : exn + acc => match x with inr y => y | inl _ => st end)) in H.
  cbv beta iota in H. subst st.
  pose proof (add_all_length domain_lower (suffix_sweep first last) st0) as [_ H1].
  rewrite suffix_sweep_length in H1.
  generalize dependent (add_all domain_lower (suffix_sweep first last) st0). intros st1 H1.
  pose proof (add_all_length domain_lower
                (separator_sweep first last (PyStr.head first) (PyStr.head last)) st1)
    as [_ H2].
  rewrite separator_sweep_length in H2.
  generalize dependent (add_all domain_lower
    (separator_sweep first last (PyStr.head first) (PyStr.head last)) st1). intros st2 H2.
  pose proof (add_all_length domain_lower
                (extras first last (PyStr.head first) (PyStr.head last)) st2) as [_ H3].
  cbn [extras length] in H3.
  generalize dependent (add_all domain_lower
    (extras first last (PyStr.head first) (PyStr.head last)) st2). intros st3 H3.
  pose proof (add_all_length domain_lower (long_name_extras first last (PyStr.head first)) st3)
    as [_ H4].
  cbn [long_name_extras length] in H4.
  generalize dependent (add_all domain_lower
    (long_name_extras first last (PyStr.head first)) st3). intros st4 H4.
  destruct ((1 <? PyStr.len first) && (1 <? PyStr.len last)); destruct include_defaults; lia.
Qed.

(** X19: generate_patterns returns at most 77 addresses from its sweeps, plus 18 when
    the built-in templates are included, plus one per custom template; and the list it
    returns without custom templates is a prefix of the list with them: custom
    templates only append candidates. *)
Theorem generate_patterns_size format_ext first_name last_name domain custom
    include_defaults l :
  generate_patterns format_ext first_name last_name domain custom include_defaults = inr l ->
  (length l <= (if include_defaults then 18 else 0) + 77
               + length (default [] custom))%nat /\
  exists built,
    generate_patterns format_ext first_name last_name domain None include_defaults = inr built /\
    built `prefix_of` l.
Proof.
  intros Hrun.
  destruct (generate_patterns_cases first_name last_name domain)
    as [Hblank | (Hf & Hl & Hd)].
  { rewrite (generate_patterns_blank _ _ _ _ _ _ Hblank) in Hrun. injection Hrun as <-.
    split; [apply Nat.le_0_l|]. exists [].
    split; [apply generate_patterns_blank, Hblank | reflexivity]. }
  rewrite (generate_patterns_built_in _ _ _ _ custom _ Hf Hl Hd) in Hrun.
  rewrite (generate_patterns_built_in _ _ _ _ None _ Hf Hl Hd).
  destruct (built_in _ _ _ _ _) as [e|st] eqn:Hb; [discriminate Hrun|].
  apply built_in_length in Hb.
  destruct custom as [[|t ts]|].
  - injection Hrun as <-. split; [change (default [] (Some [])) with (@nil string); simpl length; lia|].
    exists (fst st). split; reflexivity.
  - destruct (add_templates _ _ _ _ _ _) as [e|st'] eqn:Hc; [discriminate Hrun|].
    injection Hrun as <-. apply add_templates_length in Hc as [Hpre Hlen].
    split; [change (default [] (Some (t :: ts))) with (t :: ts); lia|].
    exists (fst st). split; [reflexivity | exact Hpre].
  - injection Hrun as <-. split; [change (default [] None) with (@nil string); simpl length; lia|].
    exists (fst st). split; reflexivity.
Qed.

Lemma generate_patterns_size_witness :
  exists l,
    generate_patterns refuse_template "Bob" "Ross" "example.org" None true = inr l /\
    (length l <= 95)%nat.
Proof.
  eexists. split; [vm_compute; reflexivity|].
  edestruct (generate_patterns_size refuse_template "Bob" "Ross" "example.org" None true)
    as [H _]; [vm_compute; reflexivity | exact H].
Defined.

(** ** [find_best_emails] *)

Lemma SFcompare_asym a b : SFcompare a b = Some Lt -> SFcompare b a = Some Gt.
Proof.
  destruct a as [sa|sa| |sa ma ea], b as [sb|sb| |sb mb eb]; simpl;
    try destruct sa; try destruct sb; try congruence.
  - rewrite (Z.compare_antisym ea eb). destruct (ea ?= eb)%Z; simpl; try congruence.
    rewrite (ZC4 mb ma). destruct (Pos.compare_cont Eq ma mb); simpl; congruence.
  - rewrite (Z.compare_antisym ea eb). destruct (ea ?= eb)%Z; simpl; try congruence.
    rewrite (ZC4 mb ma). destruct (Pos.compare_cont Eq ma mb); simpl; congruence.
Qed.

Lemma ltb_asym x y : PrimFloat.ltb x y = true -> PrimFloat.ltb y x = false.
Proof.
  rewrite !FloatAxioms.ltb_spec. unfold SFltb.
  destruct (SFcompare (Prim2SF x) (Prim2SF y)) as [[| |]|] eqn:E; try discriminate.
  intros _. rewrite (SFcompare_asym _ _ E). reflexivity.
Qed.

Lemma insert_by_confidence_perm x l : insert_by_confidence x l ≡ₚ x :: l.
Proof.
  induction l as [|y l IH]; simpl; [reflexivity|].
  destruct (PrimFloat.ltb _ _); [reflexivity|].
  rewrite IH. apply Permutation_swap.
Qed.

Lemma sort_by_confidence_perm l : sort_by_confidence l ≡ₚ l.
Proof.
  unfold sort_by_confidence.
  assert (forall acc, fold_left (fun acc x => insert_by_confidence x acc) l acc ≡ₚ acc ++ l)
    as H; [|apply (H [])].
  induction l as [|x l IH]; intros acc; simpl.
  - rewrite app_nil_r. reflexivity.
  - rewrite IH, insert_by_confidence_perm. apply Permutation_middle.
Qed.

Lemma insert_by_confidence_sorted x l :
  Sorted not_below l -> Sorted not_below (insert_by_confidence x l).
Proof.
  induction 1 as [|y l Hl IH Hy]; simpl.
  - repeat constructor.
  - destruct (PrimFloat.ltb (found_confidence y) (found_confidence x)) eqn:E.
    + constructor; [constructor; assumption|]. constructor. apply ltb_asym, E.
    + constructor; [exact IH|].
      destruct l as [|z l]; simpl.
      * constructor. exact E.
      * destruct (PrimFloat.ltb (found_confidence z) (found_confidence x));
          constructor; [exact E|]. inversion Hy; assumption.
Qed.

Lemma sort_by_confidence_sorted l : Sorted not_below (sort_by_confidence l).
Proof.
  unfold sort_by_confidence.
  assert (forall acc, Sorted not_below acc ->
            Sorted not_below (fold_left (fun acc x => insert_by_confidence x acc) l acc))
    as H; [|apply H; constructor].
  induction l as [|x l IH]; intros acc Hacc; simpl; [exact Hacc|].
  apply IH, insert_by_confidence_sorted, Hacc.
Qed.

Lemma Sorted_take {A} (R : A -> A -> Prop) n : forall l, Sorted R l -> Sorted R (take n l).
Proof.
  induction n as [|n IH]; intros l Hl; [constructor|].
  destruct Hl as [|x l Hl Hx]; simpl; [constructor|].
  constructor; [apply IH, Hl|].
  destruct Hx as [|y l' Hxy]; [destruct n; constructor|].
  destruct n; constructor. exact Hxy.
Qed.

Lemma slice_to_take {A} n (l : list A) : exists k, slice_to n l = take k l.
Proof. unfold slice_to. destruct (0 <=? n); eauto. Qed.

Lemma slice_to_length {A} n (l : list A) :
  0 <= n -> Z.of_nat (length (slice_to n l)) <= n.
Proof.
  intros Hn. unfold slice_to. destruct (Z.leb_spec 0 n); [|lia].
  rewrite length_take. lia.
Qed.

Section ProbeFacts.

Variable W : Type.

Variable verify : string -> bool -> string -> bool -> W -> (exn + verification) * W.

Variables (max_results : Z) (fast_mode : bool) (confidence_mode : string)
          (internet_checks : bool).

Lemma probe_collects candidates : forall results w probed results' w',
  probe W verify max_results fast_mode confidence_mode internet_checks candidates results w
    = (probed, results', w') ->
  exists new,
    results' = results ++ new /\
    Forall (fun r => collectible (found_status r) = true) new /\
    map found_email new `sublist_of` probed.
Proof.
  induction candidates as [|e cs IH]; intros results w probed results' w'; simpl.
  - intros [= <- <- <-]. exists []. rewrite app_nil_r. repeat constructor.
  - destruct (verify e fast_mode confidence_mode internet_checks w) as [r w1].
    assert (forall results1 new1,
              results1 = results ++ new1 ->
              Forall (fun r => collectible (found_status r) = true) new1 ->
              map found_email new1 `sublist_of` [e] ->
              (let '(probed, results', w'') :=
                 probe W verify max_results fast_mode confidence_mode internet_checks
                       cs results1 w1 in
               (e :: probed, results', w'')) = (probed, results', w') ->
              exists new,
                results' = results ++ new /\
                Forall (fun r => collectible (found_status r) = true) new /\
                map found_email new `sublist_of` probed) as Hgo.
    { intros results1 new1 -> Hc1 Hs1.
      destruct (probe _ _ _ _ _ _ cs _ w1) as [[p r'] w''] eqn:Hp.
      intros [= <- <- <-].
      destruct (IH _ _ _ _ _ Hp) as (new & -> & Hc & Hs).
      exists (new1 ++ new). split; [symmetry; apply app_assoc|].
      split; [apply Forall_app; auto|].
      rewrite map_app. change (e :: p) with ([e] ++ p). apply sublist_app; assumption. }
    destruct r as [err|v].
    + apply (Hgo results []); [symmetry; apply app_nil_r | constructor | apply sublist_nil_l].
    + destruct (collectible (status v)) eqn:Hc.
      * destruct (stop_early max_results v (collect e v results)).
        -- intros [= <- <- <-]. eexists. split; [reflexivity|].
           split; [repeat constructor; exact Hc | reflexivity].
        -- apply (Hgo _ _ eq_refl); [repeat constructor; exact Hc | reflexivity].
      * apply (Hgo results []); [symmetry; apply app_nil_r | constructor | apply sublist_nil_l].
Qed.

End ProbeFacts.

Lemma prioritize_nonempty priority patterns :
  NoDup patterns -> patterns <> [] -> prioritize priority patterns <> [].
Proof.
  intros Hnd Hne E. pose proof (prioritize_perm priority patterns Hnd) as Hp.
  rewrite E in Hp. apply Permutation_nil_l in Hp. congruence.
Qed.

Lemma trace_results format_ext W verify max_results fast_mode mode ic first_name last_name
    domain max_patterns custom include_defaults w probed results w' :
  find_best_emails_trace format_ext W verify max_results fast_mode mode ic
    first_name last_name domain max_patterns custom include_defaults w
  = (inr (probed, results), w') ->
  Forall (fun r => collectible (found_status r) = true /\ found_email r ∈ probed) results /\
  NoDup (map found_email results) /\
  Sorted not_below results /\
  (0 <= max_results -> Z.of_nat (length results) <= max_results) /\
  Z.of_nat (length probed) <= Z.max 1 max_patterns /\
  exists patterns,
    generate_patterns format_ext first_name last_name domain custom include_defaults
      = inr patterns /\
    NoDup probed /\ (forall a, a ∈ probed -> a ∈ patterns).
Proof.
  unfold find_best_emails_trace.
  destruct (generate_patterns _ _ _ _ _ _) as [e|patterns] eqn:Hgen; [intros H; discriminate H|].
  destruct patterns as [|p ps].
  { intros [= <- <- <-]. repeat split; try constructor; try (simpl; lia).
    exists []. repeat split; [constructor | auto]. }
  destruct (priority_patterns first_name last_name domain) as [e|priority];
    [intros H; discriminate H|].
  apply generate_patterns_have_at in Hgen as Hnd. destruct Hnd as [Hnd _].
  set (patterns := p :: ps) in *.
  assert (patterns <> []) as Hne by discriminate.
  pose proof (prioritize_perm priority patterns Hnd) as Hperm.
  pose proof (prioritize_nonempty priority patterns Hnd Hne) as Hone.
  destruct (clamp_patterns_bounds max_patterns _ Hone) as (Hclamp & _ & Hlen).
  pose proof (slice_to_prefix (clamp_patterns max_patterns (prioritize priority patterns))
                (prioritize priority patterns)) as Hslice.
  destruct (probe _ _ _ _ _ _ _ _ _) as [[probed' collected] w''] eqn:Hp.
  intros [= <- <- <-].
  destruct (probe_spec _ _ _ _ _ _ _ _ _ _ _ _ (stop_rule_nil max_results) Hp)
    as ((rest & Hprobed & _) & _).
  destruct (probe_collects _ _ _ _ _ _ _ _ _ _ _ _ Hp) as (new & Hnew & Hc & Hsub).
  simpl in Hnew. subst collected.
  assert (NoDup probed') as Hndp.
  { assert (NoDup (prioritize priority patterns)) as Hndo by (rewrite Hperm; exact Hnd).
    destruct Hslice as [k Hk]. rewrite Hk, Hprobed in Hndo.
    apply NoDup_app in Hndo as [Hndo _]. apply NoDup_app in Hndo as [Hndo _]. exact Hndo. }
  assert (forall a, a ∈ probed' -> a ∈ patterns) as Hin.
  { intros a Ha. rewrite <- Hperm. destruct Hslice as [k ->]. rewrite Hprobed.
    apply elem_of_app. left. apply elem_of_app. left. exact Ha. }
  destruct (slice_to_take max_results (sort_by_confidence new)) as [k Hk].
  pose proof (sort_by_confidence_perm new) as Hsp.
  split; [|split; [|split; [|split; [|split]]]].
  - rewrite Hk. apply Forall_take. rewrite Hsp.
    apply Forall_forall. intros r Hr. split.
    + rewrite Forall_forall in Hc. apply Hc, Hr.
    + eapply elem_of_sublist; [|exact Hsub]. apply list_elem_of_fmap. eauto.
  - rewrite Hk.
    assert (NoDup (map found_email (sort_by_confidence new))) as Hnds.
    { apply (NoDup_Permutation_proper _ _ (Permutation_map found_email Hsp)).
      eapply sublist_NoDup; eassumption. }
    rewrite <- (take_drop k (sort_by_confidence new)), map_app in Hnds.
    apply NoDup_app in Hnds as [Hnds _]. exact Hnds.
  - rewrite Hk. apply Sorted_take, sort_by_confidence_sorted.
  - apply slice_to_length.
  - assert (length probed' <= length (slice_to (clamp_patterns max_patterns
                                                  (prioritize priority patterns))
                                        (prioritize priority patterns)))%nat as Hle.
    { rewrite Hprobed, length_app. lia. }
    unfold clamp_patterns in *. lia.
  - exists patterns. auto.
Qed.

(** X20: Every result of find_best_emails has a status among valid, catch-all and
    likely_valid and the address of a verified candidate; no address is returned
    twice; no result is followed by one of higher confidence; for a non-negative
    max_results at most max_results results are returned; at most max(1, max_patterns)
    candidates are verified, each once, all of them generated candidates. *)
Theorem find_best_emails_results format_ext W verify max_results fast_mode mode ic
    first_name last_name domain max_patterns custom include_defaults w probed results w' :
  find_best_emails_trace format_ext W verify max_results fast_mode mode ic
    first_name last_name domain max_patterns custom include_defaults w
  = (inr (probed, results), w') ->
  Forall (fun r => collectible (found_status r) = true /\ found_email r ∈ probed) results /\
  NoDup (map found_email results) /\
  Sorted not_below results /\
  (0 <= max_results -> Z.of_nat (length results) <= max_results) /\
  Z.of_nat (length probed) <= Z.max 1 max_patterns /\
  exists patterns,
    generate_patterns format_ext first_name last_name domain custom include_defaults
      = inr patterns /\
    NoDup probed /\ (forall a, a ∈ probed -> a ∈ patterns).
Proof. apply trace_results. Qed.

Lemma find_best_emails_results_witness :
  exists probed results w',
    find_best_emails_trace refuse_template state (verify_email (scripted_env 250 bye true))
      2 true "balanced" false "Bob" "Ross" "example.org" 8 None true idle
    = (inr (probed, results), w') /\
    NoDup (map found_email results) /\ Sorted not_below results /\
    Z.of_nat (length results) <= 2 /\ Z.of_nat (length probed) <= 8.
Proof.
  eexists _, _, _. split; [vm_compute; reflexivity|].
  edestruct (find_best_emails_results refuse_template state
               (verify_email (scripted_env 250 bye true)) 2 true "balanced" false
               "Bob" "Ross" "example.org" 8 None true idle)
    as (_ & H1 & H2 & H3 & H4 & _); [vm_compute; reflexivity|].
  split; [exact H1|]. split; [exact H2|]. split; [apply H3; lia | exact H4].
Defined.

(** X21: find_best_email returns the only result of find_best_emails run with
    max_results 1 and max_patterns 8, or None when that run has no result; it verifies
    at most 8 candidates, and a result it returns has a status among valid, catch-all
    and likely_valid and the address of a verified candidate. *)
Theorem find_best_email_sound format_ext W verify first_name last_name domain custom
    include_defaults fast_mode mode ic w best w' :
  find_best_email format_ext W verify first_name last_name domain custom include_defaults
    fast_mode mode ic w = (inr best, w') ->
  exists probed,
    find_best_emails_trace format_ext W verify 1 fast_mode mode ic
      first_name last_name domain 8 custom include_defaults w
    = (inr (probed, option_list best), w') /\
    (length probed <= 8)%nat /\
    (forall r, best = Some r ->
       collectible (found_status r) = true /\ found_email r ∈ probed).
Proof.
  unfold find_best_email, find_best_emails.
  destruct (find_best_emails_trace _ _ _ _ _ _ _ _ _ _ _ _ _ _)
    as [[e|[probed results]] w1] eqn:Htrace; [intros H; discriminate H|].
  intros H. injection H as <- <-.
  destruct (trace_results _ _ _ _ _ _ _ _ _ _ _ _ _ _ _ _ _ Htrace)
    as (Hres & _ & _ & Hlen & Hprobed & _).
  specialize (Hlen ltac:(lia)).
  exists probed. split; [|split].
  - destruct results as [|r [|r' rest]]; [reflexivity | reflexivity | simpl in Hlen; lia].
  - lia.
  - intros r Hr. destruct results as [|r0 rest]; [discriminate Hr|].
    injection Hr as ->. apply Forall_cons in Hres as [Hres _]. exact Hres.
Qed.

Lemma find_best_email_sound_witness :
  exists best w' probed,
    find_best_email refuse_template state (verify_email (scripted_env 250 bye true))
      "Bob" "Ross" "example.org" None true true "balanced" false idle = (inr best, w') /\
    (length probed <= 8)%nat /\
    (forall r, best = Some r -> collectible (found_status r) = true /\ found_email r ∈ probed).
Proof.
  edestruct (find_best_email_sound refuse_template state
               (verify_email (scripted_env 250 bye true))
               "Bob" "Ross" "example.org" None true true "balanced" false idle)
    as (probed & _ & H1 & H2); [vm_compute; reflexivity|].
  eexists _, _, probed. split; [vm_compute; reflexivity|]. split; [exact H1 | exact H2].
Defined.

(** ** The /api/find endpoint *)

Lemma lower_nil_inv s : PyStr.lower s = EmptyString -> s = EmptyString.
Proof. destruct s; [reflexivity | discriminate]. Qed.

Lemma priority_patterns_total first_name last_name domain :
  PyStr.strip (PyStr.lower first_name) <> EmptyString ->
  exists priority, priority_patterns first_name last_name domain = inr priority.
Proof.
  intros H. unfold priority_patterns.
  destruct first_name as [|c rest]; [contradiction H; reflexivity|].
  simpl. eauto.
Qed.

Lemma trace_total format_ext W verify max_results fast_mode mode ic first_name last_name
    domain max_patterns custom include_defaults w :
  in_fragment custom ->
  exists probed results w',
    find_best_emails_trace format_ext W verify max_results fast_mode mode ic
      first_name last_name domain max_patterns custom include_defaults w
    = (inr (probed, results), w') /\
    (PyStr.strip (PyStr.lower first_name) = EmptyString \/
     PyStr.strip (PyStr.lower last_name) = EmptyString \/
     PyStr.rstrip ["@"%char] (PyStr.strip (PyStr.lower domain)) = EmptyString ->
     probed = [] /\ results = [] /\ w' = w).
Proof.
  intros Hfrag. unfold find_best_emails_trace.
  destruct (generate_patterns_cases first_name last_name domain)
    as [Hblank | (Hf & Hl & Hd)].
  { rewrite (generate_patterns_blank _ _ _ _ _ _ Hblank). eauto 10. }
  destruct (generate_patterns_total format_ext first_name last_name domain custom
              include_defaults Hf Hl Hd) as (patterns & ->).
  { intros ts t e Hc Hin. destruct (Hfrag ts t Hc Hin) as [segments Hparse].
    unfold format. rewrite Hparse. apply render_never_raises. }
  destruct patterns as [|p ps].
  { eexists _, _, _. split; [reflexivity|]. auto. }
  destruct (priority_patterns_total first_name last_name domain Hf) as (priority & ->).
  destruct (probe _ _ _ _ _ _ _ _ _) as [[probed results] w'].
  eexists _, _, _. split; [reflexivity|].
  intros [H | [H | H]]; contradiction.
Qed.

Lemma limits_bounds request :
  1 <= fst (Api.limits request) <= 20 /\
  fst (Api.limits request) <= snd (Api.limits request) <= 60.
Proof. unfold Api.limits. cbn [fst snd]. lia. Qed.

(** X22: When the custom patterns are absent or made only of text, doubled braces and
    {name} fields, the /api/find endpoint never fails: it verifies at most 60
    candidates and returns between 1 and 20 entries, which are either the single
    not_found entry or entries with the address of a verified candidate and a status
    among valid, catch-all and likely_valid; when a name or the domain is blank after
    normalization it returns the not_found entry without calling the verifier. *)
Theorem find_email_answers format_ext W verify request w :
  in_fragment (Api.custom_patterns request) ->
  exists probed response w',
    Api.find_email_trace format_ext W verify request w = (inr (probed, response), w') /\
    (length probed <= 60)%nat /\
    (1 <= length response <= 20)%nat /\
    (response = [Api.not_found] \/
     Forall (fun r => exists a, Api.email r = Some a /\ a ∈ probed /\
                                collectible (Api.status r) = true) response) /\
    (PyStr.strip (PyStr.lower (Api.first_name request)) = EmptyString \/
     PyStr.strip (PyStr.lower (Api.last_name request)) = EmptyString \/
     PyStr.rstrip ["@"%char] (PyStr.strip (PyStr.lower (Api.domain request))) = EmptyString ->
     probed = [] /\ response = [Api.not_found] /\ w' = w).
Proof.
  intros Hfrag. unfold Api.find_email_trace.
  pose proof (limits_bounds request) as Hlim.
  destruct (Api.limits request) as [max_results max_patterns]. cbn [fst snd] in Hlim.
  destruct (trace_total format_ext W verify max_results (Api.fast_mode request)
              (Api.mode_of request) (Api.internet_checks_of request)
              (Api.first_name request) (Api.last_name request) (Api.domain request)
              max_patterns (Api.custom_patterns request)
              (Api.include_default_patterns request) w Hfrag)
    as (probed & results & w' & Htrace & Hblank).
  rewrite Htrace.
  destruct (trace_results _ _ _ _ _ _ _ _ _ _ _ _ _ _ _ _ _ Htrace)
    as (Hres & _ & _ & Hlen & Hprobed & _).
  specialize (Hlen ltac:(lia)).
  destruct results as [|r rest].
  - exists probed, [Api.not_found], w'. split; [reflexivity|].
    split; [lia|]. split; [simpl; lia|]. split; [auto|].
    intros H. destruct (Hblank H) as (-> & _ & ->). auto.
  - exists probed, (map Api.response_of (r :: rest)), w'. split; [reflexivity|].
    split; [lia|]. split; [rewrite length_map; simpl in *; lia|]. split.
    + right. apply Forall_forall. intros x Hx. apply list_elem_of_fmap in Hx as (y & -> & Hy).
      rewrite Forall_forall in Hres. destruct (Hres y Hy) as [Hc Hin].
      exists (found_email y). auto.
    + intros H. destruct (Hblank H) as (_ & Hnil & _). discriminate Hnil.
Qed.

Lemma find_email_answers_witness :
  exists probed response w',
    Api.find_email_trace refuse_template state (verify_email (scripted_env 250 bye true))
      sample_request idle = (inr (probed, response), w') /\
    (length probed <= 60)%nat /\ (1 <= length response <= 20)%nat.
Proof.
  destruct (find_email_answers refuse_template state
              (verify_email (scripted_env 250 bye true)) sample_request idle)
    as (probed & response & w' & H1 & H2 & H3 & _).
  - intros ts t H. discriminate H.
  - exists probed, response, w'. auto.
Defined.
